(** * Spectractor: the spectrogram extraction driver

    A shallow embedding of [extract_spectrum_from_image]
    (spectractor/extractor/extractor.py) and the properties of its
    background-refinement loop, crop windows, table bookkeeping and
    output fields.

    Conventions.
    - Python [int] is [Z]; Python/NumPy floats are exact rationals [Q]
      (rounding is not modelled); the two NaN-aware reductions of the pull
      array return a [stat], which keeps NaN apart because every comparison
      with NaN is false.
    - The module [parameters] is process-wide mutable state: it lives in the
      [World] that every call threads through, together with a log of the
      observable effects (array reads, background fits, warnings).
    - Code imported from other modules of the package (background estimator,
      ChromaticPSF methods, PSF loader, NumPy reductions) is taken through
      the interface [Collaborators]. *)

From Stdlib Require Import ZArith QArith Qabs Qround List String Ascii Bool
  Lia Lqa.
From stdpp Require Import base gmap strings.
Import ListNotations.

Local Open Scope Z_scope.

(** ** Numbers *)

(** Result of [np.nanmean] / [np.nanstd]. *)
Inductive stat : Type :=
| Fin (q : Q)
| NaN.

(** [x > y] on floats. *)
Definition Qgtb (x y : Q) : bool := negb (Qle_bool x y).

(** [x < y] on floats. *)
Definition Qltb (x y : Q) : bool := negb (Qle_bool y x).

(** [np.abs(s) > bound]; false on NaN. *)
Definition abs_gt (s : stat) (bound : Q) : bool :=
  match s with
  | Fin q => Qgtb (Qabs q) bound
  | NaN => false
  end.

(** [s > bound]; false on NaN. *)
Definition stat_gt (s : stat) (bound : Q) : bool :=
  match s with
  | Fin q => Qgtb q bound
  | NaN => false
  end.

(** Python [int(x)] on a float: truncation toward zero. *)
Definition int_of_float (x : Q) : Z := Z.quot (Qnum x) (Zpos (Qden x)).

(** [np.arange(a, b)] with integer bounds. *)
Definition arange (a b : Z) : list Z :=
  map (fun k => a + Z.of_nat k) (seq 0 (Z.to_nat (b - a))).

(** ** Arrays *)

(** A two-dimensional [ndarray]: [shape = (rows, columns)], [pix y x]. *)
Record ndarray : Type := {
  shape : Z * Z;
  pix : Z -> Z -> Q
}.

(** One bound of a Python slice on an axis of length [n]: negative bounds
    count from the end, and the result is clamped to [0, n]. *)
Definition slice_bound (n i : Z) : Z :=
  if i <? 0 then Z.max 0 (i + n) else Z.min i n.

(** Start and length of [lo:hi] on an axis of length [n]. *)
Definition slice_range (n lo hi : Z) : Z * Z :=
  let a := slice_bound n lo in
  let b := slice_bound n hi in
  (a, Z.max 0 (b - a)).

(** [a[ylo:yhi, xlo:xhi]] *)
Definition crop (a : ndarray) (ylo yhi xlo xhi : Z) : ndarray :=
  let ry := slice_range (fst (shape a)) ylo yhi in
  let rx := slice_range (snd (shape a)) xlo xhi in
  {| shape := (snd ry, snd rx);
     pix := fun y x => pix a (fst ry + y) (fst rx + x) |}.

(** [a[:, 0:right_edge]] *)
Definition upto_right_edge (a : ndarray) (right_edge : Z) : ndarray :=
  let rx := slice_range (snd (shape a)) 0 right_edge in
  {| shape := (fst (shape a), snd rx);
     pix := fun y x => pix a y (fst rx + x) |}.

(** [np.argmin] on a one-dimensional array: the first index of the least
    element; [None] stands for the [ValueError] raised on an empty array. *)
Fixpoint argmin_from (best : Q) (ibest i : Z) (l : list Q) : Z :=
  match l with
  | [] => ibest
  | x :: l' =>
      if Qltb x best then argmin_from x i (i + 1) l'
      else argmin_from best ibest (i + 1) l'
  end.

Definition argmin (l : list Q) : option Z :=
  match l with
  | [] => None
  | x :: l' => Some (argmin_from x 0 1 l')
  end.

(** [np.abs(lambdas - bound)] *)
Definition abs_dist (lambdas : list Q) (bound : Q) : list Q :=
  map (fun l => Qabs (l - bound)%Q) lambdas.

(** [a.max()] and [a.min()] on a one-dimensional array. *)
Definition array_max (l : list Q) : option Q :=
  match l with
  | [] => None
  | x :: l' => Some (fold_left (fun m y => if Qltb m y then y else m) l' x)
  end.

Definition array_min (l : list Q) : option Q :=
  match l with
  | [] => None
  | x :: l' => Some (fold_left (fun m y => if Qltb y m then y else m) l' x)
  end.

(** [a[i]] on a one-dimensional array with a non-negative index. *)
Definition item (l : list Q) (i : Z) : option Q :=
  if i <? 0 then None else nth_error l (Z.to_nat i).

(** ** Data model *)

(** The image handed over by the caller. [grating_pixel_to_lambda] is the
    method of [image.disperser]; it acts element by element on the array of
    pixel offsets, [x0] being the target position. *)
Record Image : Type := {
  data : ndarray;
  stat_errors : ndarray;
  data_rotated : ndarray;
  stat_errors_rotated : ndarray;
  target_pixcoords : Q * Q;
  target_pixcoords_rotated : Q * Q;
  rotation_angle : Q;
  saturation : Q;
  units : string;
  grating_pixel_to_lambda : Q -> Q * Q -> Q
}.

(** The attributes of the module [parameters] that the function touches. *)
Record Settings : Type := {
  PSF_EXTRACTION_MODE : string;
  PIXWIDTH_BOXSIZE : Z;
  LAMBDA_MIN : Q;
  LAMBDA_MAX : Q;
  PSF_POLY_ORDER : Z;
  PSF_TYPE : string;
  VERBOSE : bool
}.

(** [parameters.PIXWIDTH_BOXSIZE = b] *)
Definition set_boxsize (b : Z) (p : Settings) : Settings :=
  {| PSF_EXTRACTION_MODE := PSF_EXTRACTION_MODE p;
     PIXWIDTH_BOXSIZE := b;
     LAMBDA_MIN := LAMBDA_MIN p;
     LAMBDA_MAX := LAMBDA_MAX p;
     PSF_POLY_ORDER := PSF_POLY_ORDER p;
     PSF_TYPE := PSF_TYPE p;
     VERBOSE := VERBOSE p |}.

Inductive frame : Type := rotated | unrotated.

(** Observable effects, in program order. *)
Inductive event : Type :=
| ReadArray (attribute : string)      (* np.copy(image.<attribute>) *)
| BackgroundFit (f : frame) (box : Z) (* estimator call, with the box size it reads *)
| Warning (box : Z).                  (* my_logger.warning, with the box size then in force *)

Record World : Type := {
  parameters : Settings;
  effects : list event
}.

Inductive exn : Type :=
| NotImplementedError
| ValueError
| IndexError
| FitError.

(** One row-indexed column table: every column is an array of floats. *)
Record Table : Type := {
  amplitude : list Q;
  x_c : list Q;
  y_c : list Q;
  fwhm : list Q;
  flux_sum : list Q;
  flux_integral : list Q;
  flux_err : list Q;
  Dx : list Q;
  Dy : list Q;
  Dy_disp_axis : list Q;
  Dy_fwhm_inf : list Q;
  Dy_fwhm_sup : list Q;
  lambdas : list Q
}.

(** [len(table)] *)
Definition rows (t : Table) : Z := Z.of_nat (length (amplitude t)).

Definition PSF : Type := string.

Record ChromaticPSF : Type := {
  psf : PSF;
  Nx : Z;
  Ny : Z;
  x0 : Q;
  y0 : Q;
  deg : Z;
  psf_saturation : Q;
  table : Table;
  poly_params : list Q;
  profile_params : list (list Q);
  opt_reg : Q
}.

(** The result object of [fit_chromatic_psf]. *)
Record FitWorkspace : Type := {
  amplitude_params : list Q;
  amplitude_params_err : list Q;
  amplitude_cov_matrix : list (list Q)
}.

(** One entry of the pull array: a finite quotient, or the non-finite result
    of dividing [num] by a zero error. *)
Inductive pull_entry : Type :=
| Finite (q : Q)
| ByZero (num : Q).

(** [spectrum.pixels] holds integers or floats depending on who wrote it. *)
Inductive pixel_seq : Type :=
| IntPixels (l : list Z)
| FloatPixels (l : list Q).

Record Spectrum : Type := {
  pixels : pixel_seq;
  spec_data : list Q;
  spec_err : list Q;
  cov_matrix : list (list Q);
  chromatic_psf : option ChromaticPSF;
  spec_lambdas : list Q;
  spectrogram : option ndarray;
  spectrogram_err : option ndarray;
  spectrogram_bgd : option ndarray;
  spectrogram_fit : option ndarray;
  spectrogram_residuals : option (list (list pull_entry));
  spectrogram_x0 : Q;
  spectrogram_y0 : Q;
  spectrogram_xmin : Z;
  spectrogram_xmax : Z;
  spectrogram_ymin : Z;
  spectrogram_ymax : Z;
  spectrogram_deg : Z;
  spectrogram_saturation : Q;
  header : gmap string Q
}.

(** A background surface, evaluated at column [x] and row [y]. *)
Definition BgdModel : Type := Z -> Z -> Q.

(** [bgd_model_func(np.arange(Nx), np.arange(Ny))] *)
Definition on_grid (f : BgdModel) (nx ny : Z) : ndarray :=
  {| shape := (ny, nx); pix := fun y x => f x y |}.

(** ** Collaborators

    Functions of the package that [extract_spectrum_from_image] calls and
    that live in other modules. The background estimator reads
    [parameters] (in particular [PIXWIDTH_BOXSIZE]) by itself, so it
    receives the settings in force at the call. The two solvers can fail:
    [None] stands for the exception they raise. *)
Class Collaborators : Type := {
  extract_spectrogram_background_sextractor :
    Settings -> ndarray -> ndarray -> Z * Z -> BgdModel;
  nanmean : list (list pull_entry) -> stat;
  nanstd : list (list pull_entry) -> stat;
  load_PSF : string -> PSF;
  fit_transverse_PSF1D_profile :
    ChromaticPSF -> ndarray -> ndarray -> Z -> Z * Z -> Z -> Z -> BgdModel ->
    Q -> bool -> option ChromaticPSF;
  fit_chromatic_psf :
    ChromaticPSF -> ndarray -> BgdModel -> ndarray -> string -> string -> bool ->
    option (ChromaticPSF * FitWorkspace);
  rotate_table : ChromaticPSF -> Q -> ChromaticPSF;
  get_distance_along_dispersion_axis : ChromaticPSF -> list Q;
  from_table_to_poly_params : ChromaticPSF -> list Q;
  from_poly_params_to_profile_params :
    ChromaticPSF -> list Q -> bool -> list (list Q);
  fill_table_with_profile_params :
    ChromaticPSF -> list (list Q) -> ChromaticPSF;
  evaluate : ChromaticPSF -> list Q -> string -> ndarray;
  interp : list Q -> list Q -> list Q -> list Q
}.

(** Modelled from the spec: the constructor of [ChromaticPSF]
    (spectractor/extractor/chromaticpsf.py is not part of the sources at
    hand). The table it creates has one row per along-dispersion pixel
    column, that is [Nx] rows; every column starts at zero. The fields the
    spec is silent about (polynomial vector, profile parameters,
    regularisation) start empty and are only read after a fit wrote them. *)
Definition ChromaticPSF_new (p : PSF) (nx ny : Z) (x y : Q) (d : Z) (sat : Q)
  : ChromaticPSF :=
  let col := repeat 0%Q (Z.to_nat nx) in
  {| psf := p; Nx := nx; Ny := ny; x0 := x; y0 := y; deg := d;
     psf_saturation := sat;
     table := {| amplitude := col; x_c := col; y_c := col; fwhm := col;
                 flux_sum := col; flux_integral := col; flux_err := col;
                 Dx := col; Dy := col; Dy_disp_axis := col;
                 Dy_fwhm_inf := col; Dy_fwhm_sup := col; lambdas := col |};
     poly_params := []; profile_params := []; opt_reg := 0%Q |}.

(** ** Effects: state, exceptions and fuel *)

Inductive outcome (A : Type) : Type :=
| Returns (a : A) (w : World)
| Raises (e : exn) (w : World)
| OutOfFuel (w : World).

Arguments Returns {A} a w.
Arguments Raises {A} e w.
Arguments OutOfFuel {A} w.

Definition M (A : Type) : Type := World -> outcome A.

Definition ret {A : Type} (a : A) : M A := fun w => Returns a w.

Definition bind {A B : Type} (m : M A) (k : A -> M B) : M B :=
  fun w =>
    match m w with
    | Returns a w' => k a w'
    | Raises e w' => Raises e w'
    | OutOfFuel w' => OutOfFuel w'
    end.

Notation "'let*' x ':=' m 'in' k" := (bind m (fun x => k))
  (at level 10, x name, m at level 100, k at level 200).
Notation "'let*' ' pat ':=' m 'in' k" :=
  (bind m (fun x => match x with pat => k end))
  (at level 10, pat pattern, m at level 100, k at level 200).
Notation "'do' m 'then' k" := (bind m (fun _ => k))
  (at level 10, m at level 100, k at level 200).

Definition raise {A : Type} (e : exn) : M A := fun w => Raises e w.

Definition out_of_fuel {A : Type} : M A := fun w => OutOfFuel w.

Definition get_parameters : M Settings := fun w => Returns (parameters w) w.

Definition put_parameters (p : Settings) : M unit :=
  fun w => Returns tt {| parameters := p; effects := effects w |}.

Definition emit (e : event) : M unit :=
  fun w => Returns tt {| parameters := parameters w; effects := effects w ++ [e] |}.

Definition of_option {A : Type} (e : exn) (o : option A) : M A :=
  match o with
  | Some a => ret a
  | None => raise e
  end.

(** Where a run stopped, and what it returned. *)
Definition final_world {A : Type} (r : outcome A) : World :=
  match r with
  | Returns _ w => w
  | Raises _ w => w
  | OutOfFuel w => w
  end.

Definition returned {A : Type} (r : outcome A) : option A :=
  match r with
  | Returns a _ => Some a
  | _ => None
  end.

(** ** Array helpers used by the driver *)

(** [a - b], element by element. *)
Definition array_sub (a b : ndarray) : ndarray :=
  {| shape := shape a; pix := fun y x => (pix a y x - pix b y x)%Q |}.

(** Row [y] of [(data - bgd) / err]. *)
Definition pull_row (data bgd err : ndarray) (y : Z) : list pull_entry :=
  map (fun x =>
         let num := (pix data y x - pix bgd y x)%Q in
         if Qeq_bool (pix err y x) 0 then ByZero num
         else Finite (num / pix err y x)%Q)
      (arange 0 (snd (shape data))).

(** An index into an axis of length [n]: negative indices count from the
    end, anything outside [-n, n) is an [IndexError]. *)
Definition axis_index (n i : Z) : option Z :=
  if (i <? - n) || (n <=? i) then None
  else Some (if i <? 0 then i + n else i).

(** [((data - bgd) / err)[index]] *)
Fixpoint pull_rows (data bgd err : ndarray) (index : list Z)
  : option (list (list pull_entry)) :=
  match index with
  | [] => Some []
  | i :: index' =>
      match axis_index (fst (shape data)) i, pull_rows data bgd err index' with
      | Some y, Some rest => Some (pull_row data bgd err y :: rest)
      | _, _ => None
      end
  end.

(** [l[n:]] on a one-dimensional array. *)
Definition from_index (l : list Q) (n : Z) : list Q :=
  skipn (Z.to_nat (slice_bound (Z.of_nat (length l)) n)) l.

(** Element-wise combination of two columns of one table. *)
Definition zip_with (f : Q -> Q -> Q) (a b : list Q) : list Q :=
  map (fun ab => f (fst ab) (snd ab)) (combine a b).

(** ** Table and PSF updates *)

(** Lines 242-246: the frame-relative offsets. *)
Definition set_offsets (t : Table) (dx dy ddisp dinf dsup : list Q) : Table :=
  {| amplitude := amplitude t; x_c := x_c t; y_c := y_c t; fwhm := fwhm t;
     flux_sum := flux_sum t; flux_integral := flux_integral t;
     flux_err := flux_err t;
     Dx := dx; Dy := dy; Dy_disp_axis := ddisp;
     Dy_fwhm_inf := dinf; Dy_fwhm_sup := dsup; lambdas := lambdas t |}.

(** Lines 276-277: the absolute centres. *)
Definition set_centers (t : Table) (xc yc : list Q) : Table :=
  {| amplitude := amplitude t; x_c := xc; y_c := yc; fwhm := fwhm t;
     flux_sum := flux_sum t; flux_integral := flux_integral t;
     flux_err := flux_err t;
     Dx := Dx t; Dy := Dy t; Dy_disp_axis := Dy_disp_axis t;
     Dy_fwhm_inf := Dy_fwhm_inf t; Dy_fwhm_sup := Dy_fwhm_sup t;
     lambdas := lambdas t |}.

(** Lines 303-306: the first guess of the two-dimensional pass. *)
Definition set_first_guess (t : Table) (dx amp ferr ddisp : list Q) : Table :=
  {| amplitude := amp; x_c := x_c t; y_c := y_c t; fwhm := fwhm t;
     flux_sum := flux_sum t; flux_integral := flux_integral t;
     flux_err := ferr;
     Dx := dx; Dy := Dy t; Dy_disp_axis := ddisp;
     Dy_fwhm_inf := Dy_fwhm_inf t; Dy_fwhm_sup := Dy_fwhm_sup t;
     lambdas := lambdas t |}.

(** Lines 310 and 330-332: [Dy] and the FWHM band around it. *)
Definition set_Dy (t : Table) (dy : list Q) : Table :=
  set_offsets t (Dx t) dy (Dy_disp_axis t) (Dy_fwhm_inf t) (Dy_fwhm_sup t).

Definition set_Dy_band (t : Table) (dy dinf dsup : list Q) : Table :=
  set_offsets t (Dx t) dy (Dy_disp_axis t) dinf dsup.

(** Line 340. *)
Definition set_lambdas (t : Table) (l : list Q) : Table :=
  {| amplitude := amplitude t; x_c := x_c t; y_c := y_c t; fwhm := fwhm t;
     flux_sum := flux_sum t; flux_integral := flux_integral t;
     flux_err := flux_err t;
     Dx := Dx t; Dy := Dy t; Dy_disp_axis := Dy_disp_axis t;
     Dy_fwhm_inf := Dy_fwhm_inf t; Dy_fwhm_sup := Dy_fwhm_sup t;
     lambdas := l |}.

Definition with_table (s : ChromaticPSF) (t : Table) : ChromaticPSF :=
  {| psf := psf s; Nx := Nx s; Ny := Ny s; x0 := x0 s; y0 := y0 s;
     deg := deg s; psf_saturation := psf_saturation s; table := t;
     poly_params := poly_params s; profile_params := profile_params s;
     opt_reg := opt_reg s |}.

(** [s.x0 = x; s.y0 = y] *)
Definition with_origin (s : ChromaticPSF) (x y : Q) : ChromaticPSF :=
  {| psf := psf s; Nx := Nx s; Ny := Ny s; x0 := x; y0 := y;
     deg := deg s; psf_saturation := psf_saturation s; table := table s;
     poly_params := poly_params s; profile_params := profile_params s;
     opt_reg := opt_reg s |}.

Definition with_poly_params (s : ChromaticPSF) (pp : list Q) : ChromaticPSF :=
  {| psf := psf s; Nx := Nx s; Ny := Ny s; x0 := x0 s; y0 := y0 s;
     deg := deg s; psf_saturation := psf_saturation s; table := table s;
     poly_params := pp; profile_params := profile_params s;
     opt_reg := opt_reg s |}.

Definition with_profile_params (s : ChromaticPSF) (pp : list (list Q))
  : ChromaticPSF :=
  {| psf := psf s; Nx := Nx s; Ny := Ny s; x0 := x0 s; y0 := y0 s;
     deg := deg s; psf_saturation := psf_saturation s; table := table s;
     poly_params := poly_params s; profile_params := pp;
     opt_reg := opt_reg s |}.

(** Assigning an array to a table column: the lengths must agree, otherwise
    the table raises [ValueError]. *)
Definition column (t : Table) (values : list Q) : M (list Q) :=
  if Z.of_nat (length values) =? rows t then ret values else raise ValueError.

(** Assigning a scalar to a table column broadcasts it. *)
Definition broadcast (t : Table) (v : Q) : list Q :=
  repeat v (length (amplitude t)).

(** ** The driver [extract_spectrum_from_image] *)

(** The local variables that describe one crop: the cropped arrays and the
    bounds they were cut at. *)
Record Window : Type := {
  w_data : ndarray;
  w_err : ndarray;
  xmin : Z;
  xmax : Z;
  ymin : Z;
  ymax : Z
}.

(** The locals that survive the derotation (lines 241-277). *)
Record Derotated : Type := {
  d_psf : ChromaticPSF;          (* s *)
  d_window : Window;             (* bounds on the unrotated frame, uncropped arrays *)
  d_target : Q * Q;              (* target_pixcoords_spectrogram *)
  d_Dx_rot : list Q;
  d_flux : list Q;
  d_flux_err : list Q
}.

(** The locals that the two-dimensional pass may overwrite (lines 293-335). *)
Record Deconvolved : Type := {
  f_psf : ChromaticPSF;          (* s *)
  f_pixels : pixel_seq;          (* spectrum.pixels *)
  f_data : list Q;               (* spectrum.data *)
  f_err : list Q;                (* spectrum.err *)
  f_cov : list (list Q);         (* spectrum.cov_matrix *)
  f_fit : option ndarray;        (* spectrum.spectrogram_fit *)
  f_residuals : option (list (list pull_entry));
  f_opt_reg : Q                  (* opt_reg *)
}.

Section Driver.

Context {C : Collaborators}.

(** Lines 159-160. *)
Definition check_mode : M unit :=
  let* p := get_parameters in
  if negb (String.eqb (PSF_EXTRACTION_MODE p) "PSF_1D")
     && negb (String.eqb (PSF_EXTRACTION_MODE p) "PSF_2D")
  then raise NotImplementedError
  else ret tt.

(** Lines 162-163. *)
Definition default_ws (signal_width : Z) (ws : option (Z * Z)) : Z * Z :=
  match ws with
  | None => (signal_width + 20, signal_width + 30)
  | Some w => w
  end.

(** [image.disperser.grating_pixel_to_lambda(offsets, x0=image.target_pixcoords)] *)
Definition to_lambdas (image : Image) (offsets : list Q) : list Q :=
  map (fun d => grating_pixel_to_lambda image d (target_pixcoords image)) offsets.

(** Lines 169 and 180: the wavelengths mapped to the columns of the rotated
    frame, up to the right edge. *)
Definition rotated_lambdas (image : Image) (right_edge : Z) : list Q :=
  to_lambdas image
    (map (fun i => (inject_Z i - fst (target_pixcoords_rotated image))%Q)
         (arange 0 (snd (shape (upto_right_edge (data_rotated image)
                                   right_edge))))).

(** Lines 168-188: the crop of the rotated frame. *)
Definition rotated_window (image : Image) (ws : Z * Z) (right_edge : Z)
  : M Window :=
  do emit (ReadArray "data_rotated") then
  let data := upto_right_edge (data_rotated image) right_edge in
  do emit (ReadArray "stat_errors_rotated") then
  let err := upto_right_edge (stat_errors_rotated image) right_edge in
  let Ny := fst (shape data) in
  let Nx := snd (shape data) in
  let y0 := int_of_float (snd (target_pixcoords_rotated image)) in
  let ymax := Z.min Ny (y0 + snd ws) in
  let ymin := Z.max 0 (y0 - snd ws) in
  let* p := get_parameters in
  let lambdas := rotated_lambdas image right_edge in
  let* xmin := of_option ValueError
                 (argmin (abs_dist lambdas (LAMBDA_MIN p - 0)%Q)) in
  let* imax := of_option ValueError
                 (argmin (abs_dist lambdas (LAMBDA_MAX p + 0)%Q)) in
  let xmax := Z.min right_edge imax in
  ret {| w_data := crop data ymin ymax xmin xmax;
         w_err := crop err ymin ymax xmin xmax;
         xmin := xmin; xmax := xmax; ymin := ymin; ymax := ymax |}.

(** One call of the estimator; it reads [parameters] on its own. *)
Definition background_fit (f : frame) (data err : ndarray) (ws : Z * Z)
  : M BgdModel :=
  let* p := get_parameters in
  do emit (BackgroundFit f (PIXWIDTH_BOXSIZE p)) then
  ret (extract_spectrogram_background_sextractor p data err ws).

(** Line 196. *)
Definition bgd_index (Ny : Z) (ws : Z * Z) : list Z :=
  arange 0 (Ny / 2 - fst ws) ++ arange (Ny / 2 + fst ws) Ny.

(** Lines 198 and 208. *)
Definition bgd_residuals (data err : ndarray) (model : BgdModel)
  (index : list Z) : M (list (list pull_entry)) :=
  of_option IndexError
    (pull_rows data (on_grid model (snd (shape data)) (fst (shape data)))
               err index).

(** The pull that the estimator earns under the settings [p]: lines 207-208
    in one expression. *)
Definition refit_pull (data err : ndarray) (ws : Z * Z) (index : list Z)
  (p : Settings) : option (list (list pull_entry)) :=
  pull_rows data
    (on_grid (extract_spectrogram_background_sextractor p data err ws)
       (snd (shape data)) (fst (shape data)))
    err index.

(** The acceptance criterion of line 201, negated: the pull is rejected. *)
Definition pull_rejected (res : list (list pull_entry)) : bool :=
  abs_gt (nanmean res) 1 || stat_gt (nanstd res) 2.

(** Lines 201-208. Each iteration consumes one unit of fuel; a run that is
    cut for lack of fuel reports the world it had reached. *)
Fixpoint refine_background (fuel : nat) (data err : ndarray) (ws : Z * Z)
  (index : list Z) (model : BgdModel) (res : list (list pull_entry))
  : M (BgdModel * list (list pull_entry)) :=
  let* p := get_parameters in
  if pull_rejected res && (5 <=? PIXWIDTH_BOXSIZE p) then
    match fuel with
    | O => out_of_fuel
    | S fuel' =>
        do put_parameters
             (set_boxsize (Z.max 5 (PIXWIDTH_BOXSIZE p / 2)) p) then
        let* p' := get_parameters in
        do emit (Warning (PIXWIDTH_BOXSIZE p')) then
        let* model' := background_fit rotated data err ws in
        let* res' := bgd_residuals data err model' index in
        refine_background fuel' data err ws index model' res'
    end
  else ret (model, res).

(** Lines 196-208: the background of the rotated crop. *)
Definition rotated_background (fuel : nat) (win : Window) (ws : Z * Z)
  : M BgdModel :=
  let data := w_data win in
  let err := w_err win in
  let index := bgd_index (fst (shape data)) ws in
  let* model := background_fit rotated data err ws in
  let* res := bgd_residuals data err model index in
  let* p := get_parameters in
  do emit (Warning (PIXWIDTH_BOXSIZE p)) then
  let* '(model', _) := refine_background fuel data err ws index model res in
  ret model'.

(** Lines 213-239: transverse fit and one-dimensional global fit. *)
Definition fit_1d (image : Image) (win : Window) (model : BgdModel)
  (signal_width : Z) (ws : Z * Z) : M (PSF * ChromaticPSF * FitWorkspace) :=
  let data := w_data win in
  let err := w_err win in
  let target_pixcoords_spectrogram :=
    ((fst (target_pixcoords_rotated image) - inject_Z (xmin win))%Q,
     (snd (target_pixcoords_rotated image) - inject_Z (ymin win))%Q) in
  let* p := get_parameters in
  let psf := load_PSF (PSF_TYPE p) in
  let s := ChromaticPSF_new psf (snd (shape data)) (fst (shape data))
             (fst target_pixcoords_spectrogram)
             (snd target_pixcoords_spectrogram)
             (PSF_POLY_ORDER p) (saturation image) in
  let* s := of_option FitError (fit_transverse_PSF1D_profile s data err signal_width ws
                      10 5 model (saturation image) false) in
  let* '(s, w) :=
    of_option FitError (fit_chromatic_psf s data model err "noprior" "1D" (VERBOSE p)) in
  ret (psf, s, w).

(** Line 241. *)
Definition offsets_from_target (image : Image) (win : Window) : list Q :=
  map (fun i => (inject_Z i - fst (target_pixcoords_rotated image))%Q)
      (arange (xmin win) (xmax win)).

(** Lines 241-251: offsets on the rotated frame, then the table is turned
    back by the rotation angle. *)
Definition derotate_table (image : Image) (win : Window) (s : ChromaticPSF)
  : M ChromaticPSF :=
  let Dx_rot := offsets_from_target image win in
  let t := table s in
  let* dx := column t Dx_rot in
  let dy := map (fun y => (y - (snd (target_pixcoords_rotated image)
                                - inject_Z (ymin win)))%Q) (y_c t) in
  let s := with_table s
             (set_offsets t dx dy (broadcast t 0)
                (zip_with (fun d w => (d - (1 # 2) * w)%Q) dy (fwhm t))
                (zip_with (fun d w => (d + (1 # 2) * w)%Q) dy (fwhm t))) in
  ret (rotate_table s (- rotation_angle image)%Q).

(** Lines 255-268: the bounds of the crop on the unrotated frame, read off
    the derotated table. The arrays of the result are not cropped yet. *)
Definition unrotated_bounds (image : Image) (s : ChromaticPSF) (ws : Z * Z)
  (right_edge : Z) : M Window :=
  do emit (ReadArray "data") then
  let data := upto_right_edge (data image) right_edge in
  do emit (ReadArray "stat_errors") then
  let err := upto_right_edge (stat_errors image) right_edge in
  let Ny := fst (shape data) in
  let x0 := int_of_float (fst (target_pixcoords image)) in
  let y0 := int_of_float (snd (target_pixcoords image)) in
  let* dmax := of_option ValueError (array_max (Dy_disp_axis (table s))) in
  let ymax := Z.min Ny (y0 + int_of_float dmax + snd ws + 1) in
  let* dmin := of_option ValueError (array_min (Dy_disp_axis (table s))) in
  let ymin := Z.max 0 (y0 + int_of_float dmin - snd ws) in
  let distance := get_distance_along_dispersion_axis s in
  let lambdas := to_lambdas image distance in
  let* p := get_parameters in
  let* lambda_min_index :=
    of_option ValueError (argmin (abs_dist lambdas (LAMBDA_MIN p - 0)%Q)) in
  let* lambda_max_index :=
    of_option ValueError (argmin (abs_dist lambdas (LAMBDA_MAX p + 0)%Q)) in
  let* dx_min := of_option IndexError (item (Dx (table s)) lambda_min_index) in
  let xmin := int_of_float (dx_min + inject_Z x0)%Q in
  let* dx_max := of_option IndexError (item (Dx (table s)) lambda_max_index) in
  let xmax := Z.min right_edge (int_of_float (dx_max + inject_Z x0)%Q + 1) in
  ret {| w_data := data; w_err := err;
         xmin := xmin; xmax := xmax; ymin := ymin; ymax := ymax |}.

(** Line 271: the target in the coordinates of the crop. *)
Definition target_in_crop (image : Image) (bounds : Window) : Q * Q :=
  ((fst (target_pixcoords image) - inject_Z (xmin bounds))%Q,
   (snd (target_pixcoords image) - inject_Z (ymin bounds))%Q).

(** Lines 271-277: origin and centres of the table on the unrotated crop. *)
Definition recenter (image : Image) (bounds : Window) (s : ChromaticPSF)
  : ChromaticPSF :=
  let target_pixcoords_spectrogram := target_in_crop image bounds in
  let s := with_origin s (fst target_pixcoords_spectrogram)
             (snd target_pixcoords_spectrogram) in
  let yc := map (fun d => (d + snd target_pixcoords_spectrogram)%Q)
              (Dy (table s)) in
  let s := with_table s (set_centers (table s) (x_c (table s)) yc) in
  let xc := map (fun d => (d + fst target_pixcoords_spectrogram)%Q)
              (Dx (table s)) in
  with_table s (set_centers (table s) xc (y_c (table s))).

(** Lines 241-277 in sequence. *)
Definition derotate (image : Image) (win : Window) (s : ChromaticPSF)
  (ws : Z * Z) (right_edge : Z) : M Derotated :=
  let* s := derotate_table image win s in
  let flux := amplitude (table s) in
  let flux_err := flux_err (table s) in
  let* bounds := unrotated_bounds image s ws right_edge in
  ret {| d_psf := recenter image bounds s;
         d_window := bounds;
         d_target := target_in_crop image bounds;
         d_Dx_rot := offsets_from_target image win;
         d_flux := flux; d_flux_err := flux_err |}.

(** Lines 281-284: the crop of the unrotated frame. *)
Definition unrotated_window (d : Derotated) : Window :=
  let b := d_window d in
  {| w_data := crop (w_data b) (ymin b) (ymax b) (xmin b) (xmax b);
     w_err := crop (w_err b) (ymin b) (ymax b) (xmin b) (xmax b);
     xmin := xmin b; xmax := xmax b; ymin := ymin b; ymax := ymax b |}.

(** Lines 287-288: the background of the unrotated crop. *)
Definition unrotated_background (win : Window) (ws : Z * Z) : M BgdModel :=
  background_fit unrotated (w_data win) (w_err win) ws.

(** Lines 293-335: the optional two-dimensional pass. [w1] and [pixels1]
    are what the one-dimensional pass left in [spectrum]. *)
Definition deconvolve_2d (psf : PSF) (image : Image) (spectrum : Spectrum)
  (d : Derotated) (win : Window) (model : BgdModel) (w1 : FitWorkspace)
  (pixels1 : pixel_seq) : M Deconvolved :=
  let data := w_data win in
  let err := w_err win in
  let ny := fst (shape data) in
  let nx := snd (shape data) in
  let target_pixcoords_spectrogram := d_target d in
  let s := d_psf d in
  let* p := get_parameters in
  if String.eqb (PSF_EXTRACTION_MODE p) "PSF_2D" then
    let psf_poly_priors := from_index (from_table_to_poly_params s) (Nx s) in
    let Dy_disp_axis := Dy_disp_axis (table s) in
    let s := ChromaticPSF_new psf nx ny
               (fst target_pixcoords_spectrogram)
               (snd target_pixcoords_spectrogram)
               (PSF_POLY_ORDER p) (saturation image) in
    let t := table s in
    let* dx := column t
                 (map (fun i => (inject_Z i - fst (target_pixcoords image))%Q)
                      (arange (xmin win) (xmax win))) in
    let* amp := column t (interp dx (d_Dx_rot d) (d_flux d)) in
    let* ferr := column t (interp dx (d_Dx_rot d) (d_flux_err d)) in
    let* ddisp := column t (interp dx (d_Dx_rot d) Dy_disp_axis) in
    let s := with_table s (set_first_guess t dx amp ferr ddisp) in
    let s := with_poly_params s (amplitude (table s) ++ psf_poly_priors) in
    let s := with_profile_params s
               (from_poly_params_to_profile_params s (poly_params s) true) in
    let s := fill_table_with_profile_params s (profile_params s) in
    let s := with_table s
               (set_Dy (table s)
                  (map (fun y => (y - snd target_pixcoords_spectrogram)%Q)
                       (y_c (table s)))) in
    let* '(s, w) :=
      of_option FitError (fit_chromatic_psf s data model err "psf1d" "2D" (VERBOSE p)) in
    let fit := evaluate s (poly_params s) "2D" in
    let residuals :=
      map (pull_row (array_sub data fit) (on_grid model nx ny) err)
          (arange 0 ny) in
    let pixels := FloatPixels (Dx (table s)) in
    let dy := map (fun y => (y - snd target_pixcoords_spectrogram)%Q)
                (y_c (table s)) in
    let s := with_table s
               (set_Dy_band (table s) dy
                  (zip_with (fun d w => (d - (1 # 2) * w)%Q) dy (fwhm (table s)))
                  (zip_with (fun d w => (d + (1 # 2) * w)%Q) dy (fwhm (table s)))) in
    ret {| f_psf := s; f_pixels := pixels;
           f_data := amplitude_params w; f_err := amplitude_params_err w;
           f_cov := amplitude_cov_matrix w;
           f_fit := Some fit; f_residuals := Some residuals;
           f_opt_reg := opt_reg s |}
  else
    ret {| f_psf := s; f_pixels := pixels1;
           f_data := amplitude_params w1; f_err := amplitude_params_err w1;
           f_cov := amplitude_cov_matrix w1;
           f_fit := spectrogram_fit spectrum;
           f_residuals := spectrogram_residuals spectrum;
           f_opt_reg := (-1)%Q |}.

(** Lines 335-358: header, first guess of the wavelengths, geometry. The
    object [s] is the one [spectrum.chromatic_psf] refers to, so the column
    written on line 340 is visible through the spectrum. *)
Definition finalize (image : Image) (spectrum : Spectrum) (d : Derotated)
  (win : Window) (bgd : ndarray) (f : Deconvolved) : M Spectrum :=
  let s := f_psf f in
  let hdr := <["PSF_REG" := f_opt_reg f]> (header spectrum) in
  let first_guess_lambdas :=
    to_lambdas image (get_distance_along_dispersion_axis s) in
  let* l := column (table s) first_guess_lambdas in
  let s := with_table s (set_lambdas (table s) l) in
  ret {| pixels := f_pixels f;
         spec_data := f_data f;
         spec_err := f_err f;
         cov_matrix := f_cov f;
         chromatic_psf := Some s;
         spec_lambdas := first_guess_lambdas;
         spectrogram := Some (w_data win);
         spectrogram_err := Some (w_err win);
         spectrogram_bgd := Some bgd;
         spectrogram_fit := f_fit f;
         spectrogram_residuals := f_residuals f;
         spectrogram_x0 := fst (d_target d);
         spectrogram_y0 := snd (d_target d);
         spectrogram_xmin := xmin win;
         spectrogram_xmax := xmax win;
         spectrogram_ymin := ymin win;
         spectrogram_ymax := ymax win;
         spectrogram_deg := deg s;
         spectrogram_saturation := psf_saturation s;
         header := hdr |}.

(** The function, lines 129-415 without the plots. [fuel] bounds the number
    of iterations of the refinement loop that the model follows. *)
Definition extract_spectrum_from_image (fuel : nat) (image : Image)
  (spectrum : Spectrum) (signal_width : Z) (ws : option (Z * Z))
  (right_edge : Z) : M Spectrum :=
  do check_mode then
  let ws := default_ws signal_width ws in
  let* win := rotated_window image ws right_edge in
  let* model := rotated_background fuel win ws in
  let* '(psf, s, w) := fit_1d image win model signal_width ws in
  let pixels := IntPixels (arange (xmin win) (xmax win)) in
  let* d := derotate image win s ws right_edge in
  let uwin := unrotated_window d in
  let* umodel := unrotated_background uwin ws in
  let bgd := on_grid umodel (snd (shape (w_data uwin)))
               (fst (shape (w_data uwin))) in
  let* f := deconvolve_2d psf image spectrum d uwin umodel w pixels in
  finalize image spectrum d uwin bgd f.

End Driver.

(** ** Vocabulary of the statements *)

Definition boxsize (w : World) : Z := PIXWIDTH_BOXSIZE (parameters w).

Definition frame_eqb (f g : frame) : bool :=
  match f, g with
  | rotated, rotated | unrotated, unrotated => true
  | _, _ => false
  end.

(** The box sizes of the background fits logged for frame [f], in order. *)
Definition fit_boxes (f : frame) (log : list event) : list Z :=
  flat_map (fun e => match e with
                     | BackgroundFit g b => if frame_eqb f g then [b] else []
                     | _ => []
                     end) log.

(** Starting from [b], each size is the previous one halved with floor 5. *)
Fixpoint halving_chain (b : Z) (l : list Z) : Prop :=
  match l with
  | [] => True
  | x :: l' => x = Z.max 5 (b / 2) /\ halving_chain x l'
  end.

(** Starting from [b], the sizes never grow. *)
Fixpoint non_increasing (b : Z) (l : list Z) : Prop :=
  match l with
  | [] => True
  | x :: l' => x <= b /\ non_increasing x l'
  end.

(** Index [i] of [lambdas] holds a wavelength that no other entry beats in
    closeness to [bound]. *)
Definition closest_to (lambdas : list Q) (bound : Q) (i : Z) : Prop :=
  0 <= i /\
  exists l, nth_error lambdas (Z.to_nat i) = Some l /\
            forall l', In l' lambdas ->
                       (Qabs (l - bound) <= Qabs (l' - bound))%Q.


(** Every row of the table has its centre at the target plus its offset. *)
Definition centred_on (target : Q * Q) (t : Table) : Prop :=
  length (x_c t) = length (Dx t) /\
  length (y_c t) = length (Dy t) /\
  forall i : nat,
    (forall dx, nth_error (Dx t) i = Some dx ->
                nth_error (x_c t) i = Some (dx + fst target)%Q) /\
    (forall dy, nth_error (Dy t) i = Some dy ->
                nth_error (y_c t) i = Some (dy + snd target)%Q).

(** A computation that never raises [NotImplementedError]. *)
Definition never_unsupported {A : Type} (m : M A) : Prop :=
  forall w e w', m w = Raises e w' -> e <> NotImplementedError.

(** Two settings that agree on everything but the box size. *)
Definition same_but_boxsize (p q : Settings) : Prop :=
  q = set_boxsize (PIXWIDTH_BOXSIZE q) p.

(** The world after lines 202-207: the setting is halved, the warning is
    logged and the estimator has been called again. *)
Definition after_refit (w : World) : World :=
  let b := Z.max 5 (boxsize w / 2) in
  {| parameters := set_boxsize b (parameters w);
     effects := (effects w ++ [Warning b]) ++ [BackgroundFit rotated b] |}.

(** ** Test doubles

    A small, fully computable implementation of the collaborators, used to
    run the driver on concrete images. The estimator returns a flat
    background: the level of the first pixel of the crop, lowered by a
    [bias] that may depend on the box size in force and on that level.
    The reductions are the plain mean and (to three decimals) standard
    deviation of the finite entries. The solvers leave the table as it is;
    the two-dimensional solver reports the regularisation [reg]. *)
Module Doubles.

Definition finite_entries (res : list (list pull_entry)) : list Q :=
  flat_map (fun row => flat_map (fun e => match e with
                                          | Finite q => [q]
                                          | ByZero _ => []
                                          end) row) res.

Definition Qsum (l : list Q) : Q := fold_right Qplus 0%Q l.

Definition mean (l : list Q) : stat :=
  match l with
  | [] => NaN
  | _ => Fin (Qred (Qsum l / inject_Z (Z.of_nat (length l))))
  end.

(** Square root to three decimals. *)
Definition Qsqrt3 (v : Q) : Q :=
  Qred (Z.sqrt (Qnum v * 1000000 / Zpos (Qden v)) # 1000).

Definition std (l : list Q) : stat :=
  match mean l with
  | Fin m =>
      match mean (map (fun x => ((x - m) * (x - m))%Q) l) with
      | Fin v => Fin (Qsqrt3 v)
      | NaN => NaN
      end
  | NaN => NaN
  end.

Definition with_opt_reg (s : ChromaticPSF) (r : Q) : ChromaticPSF :=
  {| psf := psf s; Nx := Nx s; Ny := Ny s; x0 := x0 s; y0 := y0 s;
     deg := deg s; psf_saturation := psf_saturation s; table := table s;
     poly_params := poly_params s; profile_params := profile_params s;
     opt_reg := r |}.

Definition collaborators (bias : Z -> Q -> Q) (reg : Q) : Collaborators :=
  {| extract_spectrogram_background_sextractor := fun p data err ws =>
       let level := pix data 0 0 in
       fun _ _ => (level - bias (PIXWIDTH_BOXSIZE p) level)%Q;
     nanmean := fun res => mean (finite_entries res);
     nanstd := fun res => std (finite_entries res);
     load_PSF := fun name => name;
     fit_transverse_PSF1D_profile := fun s _ _ _ _ _ _ _ _ _ => Some s;
     fit_chromatic_psf := fun s _ _ _ _ mode _ =>
       Some (if String.eqb mode "2D" then with_opt_reg s reg else s,
            {| amplitude_params := amplitude (table s);
               amplitude_params_err := flux_err (table s);
               amplitude_cov_matrix := [] |});
     rotate_table := fun s _ => s;
     get_distance_along_dispersion_axis := fun s => Dx (table s);
     from_table_to_poly_params := fun s => amplitude (table s);
     from_poly_params_to_profile_params := fun _ _ _ => [];
     fill_table_with_profile_params := fun s _ => s;
     evaluate := fun s _ _ => {| shape := (Ny s, Nx s); pix := fun _ _ => 0%Q |};
     interp := fun x _ _ => map (fun _ => 0%Q) x |}.

(** A flat array. *)
Definition flat (ny nx : Z) (v : Q) : ndarray :=
  {| shape := (ny, nx); pix := fun _ _ => v |}.

(** A 12 x 10 image without rotation: level 100 on the rotated frame and
    [raw] on the unrotated one, unit errors, target at column [tx] and row
    6, and a linear dispersion of 100 nm per pixel. *)
Definition image (raw tx : Q) : Image :=
  {| data := flat 12 10 raw;
     stat_errors := flat 12 10 1;
     data_rotated := flat 12 10 100;
     stat_errors_rotated := flat 12 10 1;
     target_pixcoords := (tx, 6%Q);
     target_pixcoords_rotated := (tx, 6%Q);
     rotation_angle := 0%Q;
     saturation := 60000%Q;
     units := "ADU/s";
     grating_pixel_to_lambda := fun d _ => (100 * d)%Q |}.

Definition settings (mode : string) (box : Z) (lmin lmax : Q) : Settings :=
  {| PSF_EXTRACTION_MODE := mode;
     PIXWIDTH_BOXSIZE := box;
     LAMBDA_MIN := lmin;
     LAMBDA_MAX := lmax;
     PSF_POLY_ORDER := 2;
     PSF_TYPE := "Moffat";
     VERBOSE := false |}.

Definition world (mode : string) (box : Z) (lmin lmax : Q) : World :=
  {| parameters := settings mode box lmin lmax; effects := [] |}.

Definition blank : Spectrum :=
  {| pixels := IntPixels [];
     spec_data := []; spec_err := []; cov_matrix := [];
     chromatic_psf := None; spec_lambdas := [];
     spectrogram := None; spectrogram_err := None; spectrogram_bgd := None;
     spectrogram_fit := None; spectrogram_residuals := None;
     spectrogram_x0 := 0%Q; spectrogram_y0 := 0%Q;
     spectrogram_xmin := 0; spectrogram_xmax := 0;
     spectrogram_ymin := 0; spectrogram_ymax := 0;
     spectrogram_deg := 0; spectrogram_saturation := 0%Q;
     header := ∅ |}.

(** No bias: every fit is accepted. *)
Definition unbiased : Z -> Q -> Q := fun _ _ => 0%Q.

(** The fit is three error bars off whatever the box size. *)
Definition always_off : Z -> Q -> Q := fun _ _ => 3%Q.

(** The fit is off for boxes wider than 10 pixels only. *)
Definition off_when_wide : Z -> Q -> Q :=
  fun box _ => if 10 <? box then 3%Q else 0%Q.

(** The fit is off on crops of level 200 only. *)
Definition off_at_200 : Z -> Q -> Q :=
  fun _ level => if Qeq_bool level 200 then 3%Q else 0%Q.

End Doubles.

(** ** The caller [Spectractor]: names of the output files

    Lines 85-90 and 117 derive every output path from the name of the input
    file with [str.split], [str.replace] and [os.path.join]. *)


Local Open Scope string_scope.

Definition slash : Ascii.ascii := "/"%char.

(** What follows the last ['/'] of [s], when there is one. *)
Fixpoint after_last_slash (s : string) : option string :=
  match s with
  | EmptyString => None
  | String c s' =>
      match after_last_slash s' with
      | Some r => Some r
      | None => if Ascii.eqb c slash then Some s' else None
      end
  end.

(** [s.split('/')[-1]] *)
Definition last_component (s : string) : string :=
  match after_last_slash s with
  | Some r => r
  | None => s
  end.

(** [str.replace] for a non-empty [old], scanning from the left: [skip]
    counts the characters of a match that are still to be passed over. *)
Fixpoint replace_from (old new : string) (skip : nat) (s : string) : string :=
  match s with
  | EmptyString => EmptyString
  | String c s' =>
      match skip with
      | S k => replace_from old new k s'
      | O =>
          if String.prefix old s
          then new ++ replace_from old new (String.length old - 1) s'
          else String c (replace_from old new 0 s')
      end
  end.

(** [s.replace(old, new)]: every non-overlapping occurrence of [old], from
    the left; an empty [old] matches before every character and at the end. *)
Definition str_replace (old new s : string) : string :=
  match old with
  | EmptyString =>
      new ++ (fix between (s : string) : string :=
                match s with
                | EmptyString => EmptyString
                | String c s' => String c (new ++ between s')
                end) s
  | String _ _ => replace_from old new 0 s
  end.

(** [s.endswith('/')] *)
Fixpoint ends_with_slash (s : string) : bool :=
  match s with
  | EmptyString => false
  | String c EmptyString => Ascii.eqb c slash
  | String _ s' => ends_with_slash s'
  end.

(** [os.path.join(a, b)] on a POSIX system. *)
Definition path_join (a b : string) : string :=
  if String.prefix "/" b then b
  else if (String.length a =? 0)%nat || ends_with_slash a then a ++ b
  else a ++ "/" ++ b.

(** Lines 85-88. *)
Definition output_filename (file_name output_directory : string) : string :=
  let name := last_component file_name in
  let name := str_replace ".fits" "_spectrum.fits" name in
  let name := str_replace ".fz" "_spectrum.fits" name in
  path_join output_directory name.

(** Line 89. *)
Definition output_filename_spectrogram (file_name output_directory : string)
  : string :=
  str_replace "spectrum" "spectrogram"
    (output_filename file_name output_directory).

(** Line 90. *)
Definition output_filename_psf (file_name output_directory : string)
  : string :=
  str_replace "spectrum.fits" "table.csv"
    (output_filename file_name output_directory).

(** Line 117. *)
Definition lines_filename (file_name output_directory : string) : string :=
  str_replace "_spectrum.fits" "_lines.csv"
    (output_filename file_name output_directory).

(** No character of [s] is [c]. *)
Fixpoint free_of (c : Ascii.ascii) (s : string) : bool :=
  match s with
  | EmptyString => true
  | String d s' => negb (Ascii.eqb d c) && free_of c s'
  end.

(** [old in s] *)
Fixpoint occurs (old s : string) : bool :=
  String.prefix old s ||
  match s with
  | EmptyString => false
  | String _ s' => occurs old s'
  end.

Local Close Scope string_scope.

(** ** Vocabulary of the properties of a whole run *)

(** What a run may do to the settings: nothing but lower the box size. *)
Definition settings_kept (w w' : World) : Prop :=
  same_but_boxsize (parameters w) (parameters w') /\
  boxsize w' <= boxsize w.

(** A computation that, however it ends, keeps the settings in that sense. *)
Definition keeps_settings {A : Type} (m : M A) : Prop :=
  forall w, settings_kept w (final_world (m w)).

(** The attributes of the image that a run copied, in program order. *)
Definition array_reads (log : list event) : list string :=
  flat_map (fun e => match e with
                     | ReadArray attribute => [attribute]
                     | _ => []
                     end) log.


(** * Properties *)

(** ** Small checks of the array helpers *)

Example arange_2_5 : arange 2 5 = [2; 3; 4].
Proof. reflexivity. Qed.

Example arange_empty : arange 5 2 = [].
Proof. reflexivity. Qed.

Example argmin_first_of_ties : argmin [3#1; 1#1; 2#1; 1#1]%Q = Some 1.
Proof. reflexivity. Qed.

Example int_of_float_neg : int_of_float (-7 # 2) = -3.
Proof. reflexivity. Qed.

Example slice_inverted : slice_range 10 7 4 = (7, 0).
Proof. reflexivity. Qed.

Example slice_from_the_end : slice_range 10 2 (-1) = (2, 7).
Proof. reflexivity. Qed.

Example bgd_index_8_rows : bgd_index 8 (2, 4) = [0; 1; 6; 7].
Proof. reflexivity. Qed.

(** ** Reasoning about runs *)

Lemma bind_Returns {A B : Type} (m : M A) (k : A -> M B) w b w' :
  bind m k w = Returns b w' ->
  exists a w1, m w = Returns a w1 /\ k a w1 = Returns b w'.
Proof.
  unfold bind. destruct (m w) as [a w1|e w1|w1]; intros H; try discriminate.
  exists a, w1. split; [reflexivity | exact H].
Qed.

Lemma of_option_Returns {A : Type} e (o : option A) w a w' :
  of_option e o w = Returns a w' -> o = Some a /\ w' = w.
Proof.
  destruct o; cbn; intros H; inversion H; subst; auto.
Qed.

Lemma column_Returns t v w a w' :
  column t v w = Returns a w' ->
  a = v /\ Z.of_nat (length v) = rows t /\ w' = w.
Proof.
  unfold column. destruct (Z.eqb_spec (Z.of_nat (length v)) (rows t));
    cbn; intros H; inversion H; subst; auto.
Qed.

(** One step of inversion of a returning run. *)
Tactic Notation "inv_bind" hyp(H) "as" ident(a) ident(w1) ident(E) :=
  apply bind_Returns in H; destruct H as (a & w1 & E & H);
  cbv beta zeta in H.

Ltac inv_prim E :=
  first
    [ apply of_option_Returns in E; destruct E as [E ->]
    | apply column_Returns in E; destruct E as (-> & E & ->)
    | (cbn in E; inversion E; subst; clear E) ].

Lemma never_bind {A B : Type} (m : M A) (k : A -> M B) :
  never_unsupported m -> (forall a, never_unsupported (k a)) ->
  never_unsupported (bind m k).
Proof.
  intros Hm Hk w e w'. unfold bind.
  destruct (m w) as [a w1|e1 w1|w1] eqn:E; intros H.
  - eapply Hk; eassumption.
  - inversion H; subst. eapply Hm; eassumption.
  - discriminate.
Qed.

Lemma never_ret {A : Type} (a : A) : never_unsupported (ret a).
Proof. intros w e w' H; discriminate. Qed.

Lemma never_emit e : never_unsupported (emit e).
Proof. intros w e' w' H; discriminate. Qed.

Lemma never_get : never_unsupported get_parameters.
Proof. intros w e' w' H; discriminate. Qed.

Lemma never_put p : never_unsupported (put_parameters p).
Proof. intros w e' w' H; discriminate. Qed.

Lemma never_out_of_fuel {A : Type} : never_unsupported (@out_of_fuel A).
Proof. intros w e' w' H; discriminate. Qed.

Lemma never_of_option {A : Type} e (o : option A) :
  e <> NotImplementedError -> never_unsupported (of_option e o).
Proof.
  intros He w e' w' H. destruct o; cbn in H; inversion H; subst; exact He.
Qed.

Lemma never_column t v : never_unsupported (column t v).
Proof.
  intros w e w' H. unfold column in H.
  destruct (Z.of_nat (length v) =? rows t); cbn in H; inversion H; subst.
  discriminate.
Qed.

Ltac never_step :=
  cbv zeta;
  lazymatch goal with
  | |- never_unsupported (bind _ _) => apply never_bind; [ | intros ? ]
  | |- never_unsupported (ret _) => apply never_ret
  | |- never_unsupported (emit _) => apply never_emit
  | |- never_unsupported get_parameters => apply never_get
  | |- never_unsupported (put_parameters _) => apply never_put
  | |- never_unsupported out_of_fuel => apply never_out_of_fuel
  | |- never_unsupported (of_option _ _) => apply never_of_option; discriminate
  | |- never_unsupported (column _ _) => apply never_column
  | |- never_unsupported (if ?b then _ else _) => destruct b
  | |- never_unsupported (match ?x with (_, _) => _ end) => destruct x
  end.

Section Runs.

Context {C : Collaborators}.

Lemma never_background_fit f data err ws :
  never_unsupported (background_fit f data err ws).
Proof. unfold background_fit. repeat never_step. Qed.

Lemma never_refine fuel data err ws index :
  forall model res,
    never_unsupported (refine_background fuel data err ws index model res).
Proof.
  induction fuel as [|fuel IH]; intros model res; cbn [refine_background].
  - repeat never_step.
  - never_step; [never_step|]. never_step; [|never_step].
    never_step; [never_step|]. never_step; [never_step|].
    never_step; [never_step|]. never_step; [apply never_background_fit|].
    never_step; [unfold bgd_residuals; never_step|]. apply IH.
Qed.

Lemma never_after_check fuel image spectrum signal_width ws right_edge :
  never_unsupported
    (let ws := default_ws signal_width ws in
     let* win := rotated_window image ws right_edge in
     let* model := rotated_background fuel win ws in
     let* '(psf, s, w) := fit_1d image win model signal_width ws in
     let pixels := IntPixels (arange (xmin win) (xmax win)) in
     let* d := derotate image win s ws right_edge in
     let uwin := unrotated_window d in
     let* umodel := unrotated_background uwin ws in
     let bgd := on_grid umodel (snd (shape (w_data uwin)))
                  (fst (shape (w_data uwin))) in
     let* f := deconvolve_2d psf image spectrum d uwin umodel w pixels in
     finalize image spectrum d uwin bgd f).
Proof.
  never_step; [unfold rotated_window; repeat never_step|].
  never_step.
  { unfold rotated_background, bgd_residuals. repeat never_step;
      try apply never_background_fit; apply never_refine. }
  never_step; [unfold fit_1d; repeat never_step|].
  destruct a1 as [[psf0 s] wk].
  never_step; [unfold derotate, derotate_table, unrotated_bounds; repeat never_step|].
  never_step; [apply never_background_fit|].
  never_step; [unfold deconvolve_2d; repeat never_step|].
  unfold finalize; repeat never_step.
Qed.

End Runs.

(** ** Extraction mode *)

(** C4. When [parameters.PSF_EXTRACTION_MODE] is neither ["PSF_1D"] nor
    ["PSF_2D"], the call raises [NotImplementedError] in the world it
    started from: no array has been read, no background fitted, no setting
    written. When the mode is one of the two, no run of the function ends
    with that error. *)
Theorem C4_unsupported_mode_raises_before_any_read :
  forall (C : Collaborators) fuel image spectrum signal_width ws right_edge w,
    (PSF_EXTRACTION_MODE (parameters w) <> "PSF_1D" ->
     PSF_EXTRACTION_MODE (parameters w) <> "PSF_2D" ->
     extract_spectrum_from_image fuel image spectrum signal_width ws
       right_edge w = Raises NotImplementedError w)
    /\
    (PSF_EXTRACTION_MODE (parameters w) = "PSF_1D" \/
     PSF_EXTRACTION_MODE (parameters w) = "PSF_2D" ->
     forall w',
       extract_spectrum_from_image fuel image spectrum signal_width ws
         right_edge w <> Raises NotImplementedError w').
Proof.
  intros C fuel image spectrum signal_width ws right_edge w. split.
  - intros H1 H2. unfold extract_spectrum_from_image, bind at 1.
    unfold check_mode, bind, get_parameters.
    apply String.eqb_neq in H1. apply String.eqb_neq in H2.
    rewrite H1, H2. reflexivity.
  - intros Hmode w' Hrun.
    unfold extract_spectrum_from_image, bind at 1 in Hrun.
    assert (Hcheck : check_mode w = Returns tt w).
    { unfold check_mode, bind, get_parameters.
      destruct Hmode as [-> | ->]; reflexivity. }
    rewrite Hcheck in Hrun.
    exact (never_after_check fuel image spectrum signal_width ws right_edge
             w NotImplementedError w' Hrun eq_refl).
Qed.

Lemma C4_witness :
  extract_spectrum_from_image (C := Doubles.collaborators Doubles.unbiased 7)
    5 (Doubles.image 100 0) Doubles.blank 1 (Some (2, 4)) 8
    (Doubles.world "PSF_3D" 20 200 500)
  = Raises NotImplementedError (Doubles.world "PSF_3D" 20 200 500)
  /\
  forall w',
    extract_spectrum_from_image (C := Doubles.collaborators Doubles.unbiased 7)
      5 (Doubles.image 100 0) Doubles.blank 1 (Some (2, 4)) 8
      (Doubles.world "PSF_1D" 20 200 500)
    <> Raises NotImplementedError w'.
Proof.
  split.
  - apply (C4_unsupported_mode_raises_before_any_read
             (Doubles.collaborators Doubles.unbiased 7)); discriminate.
  - apply (C4_unsupported_mode_raises_before_any_read
             (Doubles.collaborators Doubles.unbiased 7)).
    left. reflexivity.
Defined.

(** ** The refinement loop *)

Section Loop.

Context {C : Collaborators}.

Variables (data err : ndarray) (ws : Z * Z) (index : list Z).

Lemma last_default (y : Z) (l : list Z) (d d' : Z) :
  List.last (y :: l) d = List.last (y :: l) d'.
Proof.
  revert y. induction l as [|z l IH]; intros y; [reflexivity|].
  change (List.last (z :: l) d = List.last (z :: l) d'). apply IH.
Qed.

Lemma last_after_head (x : Z) (l : list Z) (d : Z) :
  List.last l x = List.last (x :: l) d.
Proof.
  destruct l as [|y l]; [reflexivity|].
  change (List.last (y :: l) x = List.last (y :: l) d). apply last_default.
Qed.

Lemma fit_boxes_app f l1 l2 :
  fit_boxes f (l1 ++ l2) = fit_boxes f l1 ++ fit_boxes f l2.
Proof. unfold fit_boxes. apply flat_map_app. Qed.

(** One unfolding of the loop of lines 201-208. *)
Lemma refine_background_unfold fuel model res w :
  refine_background (S fuel) data err ws index model res w =
  if pull_rejected res && (5 <=? boxsize w) then
    match refit_pull data err ws index (parameters (after_refit w)) with
    | Some res' =>
        refine_background fuel data err ws index
          (extract_spectrogram_background_sextractor
             (parameters (after_refit w)) data err ws)
          res' (after_refit w)
    | None => Raises IndexError (after_refit w)
    end
  else Returns (model, res) w.
Proof.
  cbn [refine_background]. unfold bind at 1. cbn [get_parameters].
  unfold boxsize.
  destruct (pull_rejected res && (5 <=? PIXWIDTH_BOXSIZE (parameters w)));
    [|reflexivity].
  unfold refit_pull, after_refit, boxsize, bgd_residuals, background_fit,
    bind, put_parameters, get_parameters, emit, ret; cbn.
  destruct (pull_rows _ _ _ _); reflexivity.
Qed.

Lemma refine_background_accepts fuel model res w :
  pull_rejected res = false ->
  refine_background fuel data err ws index model res w = Returns (model, res) w.
Proof.
  intros H. destruct fuel; cbn [refine_background]; unfold bind; cbn;
    rewrite H; reflexivity.
Qed.

Lemma refine_background_below_floor fuel model res w :
  boxsize w < 5 ->
  refine_background fuel data err ws index model res w = Returns (model, res) w.
Proof.
  intros H. unfold boxsize in H.
  assert (E : (5 <=? PIXWIDTH_BOXSIZE (parameters w)) = false)
    by (apply Z.leb_gt; exact H).
  destruct fuel; cbn [refine_background]; unfold bind; cbn;
    rewrite E, andb_false_r; reflexivity.
Qed.

Lemma refine_background_out_of_fuel model res w :
  pull_rejected res = true -> 5 <= boxsize w ->
  refine_background 0 data err ws index model res w = OutOfFuel w.
Proof.
  intros H Hb. cbn [refine_background]; unfold bind; cbn.
  rewrite H. unfold boxsize in Hb.
  apply Z.leb_le in Hb. rewrite Hb. reflexivity.
Qed.

Lemma boxsize_after_refit w : boxsize (after_refit w) = Z.max 5 (boxsize w / 2).
Proof. reflexivity. Qed.

Lemma after_refit_floor w : 5 <= boxsize (after_refit w).
Proof. rewrite boxsize_after_refit. lia. Qed.

Lemma after_refit_le w : 5 <= boxsize w -> boxsize (after_refit w) <= boxsize w.
Proof.
  intros H. rewrite boxsize_after_refit.
  assert (boxsize w / 2 <= boxsize w) by (apply Z.div_le_upper_bound; lia).
  lia.
Qed.

Lemma after_refit_lt w : 5 < boxsize w -> boxsize (after_refit w) < boxsize w.
Proof.
  intros H. rewrite boxsize_after_refit.
  assert (boxsize w / 2 < boxsize w) by (apply Z.div_lt_upper_bound; lia).
  lia.
Qed.

(** What any run of the loop, complete or cut short, leaves in the world. *)
Lemma refine_background_log fuel :
  forall model res w,
    5 <= boxsize w ->
    let w' := final_world
                (refine_background fuel data err ws index model res w) in
    exists log,
      effects w' = effects w ++ log /\
      halving_chain (boxsize w) (fit_boxes rotated log) /\
      non_increasing (boxsize w) (fit_boxes rotated log) /\
      Forall (fun b => 5 <= b) (fit_boxes rotated log) /\
      fit_boxes unrotated log = [] /\
      boxsize w' = List.last (fit_boxes rotated log) (boxsize w) /\
      same_but_boxsize (parameters w) (parameters w').
Proof.
  assert (Hsame : forall w, same_but_boxsize (parameters w) (parameters w)).
  { intros w. unfold same_but_boxsize. destruct (parameters w); reflexivity. }
  assert (Hnil : forall w (r : outcome (BgdModel * list (list pull_entry))),
             final_world r = w ->
             exists log,
               effects (final_world r) = effects w ++ log /\
               halving_chain (boxsize w) (fit_boxes rotated log) /\
               non_increasing (boxsize w) (fit_boxes rotated log) /\
               Forall (fun b => 5 <= b) (fit_boxes rotated log) /\
               fit_boxes unrotated log = [] /\
               boxsize (final_world r) = List.last (fit_boxes rotated log) (boxsize w) /\
               same_but_boxsize (parameters w) (parameters (final_world r))).
  { intros w r ->. exists []. rewrite app_nil_r. cbn.
    repeat split; auto. }
  induction fuel as [|fuel IH]; intros model res w Hb; cbv zeta.
  - apply Hnil. cbn [refine_background]; unfold bind; cbn.
    destruct (_ && _); reflexivity.
  - rewrite refine_background_unfold.
    destruct (pull_rejected res && (5 <=? boxsize w)); [|apply Hnil; reflexivity].
    assert (Hone :
      fit_boxes rotated [Warning (Z.max 5 (boxsize w / 2));
                         BackgroundFit rotated (Z.max 5 (boxsize w / 2))]
      = [Z.max 5 (boxsize w / 2)]) by reflexivity.
    pose proof (after_refit_floor w) as Hfloor.
    pose proof (after_refit_le w Hb) as Hle.
    rewrite boxsize_after_refit in Hfloor, Hle.
    destruct (refit_pull data err ws index (parameters (after_refit w))) as [res'|].
    + destruct (IH (extract_spectrogram_background_sextractor
                      (parameters (after_refit w)) data err ws)
                   res' (after_refit w) (after_refit_floor w))
        as (log & He & Hc & Hn & Hf & Hu & Hl & Hs).
      exists ([Warning (Z.max 5 (boxsize w / 2));
               BackgroundFit rotated (Z.max 5 (boxsize w / 2))] ++ log).
      rewrite !fit_boxes_app, Hone.
      rewrite boxsize_after_refit in *.
      split; [|split; [|split; [|split; [|split; [|split]]]]].
      * rewrite He. cbn [after_refit effects]. rewrite <- !app_assoc. reflexivity.
      * cbn. split; [reflexivity | exact Hc].
      * cbn. split; [exact Hle | exact Hn].
      * cbn. constructor; assumption.
      * cbn. exact Hu.
      * rewrite Hl. cbn [app]. apply last_after_head.
      * unfold same_but_boxsize in *. rewrite Hs. cbn.
        destruct (parameters w); reflexivity.
    + exists [Warning (Z.max 5 (boxsize w / 2));
              BackgroundFit rotated (Z.max 5 (boxsize w / 2))].
      cbn [final_world]. rewrite Hone, boxsize_after_refit.
      split; [|split; [|split; [|split; [|split; [|split]]]]].
      * cbn. rewrite <- app_assoc. reflexivity.
      * cbn. auto.
      * cbn. auto.
      * constructor; [assumption | constructor].
      * reflexivity.
      * reflexivity.
      * unfold same_but_boxsize. cbn. destruct (parameters w); reflexivity.
Qed.

Lemma set_boxsize_same p : set_boxsize (PIXWIDTH_BOXSIZE p) p = p.
Proof. destruct p; reflexivity. Qed.

Lemma after_refit_at_floor w :
  boxsize w = 5 -> parameters (after_refit w) = parameters w.
Proof.
  unfold after_refit, boxsize. intros H. cbn [parameters]. rewrite H.
  change (Z.max 5 (5 / 2)) with 5. rewrite <- H. apply set_boxsize_same.
Qed.

(** At the floor the loop refits with the settings it already had: when the
    pull they earn is rejected, no amount of fuel lets the loop return. *)
Lemma refine_background_stuck_at_floor fuel :
  forall model res w,
    boxsize w = 5 ->
    refit_pull data err ws index (parameters w) = Some res ->
    pull_rejected res = true ->
    exists w',
      refine_background fuel data err ws index model res w = OutOfFuel w'.
Proof.
  induction fuel as [|fuel IH]; intros model res w Hb Hpull Hrej.
  - exists w. apply refine_background_out_of_fuel; [exact Hrej | lia].
  - rewrite refine_background_unfold, Hrej.
    replace (5 <=? boxsize w) with true by (symmetry; apply Z.leb_le; lia).
    cbn [andb]. rewrite (after_refit_at_floor w Hb), Hpull.
    apply IH.
    + rewrite boxsize_after_refit, Hb. reflexivity.
    + rewrite (after_refit_at_floor w Hb). exact Hpull.
    + exact Hrej.
Qed.

(** When every refit earns a rejected pull, the loop exhausts any fuel. *)
Lemma refine_background_never_returns fuel :
  (forall p, 5 <= PIXWIDTH_BOXSIZE p ->
     exists res, refit_pull data err ws index p = Some res /\
                 pull_rejected res = true) ->
  forall model res w,
    5 <= boxsize w ->
    pull_rejected res = true ->
    exists w',
      refine_background fuel data err ws index model res w = OutOfFuel w'.
Proof.
  intros Hall. induction fuel as [|fuel IH]; intros model res w Hb Hrej.
  - exists w. apply refine_background_out_of_fuel; assumption.
  - rewrite refine_background_unfold, Hrej.
    replace (5 <=? boxsize w) with true by (symmetry; apply Z.leb_le; lia).
    cbn [andb].
    destruct (Hall (parameters (after_refit w)) (after_refit_floor w))
      as (res' & -> & Hrej').
    apply IH; [apply after_refit_floor | exact Hrej'].
Qed.

Lemma non_increasing_last b l : non_increasing b l -> List.last l b <= b.
Proof.
  revert b. induction l as [|x l IH]; intros b H; [cbn; lia|].
  destruct H as [Hx Hl]. rewrite <- (last_after_head x l b).
  specialize (IH x Hl). lia.
Qed.

Lemma floor_last b l :
  5 <= b -> Forall (fun x => 5 <= x) l -> 5 <= List.last l b.
Proof.
  revert b. induction l as [|x l IH]; intros b Hb H; [exact Hb|].
  inversion H; subst. rewrite <- (last_after_head x l b). apply IH; assumption.
Qed.

(** What a returning run of the loop leaves, whatever the entry size. *)
Lemma refine_background_Returns fuel model res w model' res' w' :
  refine_background fuel data err ws index model res w
  = Returns (model', res') w' ->
  (exists log, effects w' = effects w ++ log /\
               fit_boxes unrotated log = []) /\
  same_but_boxsize (parameters w) (parameters w') /\
  boxsize w' <= boxsize w /\
  (boxsize w < 5 \/ pull_rejected res = false -> w' = w) /\
  (5 < boxsize w -> pull_rejected res = true ->
   5 <= boxsize w' < boxsize w).
Proof.
  intros Hrun.
  destruct (Z.lt_ge_cases (boxsize w) 5) as [Hlow | Hb].
  - rewrite (refine_background_below_floor fuel model res w Hlow) in Hrun.
    inversion Hrun; subst.
    split; [exists []; rewrite app_nil_r; auto|].
    split; [unfold same_but_boxsize; symmetry; apply set_boxsize_same|].
    split; [lia|]. split; [auto | intros; lia].
  - pose proof (refine_background_log fuel model res w Hb) as Hlog.
    cbv zeta in Hlog. rewrite Hrun in Hlog. cbn [final_world] in Hlog.
    destruct Hlog as (log & He & Hc & Hn & Hf & Hu & Hl & Hs).
    split; [exists log; auto|]. split; [exact Hs|].
    split; [rewrite Hl; apply non_increasing_last; exact Hn|].
    split.
    + intros [Hlow | Hacc]; [lia|].
      rewrite (refine_background_accepts fuel model res w Hacc) in Hrun.
      inversion Hrun; reflexivity.
    + intros Hbig Hrej. destruct fuel as [|fuel].
      * rewrite (refine_background_out_of_fuel model res w Hrej Hb) in Hrun.
        discriminate.
      * rewrite refine_background_unfold, Hrej in Hrun.
        replace (5 <=? boxsize w) with true in Hrun
          by (symmetry; apply Z.leb_le; lia).
        cbn [andb] in Hrun.
        destruct (refit_pull data err ws index (parameters (after_refit w)))
          as [res1|]; [|discriminate].
        pose proof (refine_background_log fuel
                      (extract_spectrogram_background_sextractor
                         (parameters (after_refit w)) data err ws)
                      res1 (after_refit w) (after_refit_floor w)) as Hlog.
        cbv zeta in Hlog. rewrite Hrun in Hlog. cbn [final_world] in Hlog.
        destruct Hlog as (log1 & _ & _ & Hn1 & Hf1 & _ & Hl1 & _).
        pose proof (non_increasing_last _ _ Hn1).
        pose proof (floor_last _ _ (after_refit_floor w) Hf1).
        pose proof (after_refit_lt w Hbig). lia.
Qed.


End Loop.

(** ** Searching the closest wavelength *)

Lemma Qltb_true x y : Qltb x y = true -> (x < y)%Q.
Proof.
  unfold Qltb. intros H. apply negb_true_iff in H.
  apply Qnot_le_lt. intros Hle. apply Qle_bool_iff in Hle. congruence.
Qed.

Lemma Qltb_false x y : Qltb x y = false -> (y <= x)%Q.
Proof.
  unfold Qltb. intros H. apply negb_false_iff in H.
  apply Qle_bool_iff. exact H.
Qed.

Lemma argmin_from_spec l :
  forall best ibest i,
    ibest < i ->
    let r := argmin_from best ibest i l in
    (r = ibest /\ forall x, In x l -> (best <= x)%Q) \/
    (i <= r < i + Z.of_nat (length l) /\
     exists y, nth_error l (Z.to_nat (r - i)) = Some y /\
               (y <= best)%Q /\ forall x, In x l -> (y <= x)%Q).
Proof.
  induction l as [|x l IH]; intros best ibest i Hi; cbv zeta.
  - left. split; [reflexivity | intros x []].
  - cbn [argmin_from]. destruct (Qltb x best) eqn:E.
    + apply Qltb_true in E. right.
      destruct (IH x i (i + 1) ltac:(lia)) as [[Hr Hall] | (Hr & y & Hn & Hy & Hall)].
      * rewrite Hr. split; [cbn [length]; lia|].
        exists x. replace (i - i) with 0 by lia.
        split; [reflexivity|]. split; [apply Qlt_le_weak; exact E|].
        intros x' [<- | Hin]; [apply Qle_refl | apply Hall; exact Hin].
      * split; [cbn [length]; lia|].
        exists y. split.
        { replace (Z.to_nat (argmin_from x i (i + 1) l - i))
            with (S (Z.to_nat (argmin_from x i (i + 1) l - (i + 1)))) by lia.
          exact Hn. }
        split; [apply Qle_trans with x; [exact Hy | apply Qlt_le_weak; exact E]|].
        intros x' [<- | Hin]; [exact Hy | apply Hall; exact Hin].
    + apply Qltb_false in E.
      destruct (IH best ibest (i + 1) ltac:(lia))
        as [[Hr Hall] | (Hr & y & Hn & Hy & Hall)].
      * left. split; [exact Hr|].
        intros x' [<- | Hin]; [exact E | apply Hall; exact Hin].
      * right. split; [cbn [length]; lia|].
        exists y. split.
        { replace (Z.to_nat (argmin_from best ibest (i + 1) l - i))
            with (S (Z.to_nat (argmin_from best ibest (i + 1) l - (i + 1))))
            by lia.
          exact Hn. }
        split; [exact Hy|].
        intros x' [<- | Hin];
          [apply Qle_trans with best; assumption | apply Hall; exact Hin].
Qed.

(** [argmin] returns an index of the array that holds a least element. *)
Lemma argmin_spec l r :
  argmin l = Some r ->
  0 <= r < Z.of_nat (length l) /\
  exists y, nth_error l (Z.to_nat r) = Some y /\
            forall x, In x l -> (y <= x)%Q.
Proof.
  destruct l as [|x l]; [discriminate|]. cbn [argmin]. intros H.
  inversion H as [Hr]; clear H.
  destruct (argmin_from_spec l x 0 1 ltac:(lia))
    as [[Hr' Hall] | (Hr' & y & Hn & Hy & Hall)]; cbv zeta in *.
  - rewrite Hr'. split; [cbn [length]; lia|].
    exists x. split; [reflexivity|].
    intros x' [<- | Hin]; [apply Qle_refl | apply Hall; exact Hin].
  - split; [cbn [length]; lia|].
    exists y. split.
    { replace (Z.to_nat (argmin_from x 0 1 l))
        with (S (Z.to_nat (argmin_from x 0 1 l - 1))) by lia.
      exact Hn. }
    intros x' [<- | Hin]; [exact Hy | apply Hall; exact Hin].
Qed.





Lemma Qabs_bound_minus l b : (Qabs (l - (b - 0)) == Qabs (l - b))%Q.
Proof. apply Qabs_wd. ring. Qed.

Lemma Qabs_bound_plus l b : (Qabs (l - (b + 0)) == Qabs (l - b))%Q.
Proof. apply Qabs_wd. ring. Qed.

(** The index found on lines 182-183 and 265-266 is a closest wavelength. *)
Lemma argmin_closest lambdas bound bound' r :
  (forall l, Qabs (l - bound') == Qabs (l - bound))%Q ->
  argmin (abs_dist lambdas bound') = Some r ->
  closest_to lambdas bound r /\ r < Z.of_nat (length lambdas).
Proof.
  intros Hb H. apply argmin_spec in H.
  destruct H as ([H0 Hlen] & y & Hn & Hall).
  unfold abs_dist in *. rewrite length_map in Hlen.
  rewrite nth_error_map in Hn.
  destruct (nth_error lambdas (Z.to_nat r)) as [l|] eqn:El; [|discriminate].
  cbn [option_map] in Hn.
  assert (Hy : Qabs (l - bound') = y) by (injection Hn; auto). subst y. clear Hn.
  split; [|exact Hlen]. split; [lia|].
  exists l. split; [exact El|].
  intros l' Hin. rewrite <- !Hb. apply Hall.
  apply in_map_iff. exists l'. split; [reflexivity | exact Hin].
Qed.

(** ** The stages, one by one *)

Section Stages.

Context {C : Collaborators}.

Lemma rotated_window_Returns image ws right_edge w win w1 :
  rotated_window image ws right_edge w = Returns win w1 ->
  exists i_max,
    argmin (abs_dist (rotated_lambdas image right_edge)
              (LAMBDA_MIN (parameters w) - 0)%Q) = Some (xmin win) /\
    argmin (abs_dist (rotated_lambdas image right_edge)
              (LAMBDA_MAX (parameters w) + 0)%Q) = Some i_max /\
    xmax win = Z.min right_edge i_max /\
    w_data win = crop (upto_right_edge (data_rotated image) right_edge)
                   (ymin win) (ymax win) (xmin win) (xmax win) /\
    w_err win = crop (upto_right_edge (stat_errors_rotated image) right_edge)
                  (ymin win) (ymax win) (xmin win) (xmax win) /\
    parameters w1 = parameters w /\
    effects w1 = effects w ++ [ReadArray "data_rotated";
                               ReadArray "stat_errors_rotated"].
Proof.
  unfold rotated_window. intros H.
  inv_bind H as u1 wa E1. inv_prim E1.
  inv_bind H as u2 wb E2. inv_prim E2.
  inv_bind H as p wc E3. inv_prim E3.
  inv_bind H as i_min wd E4. inv_prim E4.
  inv_bind H as i_max we E5. inv_prim E5.
  cbn in H. inversion H; subst; clear H. cbn.
  exists i_max. repeat split; try assumption.
  rewrite <- app_assoc. reflexivity.
Qed.

Lemma background_fit_eq f data err ws w :
  background_fit f data err ws w =
  Returns (extract_spectrogram_background_sextractor (parameters w) data err ws)
    {| parameters := parameters w;
       effects := effects w ++ [BackgroundFit f (boxsize w)] |}.
Proof. reflexivity. Qed.

Lemma rotated_background_Returns fuel win ws w model w1 :
  rotated_background fuel win ws w = Returns model w1 ->
  exists res0 log,
    refit_pull (w_data win) (w_err win) ws
      (bgd_index (fst (shape (w_data win))) ws) (parameters w) = Some res0 /\
    effects w1 = effects w ++ [BackgroundFit rotated (boxsize w);
                               Warning (boxsize w)] ++ log /\
    fit_boxes unrotated log = [] /\
    same_but_boxsize (parameters w) (parameters w1) /\
    boxsize w1 <= boxsize w /\
    (boxsize w < 5 \/ pull_rejected res0 = false -> boxsize w1 = boxsize w) /\
    (5 <= boxsize w -> pull_rejected res0 = true ->
     5 <= boxsize w1 < boxsize w).
Proof.
  unfold rotated_background. intros H.
  inv_bind H as m0 wa E1. rewrite background_fit_eq in E1.
  inversion E1; subst; clear E1.
  inv_bind H as a0 wb E. unfold bgd_residuals in E. inv_prim E.
  inv_bind H as p wc E2. inv_prim E2.
  inv_bind H as u wd E3. inv_prim E3.
  inv_bind H as mr we E0. destruct mr as [model' res'].
  cbn in H. inversion H; subst; clear H.
  exists a0.
  pose proof E0 as Hrun.
  apply refine_background_Returns in E0.
  destruct E0 as ((log & He & Hu) & Hs & Hle & Hsame & Hlt).
  exists log. cbn in *. unfold boxsize in *. cbn in *.
  split; [exact E|]. split; [rewrite He, <- !app_assoc; reflexivity|].
  split; [exact Hu|]. split; [exact Hs|]. split; [exact Hle|].
  split; [intros Hc; rewrite (Hsame Hc); reflexivity|].
  intros Hb Hrej.
  destruct (Z.eq_dec (PIXWIDTH_BOXSIZE (parameters w)) 5) as [H5|H5].
  - exfalso.
    edestruct (refine_background_stuck_at_floor (w_data win) (w_err win) ws
                 (bgd_index (fst (shape (w_data win))) ws) fuel
                 (extract_spectrogram_background_sextractor (parameters w)
                    (w_data win) (w_err win) ws) a0
                 {| parameters := parameters w;
                    effects := (effects w ++
                                [BackgroundFit rotated
                                   (PIXWIDTH_BOXSIZE (parameters w))]) ++
                               [Warning (PIXWIDTH_BOXSIZE (parameters w))] |})
      as [w' Hw']; [exact H5 | exact E | exact Hrej|].
    rewrite Hw' in Hrun. discriminate.
  - apply Hlt; [lia | exact Hrej].
Qed.

Lemma fit_1d_Returns image win model signal_width ws w psf0 s wk w1 :
  fit_1d image win model signal_width ws w = Returns (psf0, s, wk) w1 ->
  w1 = w /\ psf0 = load_PSF (PSF_TYPE (parameters w)).
Proof.
  unfold fit_1d. intros H.
  inv_bind H as p wa E1. inv_prim E1.
  inv_bind H as s1 wb E2. inv_prim E2.
  inv_bind H as sw wc E3. inv_prim E3.
  destruct sw as [s' wk']. cbn in H. inversion H; subst. auto.
Qed.

Lemma derotate_table_Returns image win s w s' w1 :
  derotate_table image win s w = Returns s' w1 -> w1 = w.
Proof.
  unfold derotate_table. intros H.
  inv_bind H as dx wa E1. inv_prim E1. cbn in H. inversion H; subst. reflexivity.
Qed.

Lemma unrotated_bounds_Returns image s ws right_edge w b w1 :
  unrotated_bounds image s ws right_edge w = Returns b w1 ->
  exists i_min i_max dx_min dx_max,
    argmin (abs_dist (to_lambdas image (get_distance_along_dispersion_axis s))
              (LAMBDA_MIN (parameters w) - 0)%Q) = Some i_min /\
    argmin (abs_dist (to_lambdas image (get_distance_along_dispersion_axis s))
              (LAMBDA_MAX (parameters w) + 0)%Q) = Some i_max /\
    item (Dx (table s)) i_min = Some dx_min /\
    item (Dx (table s)) i_max = Some dx_max /\
    xmin b = int_of_float
               (dx_min + inject_Z (int_of_float (fst (target_pixcoords image))))%Q /\
    xmax b = Z.min right_edge
               (int_of_float
                  (dx_max + inject_Z (int_of_float (fst (target_pixcoords image))))%Q
                + 1) /\
    w_data b = upto_right_edge (data image) right_edge /\
    w_err b = upto_right_edge (stat_errors image) right_edge /\
    parameters w1 = parameters w /\
    effects w1 = effects w ++ [ReadArray "data"; ReadArray "stat_errors"].
Proof.
  unfold unrotated_bounds. intros H.
  inv_bind H as u1 wa E1. inv_prim E1.
  inv_bind H as u2 wb E2. inv_prim E2.
  inv_bind H as dmax wc E3. inv_prim E3.
  inv_bind H as dmin wd E4. inv_prim E4.
  inv_bind H as p we E5. inv_prim E5.
  inv_bind H as i_min wf E6. inv_prim E6.
  inv_bind H as i_max wg E7. inv_prim E7.
  inv_bind H as dx_min wh E8. inv_prim E8.
  inv_bind H as dx_max wi E9. inv_prim E9.
  cbn in H. inversion H; subst; clear H. cbn.
  exists i_min, i_max, dx_min, dx_max. repeat split; try assumption.
  rewrite <- app_assoc. reflexivity.
Qed.

Lemma derotate_Returns image win s ws right_edge w d w1 :
  derotate image win s ws right_edge w = Returns d w1 ->
  exists s_rot,
    derotate_table image win s w = Returns s_rot w /\
    unrotated_bounds image s_rot ws right_edge w = Returns (d_window d) w1 /\
    d_psf d = recenter image (d_window d) s_rot /\
    d_target d = target_in_crop image (d_window d) /\
    d_Dx_rot d = offsets_from_target image win.
Proof.
  unfold derotate. intros H.
  inv_bind H as s_rot wa E1.
  pose proof (derotate_table_Returns _ _ _ _ _ _ E1) as ->.
  inv_bind H as b wb E2. cbn in H. inversion H; subst; clear H. cbn.
  exists s_rot. auto.
Qed.

Lemma column_eq t v w :
  column t v w = if Z.of_nat (length v) =? rows t then Returns v w
                 else Raises ValueError w.
Proof. unfold column. destruct (_ =? _); reflexivity. Qed.

Lemma deconvolve_2d_Returns psf0 image spectrum d win model w1d pixels1 w f w1 :
  deconvolve_2d psf0 image spectrum d win model w1d pixels1 w = Returns f w1 ->
  w1 = w /\
  (PSF_EXTRACTION_MODE (parameters w) <> "PSF_2D" ->
   f_opt_reg f = (-1)%Q /\ f_pixels f = pixels1 /\ f_psf f = d_psf d) /\
  (PSF_EXTRACTION_MODE (parameters w) = "PSF_2D" ->
   exists s_in s_out wk,
     fit_chromatic_psf s_in (w_data win) model (w_err win) "psf1d" "2D"
       (VERBOSE (parameters w)) = Some (s_out, wk) /\
     f_opt_reg f = opt_reg s_out /\
     opt_reg (f_psf f) = opt_reg s_out /\
     Dx (table (f_psf f)) = Dx (table s_out) /\
     f_pixels f = FloatPixels (Dx (table s_out))).
Proof.
  unfold deconvolve_2d. intros H.
  inv_bind H as p wa E1. inv_prim E1.
  destruct (String.eqb_spec (PSF_EXTRACTION_MODE (parameters wa)) "PSF_2D")
    as [Hm | Hm].
  - inv_bind H as dx wb E2. inv_prim E2.
    inv_bind H as amp wc E3. inv_prim E3.
    inv_bind H as ferr wd E4. inv_prim E4.
    inv_bind H as ddisp we E5. inv_prim E5.
    inv_bind H as sw wf E6. inv_prim E6. destruct sw as [s_out wk].
    cbn in H. inversion H; subst; clear H. cbn.
    split; [reflexivity|]. split; [intros Hne; congruence|].
    intros _. eexists _, s_out, wk. split; [exact E6|]. auto.
  - cbn in H. inversion H; subst; clear H. cbn.
    split; [reflexivity|]. split; [auto|]. intros Heq. congruence.
Qed.

Lemma finalize_Returns image spectrum d win bgd f w sp w1 :
  finalize image spectrum d win bgd f w = Returns sp w1 ->
  w1 = w /\
  header sp = <["PSF_REG" := f_opt_reg f]> (header spectrum) /\
  pixels sp = f_pixels f /\
  (exists l, chromatic_psf sp
             = Some (with_table (f_psf f) (set_lambdas (table (f_psf f)) l))) /\
  spectrogram sp = Some (w_data win) /\
  spectrogram_err sp = Some (w_err win) /\
  spectrogram_bgd sp = Some bgd /\
  spectrogram_xmin sp = xmin win /\
  spectrogram_xmax sp = xmax win /\
  spectrogram_x0 sp = fst (d_target d) /\
  spectrogram_y0 sp = snd (d_target d).
Proof.
  unfold finalize. intros H.
  inv_bind H as l wa E1. inv_prim E1. cbn in H. inversion H; subst; clear H. cbn.
  repeat split; try reflexivity. eexists. reflexivity.
Qed.

Lemma unrotated_background_Returns win ws w model w1 :
  unrotated_background win ws w = Returns model w1 ->
  model = extract_spectrogram_background_sextractor (parameters w)
            (w_data win) (w_err win) ws /\
  parameters w1 = parameters w /\
  effects w1 = effects w ++ [BackgroundFit unrotated (boxsize w)].
Proof.
  unfold unrotated_background. rewrite background_fit_eq.
  intros H. inversion H; subst. cbn. auto.
Qed.

(** A returning call went through every stage, in order. *)
Lemma extract_spectrum_from_image_Returns
  fuel image spectrum signal_width ws right_edge w sp w' :
  extract_spectrum_from_image fuel image spectrum signal_width ws right_edge w
  = Returns sp w' ->
  exists win w1 model w2 psf0 s wk d w3 umodel w4 f,
    check_mode w = Returns tt w /\
    rotated_window image (default_ws signal_width ws) right_edge w
    = Returns win w1 /\
    rotated_background fuel win (default_ws signal_width ws) w1
    = Returns model w2 /\
    fit_1d image win model signal_width (default_ws signal_width ws) w2
    = Returns (psf0, s, wk) w2 /\
    derotate image win s (default_ws signal_width ws) right_edge w2
    = Returns d w3 /\
    unrotated_background (unrotated_window d) (default_ws signal_width ws) w3
    = Returns umodel w4 /\
    deconvolve_2d psf0 image spectrum d (unrotated_window d) umodel wk
      (IntPixels (arange (xmin win) (xmax win))) w4 = Returns f w4 /\
    finalize image spectrum d (unrotated_window d)
      (on_grid umodel (snd (shape (w_data (unrotated_window d))))
         (fst (shape (w_data (unrotated_window d))))) f w4 = Returns sp w' /\
    w' = w4.
Proof.
  unfold extract_spectrum_from_image. intros H.
  inv_bind H as u w0 E0.
  assert (Hw : w0 = w /\ u = tt).
  { unfold check_mode, bind, get_parameters in E0.
    destruct (_ && _); cbn in E0; inversion E0; destruct u; auto. }
  destruct Hw as [-> ->].
  inv_bind H as win w1 E1. inv_bind H as model w2 E2.
  inv_bind H as psw w2' E3. destruct psw as [[psf0 s] wk].
  pose proof (fit_1d_Returns _ _ _ _ _ _ _ _ _ _ E3) as [-> _].
  inv_bind H as d w3 E4. inv_bind H as umodel w4 E5.
  inv_bind H as f w5 E6.
  pose proof (deconvolve_2d_Returns _ _ _ _ _ _ _ _ _ _ _ E6) as [-> _].
  pose proof (finalize_Returns _ _ _ _ _ _ _ _ _ H) as [-> _].
  exists win, w1, model, w2, psf0, s, wk, d, w3, umodel, w4, f.
  repeat split; assumption.
Qed.

End Stages.

(** ** Termination of the refinement *)

Lemma bind_of_Returns {A B : Type} (m : M A) (k : A -> M B) w a w1 :
  m w = Returns a w1 -> bind m k w = k a w1.
Proof. unfold bind. intros ->. reflexivity. Qed.

Lemma bind_of_OutOfFuel {A B : Type} (m : M A) (k : A -> M B) w w1 :
  m w = OutOfFuel w1 -> bind m k w = OutOfFuel w1.
Proof. unfold bind. intros ->. reflexivity. Qed.

Lemma check_mode_supported w :
  PSF_EXTRACTION_MODE (parameters w) = "PSF_1D" \/
  PSF_EXTRACTION_MODE (parameters w) = "PSF_2D" ->
  check_mode w = Returns tt w.
Proof.
  intros H. unfold check_mode, bind, get_parameters.
  destruct H as [-> | ->]; reflexivity.
Qed.

(** C1, on the code as written: line 201 keeps looping while the size is
    [>= 5] and line 202 never lets it go below 5, so the guard cannot end
    the loop. When the estimator's pull is rejected at every box size from 5
    up, a call that starts with a box size of at least 5 exhausts any number
    of iterations: the function does not return, raise or keep a last
    model. *)
Theorem C1_refinement_never_ends_when_pull_stays_rejected :
  forall (C : Collaborators) fuel image spectrum signal_width ws right_edge
         w win w1,
    PSF_EXTRACTION_MODE (parameters w) = "PSF_1D" \/
    PSF_EXTRACTION_MODE (parameters w) = "PSF_2D" ->
    rotated_window image (default_ws signal_width ws) right_edge w
    = Returns win w1 ->
    5 <= boxsize w ->
    (forall p, 5 <= PIXWIDTH_BOXSIZE p ->
       exists res,
         refit_pull (w_data win) (w_err win) (default_ws signal_width ws)
           (bgd_index (fst (shape (w_data win))) (default_ws signal_width ws))
           p = Some res /\
         pull_rejected res = true) ->
    exists w',
      extract_spectrum_from_image fuel image spectrum signal_width ws
        right_edge w = OutOfFuel w'.
Proof.
  intros C fuel image spectrum signal_width ws right_edge w win w1
    Hmode Hwin Hb Hall.
  destruct (rotated_window_Returns _ _ _ _ _ _ Hwin)
    as (i_max & _ & _ & _ & _ & _ & Hp & _).
  assert (Hb1 : 5 <= PIXWIDTH_BOXSIZE (parameters w1))
    by (rewrite Hp; exact Hb).
  destruct (Hall (parameters w1) Hb1) as (res0 & Hres0 & Hrej0).
  set (ws' := default_ws signal_width ws) in *.
  set (wl := {| parameters := parameters w1;
                effects := (effects w1 ++
                            [BackgroundFit rotated (boxsize w1)]) ++
                           [Warning (PIXWIDTH_BOXSIZE (parameters w1))] |}).
  destruct (refine_background_never_returns (w_data win) (w_err win) ws'
              (bgd_index (fst (shape (w_data win))) ws') fuel Hall
              (extract_spectrogram_background_sextractor (parameters w1)
                 (w_data win) (w_err win) ws') res0 wl Hb1 Hrej0)
    as [w' Hloop].
  exists w'. unfold extract_spectrum_from_image.
  rewrite (bind_of_Returns _ _ _ _ _ (check_mode_supported w Hmode)).
  fold ws'. rewrite (bind_of_Returns _ _ _ _ _ Hwin).
  apply bind_of_OutOfFuel.
  unfold rotated_background, bgd_residuals, background_fit, bind,
    get_parameters, emit, ret.
  cbn [parameters effects]. unfold refit_pull in Hres0. rewrite Hres0.
  cbn [of_option]. unfold ret. cbn [parameters effects].
  fold wl. unfold boxsize in wl. fold wl. rewrite Hloop. reflexivity.
Qed.

Lemma C1_witness :
  exists w',
    extract_spectrum_from_image
      (C := Doubles.collaborators Doubles.always_off 7)
      1000 (Doubles.image 100 0) Doubles.blank 1 (Some (2, 4)) 8
      (Doubles.world "PSF_1D" 20 200 500)
    = OutOfFuel w'.
Proof.
  eapply (C1_refinement_never_ends_when_pull_stays_rejected
            (Doubles.collaborators Doubles.always_off 7)).
  - left. reflexivity.
  - vm_compute. reflexivity.
  - unfold boxsize. cbn. lia.
  - intros p Hp. eexists. split.
    + vm_compute. reflexivity.
    + vm_compute. reflexivity.
Defined.

(** ** The box size is a process-wide setting *)

Lemma rotated_background_fits {C : Collaborators} fuel win ws w model w1 :
  rotated_background fuel win ws w = Returns model w1 ->
  exists log,
    effects w1 = effects w ++ [BackgroundFit rotated (boxsize w);
                               Warning (boxsize w)] ++ log /\
    fit_boxes unrotated log = [] /\
    boxsize w1 = List.last (fit_boxes rotated log) (boxsize w).
Proof.
  unfold rotated_background. intros H.
  inv_bind H as m0 wa E1. rewrite background_fit_eq in E1.
  inversion E1; subst; clear E1.
  inv_bind H as res wb E2. unfold bgd_residuals in E2. inv_prim E2.
  inv_bind H as p wc E3. inv_prim E3.
  inv_bind H as u wd E4. inv_prim E4.
  inv_bind H as mr we E5. destruct mr as [m1 r1].
  cbn in H. inversion H; subst; clear H.
  destruct (Z.lt_ge_cases (boxsize w) 5) as [Hlt | Hge].
  - rewrite refine_background_below_floor in E5 by exact Hlt.
    inversion E5; subst; clear E5. exists []. cbn.
    rewrite <- app_assoc. auto.
  - match type of E5 with
    | refine_background _ ?d ?e _ ?i ?m ?r ?w0 = _ =>
        pose proof (refine_background_log d e ws i fuel m r w0 Hge) as Hlog
    end.
    cbv zeta in Hlog. rewrite E5 in Hlog. cbn [final_world] in Hlog.
    destruct Hlog as (log & He & _ & _ & _ & Hu & Hl & _).
    exists log. split; [|split; [exact Hu | exact Hl]].
    rewrite He. cbn [effects]. rewrite <- !app_assoc. reflexivity.
Qed.

(** What the log of a returning call says about the fits on the rotated
    frame: the first is made with the box size found at entry, the last
    with the box size left at exit. *)
Lemma returning_call_fits {C : Collaborators}
  fuel image spectrum signal_width ws right_edge w sp w' :
  extract_spectrum_from_image fuel image spectrum signal_width ws
    right_edge w = Returns sp w' ->
  exists log rest,
    effects w' = effects w ++ log /\
    fit_boxes rotated log = boxsize w :: rest /\
    List.last (boxsize w :: rest) 0 = boxsize w'.
Proof.
  intros Hrun.
  destruct (extract_spectrum_from_image_Returns _ _ _ _ _ _ _ _ _ Hrun)
    as (win & w1 & model & w2 & psf0 & s & wk & d & w3 & umodel & w4 & f &
        _ & Hwin & Hbg & _ & Hder & Hubg & _ & _ & ->).
  destruct (rotated_window_Returns _ _ _ _ _ _ Hwin)
    as (i_max & _ & _ & _ & _ & _ & Hp1 & He1).
  destruct (rotated_background_fits _ _ _ _ _ _ Hbg)
    as (log & He2 & _ & Hl2).
  destruct (derotate_Returns _ _ _ _ _ _ _ _ Hder)
    as (s_rot & _ & Hbounds & _).
  destruct (unrotated_bounds_Returns _ _ _ _ _ _ _ Hbounds)
    as (i_min & i_max' & dx_min & dx_max & _ & _ & _ & _ & _ & _ & _ & _ &
        Hp3 & He3).
  destruct (unrotated_background_Returns _ _ _ _ _ Hubg) as (_ & Hp4 & He4).
  assert (Hb1 : boxsize w1 = boxsize w) by (unfold boxsize; rewrite Hp1; auto).
  assert (Hb4 : boxsize w4 = boxsize w2)
    by (unfold boxsize; rewrite Hp4, Hp3; auto).
  exists ([ReadArray "data_rotated"; ReadArray "stat_errors_rotated"] ++
          [BackgroundFit rotated (boxsize w); Warning (boxsize w)] ++ log ++
          [ReadArray "data"; ReadArray "stat_errors"] ++
          [BackgroundFit unrotated (boxsize w3)]),
    (fit_boxes rotated log).
  split; [|split].
  - rewrite He4, He3, He2, He1, Hb1. rewrite <- !app_assoc. reflexivity.
  - rewrite !fit_boxes_app. cbn. rewrite app_nil_r. reflexivity.
  - rewrite Hb4, Hl2, Hb1. symmetry. apply last_after_head.
Qed.

(** C2, as the code has it. The retry loop reads and writes
    [parameters.PIXWIDTH_BOXSIZE] itself. A call that returns leaves every
    other setting as it found it, and leaves the box size at the size of
    its last fit on the rotated frame: its first fit there is made with the
    size found at entry, its last with the size left at exit. That size is
    never larger than at entry, the same when the first fit is accepted or
    the entry size is below 5, strictly smaller (and at least 5) when the
    first fit is rejected at an entry size above 5. It is what the next
    call starts from: a call that returns from the world this one left
    makes its first fit with the size this one left. *)
Theorem C2_call_leaves_the_refined_box_size_in_parameters :
  forall (C : Collaborators) fuel image spectrum signal_width ws right_edge
         w sp w',
    extract_spectrum_from_image fuel image spectrum signal_width ws
      right_edge w = Returns sp w' ->
    same_but_boxsize (parameters w) (parameters w') /\
    boxsize w' <= boxsize w /\
    (exists log rest,
       effects w' = effects w ++ log /\
       fit_boxes rotated log = boxsize w :: rest /\
       List.last (boxsize w :: rest) 0 = boxsize w') /\
    (forall fuel2 image2 spectrum2 signal_width2 ws2 right_edge2 sp2 w'',
       extract_spectrum_from_image fuel2 image2 spectrum2 signal_width2 ws2
         right_edge2 w' = Returns sp2 w'' ->
       exists log2 rest2,
         effects w'' = effects w' ++ log2 /\
         fit_boxes rotated log2 = boxsize w' :: rest2) /\
    exists win w1 res0,
      rotated_window image (default_ws signal_width ws) right_edge w
      = Returns win w1 /\
      refit_pull (w_data win) (w_err win) (default_ws signal_width ws)
        (bgd_index (fst (shape (w_data win))) (default_ws signal_width ws))
        (parameters w) = Some res0 /\
      (boxsize w < 5 \/ pull_rejected res0 = false ->
       boxsize w' = boxsize w) /\
      (5 < boxsize w -> pull_rejected res0 = true ->
       5 <= boxsize w' < boxsize w).
Proof.
  intros C fuel image spectrum signal_width ws right_edge w sp w' Hrun.
  pose proof (returning_call_fits _ _ _ _ _ _ _ _ _ Hrun) as Hfits.
  destruct (extract_spectrum_from_image_Returns _ _ _ _ _ _ _ _ _ Hrun)
    as (win & w1 & model & w2 & psf0 & s & wk & d & w3 & umodel & w4 & f &
        _ & Hwin & Hbg & _ & Hder & Hubg & _ & _ & ->).
  destruct (rotated_window_Returns _ _ _ _ _ _ Hwin)
    as (i_max & _ & _ & _ & _ & _ & Hp1 & _).
  destruct (rotated_background_Returns _ _ _ _ _ _ Hbg)
    as (res0 & log & Hres0 & _ & _ & Hs & Hle & Hsame & Hlt).
  destruct (derotate_Returns _ _ _ _ _ _ _ _ Hder)
    as (s_rot & _ & Hbounds & _).
  destruct (unrotated_bounds_Returns _ _ _ _ _ _ _ Hbounds)
    as (i_min & i_max' & dx_min & dx_max & _ & _ & _ & _ & _ & _ & _ & _ &
        Hp3 & _).
  destruct (unrotated_background_Returns _ _ _ _ _ Hubg) as (_ & Hp4 & _).
  unfold boxsize in *. rewrite Hp4, Hp3. rewrite Hp4, Hp3 in Hfits.
  rewrite Hp1 in *.
  split; [exact Hs|]. split; [exact Hle|]. split; [exact Hfits|]. split.
  - intros fuel2 image2 spectrum2 signal_width2 ws2 right_edge2 sp2 w'' Hrun2.
    destruct (returning_call_fits _ _ _ _ _ _ _ _ _ Hrun2)
      as (log2 & rest2 & He & Hf & _).
    exists log2, rest2. unfold boxsize in Hf. rewrite Hp4, Hp3 in Hf.
    split; [exact He | exact Hf].
  - exists win, w1, res0. repeat split; try assumption.
    + apply Hlt; [lia | assumption].
    + apply Hlt; [lia | assumption].
Qed.

Lemma C2_witness :
  same_but_boxsize
    (parameters (Doubles.world "PSF_1D" 20 200 500))
    (parameters
       (final_world
          (extract_spectrum_from_image
             (C := Doubles.collaborators Doubles.off_when_wide 7)
             5 (Doubles.image 100 0) Doubles.blank 1 (Some (2, 4)) 8
             (Doubles.world "PSF_1D" 20 200 500)))) /\
  boxsize
    (final_world
       (extract_spectrum_from_image
          (C := Doubles.collaborators Doubles.off_when_wide 7)
          5 (Doubles.image 100 0) Doubles.blank 1 (Some (2, 4)) 8
          (Doubles.world "PSF_1D" 20 200 500)))
  <= 20.
Proof.
  destruct (extract_spectrum_from_image
              (C := Doubles.collaborators Doubles.off_when_wide 7)
              5 (Doubles.image 100 0) Doubles.blank 1 (Some (2, 4)) 8
              (Doubles.world "PSF_1D" 20 200 500))
    as [sp w'| |] eqn:Hrun; [|vm_compute in Hrun; discriminate..].
  destruct (C2_call_leaves_the_refined_box_size_in_parameters
              _ _ _ _ _ _ _ _ _ _ Hrun) as (Hs & Hle & _).
  split; [exact Hs | exact Hle].
Defined.

(** C2 as stated fails: a call that starts with the setting at 20 and whose
    first fit is rejected returns with the setting at 10, and a second,
    identical call then makes its first fit with a box of 10, not 20. *)
Lemma C2_counterexample_setting_changed_by_call :
  let call :=
    extract_spectrum_from_image
      (C := Doubles.collaborators Doubles.off_when_wide 7)
      5 (Doubles.image 100 0) Doubles.blank 1 (Some (2, 4)) 8 in
  let first := call (Doubles.world "PSF_1D" 20 200 500) in
  let second :=
    call {| parameters := parameters (final_world first); effects := [] |} in
  returned first <> None /\
  boxsize (Doubles.world "PSF_1D" 20 200 500) = 20 /\
  boxsize (final_world first) = 10 /\
  fit_boxes rotated (effects (final_world first)) = [20; 10] /\
  returned second <> None /\
  fit_boxes rotated (effects (final_world second)) = [10].
Proof.
  cbv zeta. repeat split; try (vm_compute; reflexivity);
    vm_compute; discriminate.
Qed.


(** ** The background of the unrotated frame *)

(** C5, as the code has it. On the unrotated frame the estimator is called
    once (line 287), with the box size that the loop on the rotated frame
    left in [parameters]; no pull is formed and nothing is refitted. In the
    log of a returning call that fit is the last event, it is the only fit
    on the unrotated frame, and the background stored in the spectrum is
    its surface. *)
Theorem C5_unrotated_background_is_fitted_once :
  forall (C : Collaborators) fuel image spectrum signal_width ws right_edge
         w sp w',
    extract_spectrum_from_image fuel image spectrum signal_width ws
      right_edge w = Returns sp w' ->
    exists log data err,
      effects w' = effects w ++ log ++ [BackgroundFit unrotated (boxsize w')] /\
      fit_boxes unrotated log = [] /\
      fit_boxes unrotated (log ++ [BackgroundFit unrotated (boxsize w')])
      = [boxsize w'] /\
      spectrogram sp = Some data /\
      spectrogram_err sp = Some err /\
      spectrogram_bgd sp
      = Some (on_grid
                (extract_spectrogram_background_sextractor (parameters w')
                   data err (default_ws signal_width ws))
                (snd (shape data)) (fst (shape data))).
Proof.
  intros C fuel image spectrum signal_width ws right_edge w sp w' Hrun.
  destruct (extract_spectrum_from_image_Returns _ _ _ _ _ _ _ _ _ Hrun)
    as (win & w1 & model & w2 & psf0 & s & wk & d & w3 & umodel & w4 & f &
        _ & Hwin & Hbg & _ & Hder & Hubg & _ & Hfin & ->).
  destruct (rotated_window_Returns _ _ _ _ _ _ Hwin)
    as (i_max & _ & _ & _ & _ & _ & _ & He1).
  destruct (rotated_background_Returns _ _ _ _ _ _ Hbg)
    as (res0 & log & _ & He2 & Hu2 & _).
  destruct (derotate_Returns _ _ _ _ _ _ _ _ Hder)
    as (s_rot & _ & Hbounds & _).
  destruct (unrotated_bounds_Returns _ _ _ _ _ _ _ Hbounds)
    as (i_min & i_max' & dx_min & dx_max & _ & _ & _ & _ & _ & _ & _ & _ &
        Hp3 & He3).
  destruct (unrotated_background_Returns _ _ _ _ _ Hubg) as (Hm & Hp4 & He4).
  destruct (finalize_Returns _ _ _ _ _ _ _ _ _ Hfin)
    as (_ & _ & _ & _ & Hd & Her & Hb & _).
  assert (Hbox : boxsize w4 = boxsize w3) by (unfold boxsize; rewrite Hp4; auto).
  exists (([ReadArray "data_rotated"; ReadArray "stat_errors_rotated"] ++
           [BackgroundFit rotated (boxsize w1); Warning (boxsize w1)] ++ log) ++
          [ReadArray "data"; ReadArray "stat_errors"]),
    (w_data (unrotated_window d)), (w_err (unrotated_window d)).
  split; [|split; [|split; [|split; [|split]]]].
  - rewrite He4, He3, He2, He1, Hbox. rewrite <- !app_assoc. reflexivity.
  - rewrite !fit_boxes_app, Hu2. reflexivity.
  - rewrite !fit_boxes_app, Hu2. reflexivity.
  - exact Hd.
  - exact Her.
  - rewrite Hb, Hm, Hp4. reflexivity.
Qed.

Lemma C5_witness :
  exists log,
    effects
      (final_world
         (extract_spectrum_from_image
            (C := Doubles.collaborators Doubles.off_when_wide 7)
            5 (Doubles.image 100 0) Doubles.blank 1 (Some (2, 4)) 8
            (Doubles.world "PSF_1D" 20 200 500)))
    = log ++ [BackgroundFit unrotated 10] /\
    fit_boxes unrotated log = [].
Proof.
  destruct (extract_spectrum_from_image
              (C := Doubles.collaborators Doubles.off_when_wide 7)
              5 (Doubles.image 100 0) Doubles.blank 1 (Some (2, 4)) 8
              (Doubles.world "PSF_1D" 20 200 500))
    as [sp w'| |] eqn:Hrun; [|vm_compute in Hrun; discriminate..].
  destruct (C5_unrotated_background_is_fitted_once _ _ _ _ _ _ _ _ _ _ Hrun)
    as (log & _ & _ & He & Hu & _).
  assert (Hw : boxsize w' = 10).
  { vm_compute in Hrun. inversion Hrun. reflexivity. }
  exists log. cbn [final_world]. rewrite He, Hw. cbn. auto.
Defined.

(** C5 as stated fails: on an image whose unrotated crop earns a rejected
    pull (mean 3) while the box size, 20, is above the floor, the call
    returns after a single fit on the unrotated frame, made with the box at
    20; the box is never halved to 10 and the rejected surface is the one
    stored. *)
Lemma C5_counterexample_no_refit_on_unrotated_frame :
  let run :=
    extract_spectrum_from_image
      (C := Doubles.collaborators Doubles.off_at_200 7)
      5 (Doubles.image 200 0) Doubles.blank 1 (Some (2, 4)) 8
      (Doubles.world "PSF_1D" 20 200 500) in
  exists sp data err res,
    returned run = Some sp /\
    spectrogram sp = Some data /\
    spectrogram_err sp = Some err /\
    refit_pull (C := Doubles.collaborators Doubles.off_at_200 7)
      data err (2, 4) (bgd_index (fst (shape data)) (2, 4))
      (parameters (final_world run)) = Some res /\
    nanmean (Collaborators := Doubles.collaborators Doubles.off_at_200 7) res
    = Fin 3 /\
    pull_rejected (C := Doubles.collaborators Doubles.off_at_200 7) res = true /\
    fit_boxes unrotated (effects (final_world run)) = [20] /\
    boxsize (final_world run) = 20.
Proof.
  cbv zeta. eexists _, _, _, _.
  split; [vm_compute; reflexivity|].
  split; [vm_compute; reflexivity|].
  split; [vm_compute; reflexivity|].
  split; [vm_compute; reflexivity|].
  repeat split; vm_compute; reflexivity.
Qed.

(** ** Centres and offsets after derotation *)

Lemma recenter_centred image bounds s :
  centred_on (target_in_crop image bounds) (table (recenter image bounds s)).
Proof.
  unfold centred_on, recenter. cbn. rewrite !length_map.
  split; [reflexivity|]. split; [reflexivity|].
  intros i. split; intros v Hv; rewrite nth_error_map, Hv; reflexivity.
Qed.

(** C6. Once the table has been derotated and the bounds of the unrotated
    crop recomputed (lines 241-277), the origin of the PSF object is the
    target position in the coordinates of that crop, and on every row of
    the table [x_c = Dx + x0] and [y_c = Dy + y0]. Nothing is assumed about
    the rotation angle or about what the rotation does to the table. *)
Theorem C6_centres_are_target_plus_offsets :
  forall (C : Collaborators) image win s ws right_edge w d w1,
    derotate image win s ws right_edge w = Returns d w1 ->
    d_target d
    = ((fst (target_pixcoords image) - inject_Z (xmin (d_window d)))%Q,
       (snd (target_pixcoords image) - inject_Z (ymin (d_window d)))%Q) /\
    x0 (d_psf d) = fst (d_target d) /\
    y0 (d_psf d) = snd (d_target d) /\
    centred_on (d_target d) (table (d_psf d)).
Proof.
  intros C image win s ws right_edge w d w1 H.
  destruct (derotate_Returns _ _ _ _ _ _ _ _ H)
    as (s_rot & _ & _ & Hpsf & Htarget & _).
  rewrite Hpsf, Htarget.
  split; [reflexivity|]. split; [reflexivity|]. split; [reflexivity|].
  apply recenter_centred.
Qed.

Lemma C6_witness :
  match
    returned
      (derotate (C := Doubles.collaborators Doubles.unbiased 7)
         (Doubles.image 100 (1 # 2))
         {| w_data := Doubles.flat 8 3 100; w_err := Doubles.flat 8 3 1;
            xmin := 3; xmax := 6; ymin := 2; ymax := 10 |}
         (ChromaticPSF_new "Moffat" 3 8 (5 # 2) 4 2 60000)
         (2, 4) 8 (Doubles.world "PSF_1D" 20 250 550))
  with
  | Some d =>
      x0 (d_psf d) = fst (d_target d) /\
      y0 (d_psf d) = snd (d_target d) /\
      centred_on (d_target d) (table (d_psf d))
  | None => False
  end.
Proof.
  destruct (derotate (C := Doubles.collaborators Doubles.unbiased 7)
              (Doubles.image 100 (1 # 2))
              {| w_data := Doubles.flat 8 3 100; w_err := Doubles.flat 8 3 1;
                 xmin := 3; xmax := 6; ymin := 2; ymax := 10 |}
              (ChromaticPSF_new "Moffat" 3 8 (5 # 2) 4 2 60000)
              (2, 4) 8 (Doubles.world "PSF_1D" 20 250 550))
    as [d w1| |] eqn:Hrun; [|vm_compute in Hrun; discriminate..].
  cbn [returned].
  exact (proj2 (C6_centres_are_target_plus_offsets _ _ _ _ _ _ _ _ _ Hrun)).
Defined.

(** ** The along-dispersion window *)

Lemma rotated_lambdas_length image right_edge :
  0 <= right_edge ->
  Z.of_nat (length (rotated_lambdas image right_edge)) <= right_edge.
Proof.
  intros Hre. unfold rotated_lambdas, to_lambdas, arange.
  rewrite !length_map, length_seq.
  unfold upto_right_edge, slice_range, slice_bound. cbn [shape snd fst].
  rewrite Z.ltb_irrefl. destruct (Z.ltb_spec right_edge 0); lia.
Qed.

(** C7, as the code has it. Both windows come from the disperser mapping
    through [argmin]. On the rotated frame (lines 180-183, for a
    non-negative [right_edge]) [xmin] and [xmax] are columns whose mapped
    wavelength is closest to [LAMBDA_MIN] and to [LAMBDA_MAX], and neither
    exceeds [right_edge]. On the unrotated frame (lines 263-268) the search
    runs over the rows of the derotated table: [xmin] is the column
    [int(Dx[i] + x0)] of a row [i] closest to [LAMBDA_MIN], and [xmax] is
    one past the column of a row closest to [LAMBDA_MAX], clipped to
    [right_edge]; [xmin] is not clipped there. *)
Theorem C7_windows_from_closest_wavelengths :
  forall (C : Collaborators) image ws right_edge w,
    (forall win w1,
       rotated_window image ws right_edge w = Returns win w1 ->
       0 <= right_edge ->
       closest_to (rotated_lambdas image right_edge)
         (LAMBDA_MIN (parameters w)) (xmin win) /\
       closest_to (rotated_lambdas image right_edge)
         (LAMBDA_MAX (parameters w)) (xmax win) /\
       xmin win <= right_edge /\
       xmax win <= right_edge)
    /\
    (forall s bounds w1,
       unrotated_bounds image s ws right_edge w = Returns bounds w1 ->
       exists i_min i_max dx_min dx_max,
         closest_to
           (to_lambdas image (get_distance_along_dispersion_axis s))
           (LAMBDA_MIN (parameters w)) i_min /\
         closest_to
           (to_lambdas image (get_distance_along_dispersion_axis s))
           (LAMBDA_MAX (parameters w)) i_max /\
         item (Dx (table s)) i_min = Some dx_min /\
         item (Dx (table s)) i_max = Some dx_max /\
         xmin bounds
         = int_of_float
             (dx_min + inject_Z (int_of_float (fst (target_pixcoords image))))%Q /\
         xmax bounds
         = Z.min right_edge
             (int_of_float
                (dx_max + inject_Z (int_of_float (fst (target_pixcoords image))))%Q
              + 1) /\
         xmax bounds <= right_edge).
Proof.
  intros C image ws right_edge w. split.
  - intros win w1 H Hre.
    destruct (rotated_window_Returns _ _ _ _ _ _ H)
      as (i_max & Hmin & Hmax & Hx & _).
    apply (argmin_closest _ (LAMBDA_MIN (parameters w))) in Hmin;
      [|intros l; apply Qabs_bound_minus].
    apply (argmin_closest _ (LAMBDA_MAX (parameters w))) in Hmax;
      [|intros l; apply Qabs_bound_plus].
    destruct Hmin as [Hcmin Hlmin]. destruct Hmax as [Hcmax Hlmax].
    pose proof (rotated_lambdas_length image right_edge Hre) as Hlen.
    assert (Hxmax : xmax win = i_max) by lia.
    rewrite Hxmax. repeat split; try assumption; try lia;
      try apply Hcmin; try apply Hcmax.
  - intros s bounds w1 H.
    destruct (unrotated_bounds_Returns _ _ _ _ _ _ _ H)
      as (i_min & i_max & dx_min & dx_max & Hmin & Hmax & Hdmin & Hdmax &
          Hxmin & Hxmax & _).
    apply (argmin_closest _ (LAMBDA_MIN (parameters w))) in Hmin;
      [|intros l; apply Qabs_bound_minus].
    apply (argmin_closest _ (LAMBDA_MAX (parameters w))) in Hmax;
      [|intros l; apply Qabs_bound_plus].
    exists i_min, i_max, dx_min, dx_max.
    repeat split; try assumption; try apply Hmin; try apply Hmax.
    rewrite Hxmax. lia.
Qed.

Lemma C7_witness :
  match
    returned
      (rotated_window (Doubles.image 100 (1 # 2)) (2, 4) 8
         (Doubles.world "PSF_1D" 20 250 550))
  with
  | Some win =>
      (xmin win, xmax win) = (3, 6) /\
      closest_to (rotated_lambdas (Doubles.image 100 (1 # 2)) 8) 250 (xmin win) /\
      closest_to (rotated_lambdas (Doubles.image 100 (1 # 2)) 8) 550 (xmax win) /\
      xmin win <= 8 /\ xmax win <= 8
  | None => False
  end.
Proof.
  destruct (rotated_window (Doubles.image 100 (1 # 2)) (2, 4) 8
              (Doubles.world "PSF_1D" 20 250 550))
    as [win w1| |] eqn:Hrun; [|vm_compute in Hrun; discriminate..].
  cbn [returned]. split.
  - vm_compute in Hrun. inversion Hrun. reflexivity.
  - apply (proj1 (C7_windows_from_closest_wavelengths
                    (Doubles.collaborators Doubles.unbiased 7)
                    (Doubles.image 100 (1 # 2)) (2, 4) 8
                    (Doubles.world "PSF_1D" 20 250 550)) win w1 Hrun).
    lia.
Defined.

(** C7 as stated fails on the unrotated frame. With the target at column
    0.5, a dispersion of 100 nm per pixel and bounds of 250 nm and 550 nm,
    the columns closest to the bounds are 3 and 6 (250 nm and 550 nm), and
    the rotated window is [3, 6). The window that the function returns is
    [2, 5): column 2 maps to 150 nm and column 5 to 450 nm, neither closest
    to its bound, and 5 is the column of no row of the table (the rows sit
    on columns 2, 3 and 4). *)
Lemma C7_counterexample_unrotated_window_off_the_closest_columns :
  let image := Doubles.image 100 (1 # 2) in
  let run :=
    extract_spectrum_from_image
      (C := Doubles.collaborators Doubles.unbiased 7)
      5 image Doubles.blank 1 (Some (2, 4)) 8
      (Doubles.world "PSF_1D" 20 250 550) in
  let lambdas :=
    to_lambdas image
      (map (fun i => (inject_Z i - fst (target_pixcoords image))%Q)
           (arange 0 8)) in
  exists sp s,
    returned run = Some sp /\
    chromatic_psf sp = Some s /\
    spectrogram_xmin sp = 2 /\
    spectrogram_xmax sp = 5 /\
    closest_to lambdas 250 3 /\
    closest_to lambdas 550 6 /\
    ~ closest_to lambdas 250 (spectrogram_xmin sp) /\
    ~ closest_to lambdas 550 (spectrogram_xmax sp) /\
    map (fun dx => int_of_float
                     (dx + inject_Z (int_of_float (fst (target_pixcoords image))))%Q)
        (Dx (table s)) = [2; 3; 4].
Proof.
  cbv zeta. eexists _, _.
  split; [vm_compute; reflexivity|].
  split; [vm_compute; reflexivity|].
  split; [vm_compute; reflexivity|].
  split; [vm_compute; reflexivity|].
  assert (Hin250 : In (500 # 2)%Q
            (to_lambdas (Doubles.image 100 (1 # 2))
               (map (fun i => (inject_Z i
                               - fst (target_pixcoords (Doubles.image 100 (1 # 2))))%Q)
                    (arange 0 8)))) by (vm_compute; tauto).
  assert (Hin550 : In (1100 # 2)%Q
            (to_lambdas (Doubles.image 100 (1 # 2))
               (map (fun i => (inject_Z i
                               - fst (target_pixcoords (Doubles.image 100 (1 # 2))))%Q)
                    (arange 0 8)))) by (vm_compute; tauto).
  split; [|split; [|split; [|split]]].
  - split; [lia|]. exists (500 # 2)%Q. split; [vm_compute; reflexivity|].
    intros l' Hl'. vm_compute in Hl'.
    repeat (destruct Hl' as [<- | Hl']; [vm_compute; discriminate|]).
    destruct Hl'.
  - split; [lia|]. exists (1100 # 2)%Q. split; [vm_compute; reflexivity|].
    intros l' Hl'. vm_compute in Hl'.
    repeat (destruct Hl' as [<- | Hl']; [vm_compute; discriminate|]).
    destruct Hl'.
  - intros (_ & l & Hn & Hall). vm_compute in Hn.
    injection Hn as <-. specialize (Hall _ Hin250).
    vm_compute in Hall. apply Hall. reflexivity.
  - intros (_ & l & Hn & Hall). vm_compute in Hn.
    injection Hn as <-. specialize (Hall _ Hin550).
    vm_compute in Hall. apply Hall. reflexivity.
  - vm_compute. reflexivity.
Qed.

(** ** Output fields that depend on the mode *)

(** C8. A call that returns has written the header field [PSF_REG]: in
    ["PSF_2D"] mode its value is the [opt_reg] attribute of the PSF object
    as the two-dimensional solve (method ["psf1d"], mode ["2D"]) left it,
    and in ["PSF_1D"] mode it is [-1]. *)
Theorem C8_header_records_the_regularisation :
  forall (C : Collaborators) fuel image spectrum signal_width ws right_edge
         w sp w',
    extract_spectrum_from_image fuel image spectrum signal_width ws
      right_edge w = Returns sp w' ->
    (PSF_EXTRACTION_MODE (parameters w) = "PSF_1D" ->
     header sp !! "PSF_REG" = Some (-1)%Q) /\
    (PSF_EXTRACTION_MODE (parameters w) = "PSF_2D" ->
     exists s_in data model err s_out wk,
       fit_chromatic_psf s_in data model err "psf1d" "2D"
         (VERBOSE (parameters w)) = Some (s_out, wk) /\
       header sp !! "PSF_REG" = Some (opt_reg s_out) /\
       option_map opt_reg (chromatic_psf sp) = Some (opt_reg s_out)).
Proof.
  intros C fuel image spectrum signal_width ws right_edge w sp w' Hrun.
  destruct (extract_spectrum_from_image_Returns _ _ _ _ _ _ _ _ _ Hrun)
    as (win & w1 & model & w2 & psf0 & s & wk & d & w3 & umodel & w4 & f &
        _ & Hwin & Hbg & _ & Hder & Hubg & Hdec & Hfin & ->).
  destruct (rotated_window_Returns _ _ _ _ _ _ Hwin)
    as (i_max & _ & _ & _ & _ & _ & Hp1 & _).
  destruct (rotated_background_Returns _ _ _ _ _ _ Hbg)
    as (res0 & log & _ & _ & _ & Hs & _).
  destruct (derotate_Returns _ _ _ _ _ _ _ _ Hder)
    as (s_rot & _ & Hbounds & _).
  destruct (unrotated_bounds_Returns _ _ _ _ _ _ _ Hbounds)
    as (i_min & i_max' & dx_min & dx_max & _ & _ & _ & _ & _ & _ & _ & _ &
        Hp3 & _).
  destruct (unrotated_background_Returns _ _ _ _ _ Hubg) as (_ & Hp4 & _).
  assert (Hmode : PSF_EXTRACTION_MODE (parameters w4)
                  = PSF_EXTRACTION_MODE (parameters w)).
  { rewrite Hp4, Hp3. unfold same_but_boxsize in Hs. rewrite Hs, Hp1.
    reflexivity. }
  assert (Hverb : VERBOSE (parameters w4) = VERBOSE (parameters w)).
  { rewrite Hp4, Hp3. unfold same_but_boxsize in Hs. rewrite Hs, Hp1.
    reflexivity. }
  destruct (deconvolve_2d_Returns _ _ _ _ _ _ _ _ _ _ _ Hdec)
    as (_ & H1d & H2d).
  destruct (finalize_Returns _ _ _ _ _ _ _ _ _ Hfin)
    as (_ & Hh & _ & (l & Hpsf) & _).
  rewrite Hmode in H1d, H2d. rewrite Hverb in H2d. split.
  - intros Hm. destruct H1d as (Hreg & _); [rewrite Hm; discriminate|].
    rewrite Hh, Hreg. apply lookup_insert_eq.
  - intros Hm. destruct (H2d Hm) as (s_in & s_out & wk' & Hfit & Hreg & Hopt & _).
    exists s_in, (w_data (unrotated_window d)), umodel,
      (w_err (unrotated_window d)), s_out, wk'.
    split; [exact Hfit|]. split.
    + rewrite Hh, Hreg. apply lookup_insert_eq.
    + rewrite Hpsf. cbn. rewrite Hopt. reflexivity.
Qed.

Lemma C8_witness :
  header
    (default Doubles.blank
       (returned
          (extract_spectrum_from_image
             (C := Doubles.collaborators Doubles.unbiased 7)
             5 (Doubles.image 100 0) Doubles.blank 1 (Some (2, 4)) 8
             (Doubles.world "PSF_1D" 20 200 500))))
  !! "PSF_REG" = Some (-1)%Q
  /\
  exists s_out,
    header
      (default Doubles.blank
         (returned
            (extract_spectrum_from_image
               (C := Doubles.collaborators Doubles.unbiased 7)
               5 (Doubles.image 100 0) Doubles.blank 1 (Some (2, 4)) 8
               (Doubles.world "PSF_2D" 20 200 500))))
    !! "PSF_REG" = Some (opt_reg s_out) /\
    opt_reg s_out = 7%Q.
Proof.
  split.
  - destruct (extract_spectrum_from_image
                (C := Doubles.collaborators Doubles.unbiased 7)
                5 (Doubles.image 100 0) Doubles.blank 1 (Some (2, 4)) 8
                (Doubles.world "PSF_1D" 20 200 500))
      as [sp w'| |] eqn:Hrun; [|vm_compute in Hrun; discriminate..].
    cbn [returned default].
    apply (proj1 (C8_header_records_the_regularisation
                    _ _ _ _ _ _ _ _ _ _ Hrun)).
    reflexivity.
  - destruct (extract_spectrum_from_image
                (C := Doubles.collaborators Doubles.unbiased 7)
                5 (Doubles.image 100 0) Doubles.blank 1 (Some (2, 4)) 8
                (Doubles.world "PSF_2D" 20 200 500))
      as [sp w'| |] eqn:Hrun; [|vm_compute in Hrun; discriminate..].
    cbn [returned default].
    destruct (proj2 (C8_header_records_the_regularisation
                       _ _ _ _ _ _ _ _ _ _ Hrun) eq_refl)
      as (s_in & data & model & err & s_out & wk & Hfit & Hh & _).
    exists s_out. split; [exact Hh|].
    cbn in Hfit. injection Hfit as <- _. reflexivity.
Defined.



(** ** Width of the crop and rows of the table *)







(** ** Names of the output files *)

Example output_names_of_the_docstring :
  output_filename "./tests/data/reduc_20170530_134.fits" "./tests/data/"
  = "./tests/data/reduc_20170530_134_spectrum.fits"%string /\
  output_filename_spectrogram "./tests/data/reduc_20170530_134.fits" "./tests/data/"
  = "./tests/data/reduc_20170530_134_spectrogram.fits"%string /\
  output_filename_psf "./tests/data/reduc_20170530_134.fits" "./tests/data/"
  = "./tests/data/reduc_20170530_134_table.csv"%string /\
  lines_filename "./tests/data/reduc_20170530_134.fits" "./tests/data/"
  = "./tests/data/reduc_20170530_134_lines.csv"%string.
Proof. repeat split; vm_compute; reflexivity. Qed.

Example str_replace_like_python :
  str_replace "aa" "b" "aaaaa" = "bba"%string /\
  str_replace "" "-" "ab" = "-a-b-"%string /\
  str_replace ".fz" "_spectrum.fits" "img.fits.fz" = "img.fits_spectrum.fits"%string /\
  last_component "a/b/" = ""%string /\
  path_join "out" "x" = "out/x"%string /\
  path_join "" "x" = "x"%string.
Proof. repeat split; vm_compute; reflexivity. Qed.

Section Strings.

Local Open Scope string_scope.
Local Arguments String.append !_ _ / : simpl nomatch.

Lemma str_app_assoc (a b c : string) : (a ++ b) ++ c = a ++ (b ++ c).
Proof.
  induction a as [|x a IH]; [reflexivity|].
  cbn [append]. rewrite IH. reflexivity.
Qed.

Lemma str_app_nil_r (a : string) : a ++ "" = a.
Proof.
  induction a as [|x a IH]; [reflexivity|].
  cbn [append]. rewrite IH. reflexivity.
Qed.

Lemma prefix_cons (c d : Ascii.ascii) (o s : string) :
  String.prefix (String c o) (String d s)
  = if Ascii.eqb c d then String.prefix o s else false.
Proof.
  cbn. destruct (Ascii.ascii_dec c d) as [->|Hne].
  - rewrite Ascii.eqb_refl. reflexivity.
  - apply Ascii.eqb_neq in Hne. rewrite Hne. reflexivity.
Qed.

Lemma prefix_refl_app (o t : string) : String.prefix o (o ++ t) = true.
Proof.
  induction o as [|c o IH]; [destruct t; reflexivity|].
  cbn [append]. rewrite prefix_cons, Ascii.eqb_refl. exact IH.
Qed.

(** A match of [o] at the head of [x ++ y] lies inside [x] or ends in [y]. *)
Lemma prefix_app_cases (x : string) :
  forall o y,
    String.prefix o (x ++ y) = true ->
    String.prefix o x = true \/
    exists o2, o = x ++ o2 /\ String.prefix o2 y = true.
Proof.
  induction x as [|d x IH]; intros o y H.
  - right. exists o. split; [reflexivity | exact H].
  - destruct o as [|e o]; [left; reflexivity|].
    cbn [append] in H. rewrite prefix_cons in H.
    destruct (Ascii.eqb_spec e d) as [->|]; [|discriminate].
    destruct (IH o y H) as [Hl | (o2 & -> & Ho2)].
    + left. rewrite prefix_cons, Ascii.eqb_refl. exact Hl.
    + right. exists o2. split; [reflexivity | exact Ho2].
Qed.

Lemma prefix_app_l (o x y : string) :
  String.prefix o x = true -> String.prefix o (x ++ y) = true.
Proof.
  revert x. induction o as [|c o IH]; intros x H; [destruct (x ++ y); reflexivity|].
  destruct x as [|d x]; [discriminate|].
  cbn [append]. rewrite prefix_cons in *.
  destruct (Ascii.eqb c d); [apply IH; exact H | discriminate].
Qed.

Lemma free_of_app c (a b : string) :
  free_of c (a ++ b) = free_of c a && free_of c b.
Proof.
  induction a as [|d a IH]; [reflexivity|].
  cbn. rewrite IH, andb_assoc. reflexivity.
Qed.

(** The characters of a match are passed over. *)
Lemma replace_from_skip old new (x : string) :
  forall t, replace_from old new (String.length x) (x ++ t)
            = replace_from old new 0 t.
Proof.
  induction x as [|c x IH]; intros t; [destruct t; reflexivity|].
  cbn. apply IH.
Qed.

(** Nothing is replaced in a part that lacks the first character of [old]. *)
Lemma replace_from_free_head c r new (a : string) :
  forall b,
    free_of c a = true ->
    replace_from (String c r) new 0 (a ++ b)
    = a ++ replace_from (String c r) new 0 b.
Proof.
  induction a as [|d a IH]; intros b H; [reflexivity|].
  cbn [free_of] in H. apply andb_prop in H. destruct H as [Hd Ha].
  apply negb_true_iff in Hd.
  cbn [append replace_from]. rewrite prefix_cons.
  rewrite Ascii.eqb_sym, Hd. rewrite (IH b Ha). reflexivity.
Qed.

(** Nothing is replaced in a string where [old] does not occur. *)
Lemma replace_from_absent old new (s : string) :
  occurs old s = false -> replace_from old new 0 s = s.
Proof.
  induction s as [|c s IH]; intros H; [reflexivity|].
  cbn [occurs] in H. apply orb_false_elim in H. destruct H as [Hp Hs].
  cbn [replace_from]. rewrite Hp, (IH Hs). reflexivity.
Qed.

(** A character that [old] lacks separates the replacements on its two
    sides. *)
Lemma replace_from_separator old new c (a : string) :
  free_of c old = true -> old <> "" ->
  forall k b,
    (k <= String.length a)%nat ->
    replace_from old new k (a ++ String c b)
    = replace_from old new k a ++ String c (replace_from old new 0 b).
Proof.
  intros Hc Hne.
  assert (Hhead : forall b, String.prefix old (String c b) = false).
  { intros b. destruct old as [|e o]; [congruence|].
    cbn [free_of] in Hc. apply andb_prop in Hc. destruct Hc as [He _].
    apply negb_true_iff in He. rewrite prefix_cons, He. reflexivity. }
  assert (Hin : forall x b,
             String.prefix old (x ++ String c b) = true ->
             String.prefix old x = true /\
             (String.length old <= String.length x)%nat).
  { clear Hhead. revert Hc. clear Hne. generalize old. clear old.
    intros old Hc x. revert old Hc.
    induction x as [|d x IH]; intros old Hc b H.
    - destruct old as [|e o]; [split; [reflexivity | cbn; lia]|].
      cbn [free_of] in Hc. apply andb_prop in Hc. destruct Hc as [He _].
      apply negb_true_iff in He. cbn [append] in H.
      rewrite prefix_cons, He in H. discriminate.
    - destruct old as [|e o]; [split; [reflexivity | cbn; lia]|].
      cbn [append] in H. rewrite prefix_cons in *.
      cbn [free_of] in Hc. apply andb_prop in Hc. destruct Hc as [_ Ho].
      destruct (Ascii.eqb e d); [|discriminate].
      destruct (IH o Ho b H) as [Hp Hl]. split; [exact Hp | cbn; lia]. }
  induction a as [|d a IH]; intros k b Hk.
  - cbn in Hk. assert (k = 0)%nat by lia. subst k.
    cbn [append replace_from]. rewrite Hhead. reflexivity.
  - cbn [append]. destruct k as [|k].
    + cbn [replace_from].
      destruct (String.prefix old (String d (a ++ String c b))) eqn:E.
      * change (String d (a ++ String c b)) with (String d a ++ String c b) in E.
        destruct (Hin _ _ E) as [Hp Hl]. rewrite Hp.
        rewrite IH by (cbn in Hl; lia). apply eq_sym, str_app_assoc.
      * destruct (String.prefix old (String d a)) eqn:E2.
        { apply (prefix_app_l _ _ (String c b)) in E2. cbn [append] in E2.
          congruence. }
        rewrite IH by lia. reflexivity.
    + cbn [replace_from]. apply IH. cbn in Hk. lia.
Qed.

(** When the first character of [old] occurs nowhere else in it and [old]
    does not occur in [a], the first match in [a ++ old ++ t] is the [old]
    that follows [a]. *)
Lemma replace_from_first_match c r new (a : string) :
  free_of c r = true ->
  forall t,
    occurs (String c r) a = false ->
    replace_from (String c r) new 0 (a ++ String c r ++ t)
    = a ++ new ++ replace_from (String c r) new 0 t.
Proof.
  intros Hr. induction a as [|d a IH]; intros t Ha.
  - cbn [append]. cbn [replace_from].
    change (String c (r ++ t)) with (String c r ++ t).
    rewrite prefix_refl_app.
    replace (String.length (String c r) - 1)%nat with (String.length r)
      by (cbn [String.length]; lia).
    rewrite replace_from_skip. reflexivity.
  - cbn [occurs] in Ha. apply orb_false_elim in Ha. destruct Ha as [Hp Ha].
    cbn [append replace_from].
    destruct (String.prefix (String c r) (String d (a ++ String c (r ++ t))))
      eqn:E.
    + exfalso.
      change (String d (a ++ String c (r ++ t)))
        with (String d a ++ String c (r ++ t)) in E.
      apply prefix_app_cases in E.
      destruct E as [E | (o2 & Ho & Ho2)]; [congruence|].
      cbn [append] in Ho. injection Ho as -> ->.
      destruct o2 as [|e o2].
      * rewrite str_app_nil_r in Hp. rewrite prefix_cons, Ascii.eqb_refl in Hp.
        rewrite <- (str_app_nil_r a) in Hp at 2.
        rewrite prefix_refl_app in Hp. discriminate.
      * rewrite prefix_cons in Ho2.
        destruct (Ascii.eqb_spec e d) as [->|]; [|discriminate].
        rewrite free_of_app in Hr. cbn [free_of] in Hr.
        rewrite Ascii.eqb_refl in Hr. cbn in Hr.
        rewrite andb_false_r in Hr. discriminate.
    + change (a ++ String c (r ++ t)) with (a ++ String c r ++ t).
      rewrite (IH t Ha). reflexivity.
Qed.

(** An occurrence of a longer string holds an occurrence of each part. *)
Lemma prefix_occurs (x : string) :
  forall y s, String.prefix (x ++ y) s = true -> occurs y s = true.
Proof.
  induction x as [|c x IH]; intros y s H.
  - destruct s; cbn [occurs]; cbn [append] in H; rewrite H; reflexivity.
  - destruct s as [|d s]; [discriminate|].
    cbn [append] in H. rewrite prefix_cons in H.
    destruct (Ascii.eqb c d); [|discriminate].
    cbn [occurs]. rewrite (IH y s H). apply orb_true_r.
Qed.

Lemma prefix_shorter (x y : string) :
  forall s, String.prefix (x ++ y) s = true -> String.prefix x s = true.
Proof.
  induction x as [|c x IH]; intros s H; [destruct s; reflexivity|].
  destruct s as [|d s]; [discriminate|].
  cbn [append] in H. rewrite prefix_cons in *.
  destruct (Ascii.eqb c d); [apply IH; exact H | discriminate].
Qed.

Lemma occurs_part (x y z s : string) :
  occurs y s = false -> occurs (x ++ y ++ z) s = false.
Proof.
  induction s as [|c s IH]; intros H.
  - cbn [occurs] in *. rewrite orb_false_r in *.
    destruct (String.prefix (x ++ y ++ z) "") eqn:E; [|reflexivity].
    apply prefix_occurs in E. cbn [occurs] in E. rewrite orb_false_r in E.
    apply prefix_shorter in E. congruence.
  - cbn [occurs] in H. apply orb_false_elim in H. destruct H as [Hp Hs].
    cbn [occurs]. rewrite (IH Hs), orb_false_r.
    destruct (String.prefix (x ++ y ++ z) (String c s)) eqn:E; [|reflexivity].
    apply prefix_occurs in E. cbn [occurs] in E.
    apply orb_prop in E. destruct E as [E | E].
    + apply prefix_shorter in E. congruence.
    + assert (occurs y s = true).
      { clear - E. induction s as [|d s IH].
        - cbn [occurs] in *. rewrite orb_false_r in *.
          apply prefix_shorter in E. exact E.
        - cbn [occurs] in *. apply orb_prop in E. destruct E as [E | E].
          + apply prefix_shorter in E. rewrite E. reflexivity.
          + rewrite (IH E). apply orb_true_r. }
      congruence.
Qed.

Lemma after_last_slash_spec (s : string) :
  match after_last_slash s with
  | Some r =>
      free_of slash r = true /\
      exists p, s = p ++ r /\ ends_with_slash p = true
  | None => free_of slash s = true
  end.
Proof.
  induction s as [|c s IH]; [reflexivity|].
  cbn [after_last_slash]. destruct (after_last_slash s) as [r|].
  - destruct IH as (Hr & p & -> & Hp). split; [exact Hr|].
    exists (String c p). split; [reflexivity|].
    cbn [ends_with_slash]. destruct p; [discriminate | exact Hp].
  - destruct (Ascii.eqb_spec c slash) as [->|Hne].
    + split; [exact IH|]. exists "/". split; reflexivity.
    + cbn [free_of]. apply Ascii.eqb_neq in Hne. rewrite Hne. exact IH.
Qed.

Lemma after_last_slash_free (n : string) :
  free_of slash n = true -> after_last_slash n = None.
Proof.
  induction n as [|c n IH]; intros H; [reflexivity|].
  cbn [free_of] in H. apply andb_prop in H. destruct H as [Hc Hn].
  apply negb_true_iff in Hc. cbn [after_last_slash].
  rewrite (IH Hn), Hc. reflexivity.
Qed.

Lemma last_component_app (p n : string) :
  p = "" \/ ends_with_slash p = true ->
  free_of slash n = true ->
  last_component (p ++ n) = n.
Proof.
  intros Hp Hn. unfold last_component.
  destruct Hp as [-> | Hp].
  - cbn [append]. rewrite (after_last_slash_free n Hn). reflexivity.
  - assert (H : after_last_slash (p ++ n) = Some n).
    { induction p as [|c p IH]; [discriminate|].
      cbn [append after_last_slash]. destruct p as [|d p].
      - cbn [append]. rewrite (after_last_slash_free n Hn).
        cbn [ends_with_slash] in Hp. rewrite Hp. reflexivity.
      - rewrite IH; [reflexivity | exact Hp]. }
    rewrite H. reflexivity.
Qed.

Lemma prefix_slash_free (b c : string) :
  free_of slash b = true -> String.prefix "/" c = false ->
  String.prefix "/" (b ++ c) = false.
Proof.
  intros Hb Hc. destruct b as [|d b]; [exact Hc|].
  cbn [free_of] in Hb. apply andb_prop in Hb. destruct Hb as [Hd _].
  apply negb_true_iff in Hd. cbn [append].
  rewrite prefix_cons, Ascii.eqb_sym. fold slash. rewrite Hd. reflexivity.
Qed.

Lemma path_join_app (a b c : string) :
  free_of slash b = true -> String.prefix "/" c = false ->
  path_join a (b ++ c) = path_join a b ++ c.
Proof.
  intros Hb Hc. unfold path_join.
  rewrite (prefix_slash_free b c Hb Hc).
  assert (Hb' : String.prefix "/" b = false).
  { rewrite <- (str_app_nil_r b). apply prefix_slash_free; [exact Hb | reflexivity]. }
  rewrite Hb'.
  destruct ((String.length a =? 0)%nat || ends_with_slash a).
  - symmetry. apply str_app_assoc.
  - rewrite !str_app_assoc. reflexivity.
Qed.

(** The three names derived from a spectrum file [path ++ "_spectrum.fits"]. *)
Lemma derived_names (path : string) :
  str_replace "spectrum" "spectrogram" (path ++ "_spectrum.fits")
  = str_replace "spectrum" "spectrogram" path ++ "_spectrogram.fits" /\
  str_replace "spectrum.fits" "table.csv" (path ++ "_spectrum.fits")
  = str_replace "spectrum.fits" "table.csv" path ++ "_table.csv".
Proof.
  unfold str_replace. split.
  - change (path ++ "_spectrum.fits") with (path ++ String "_" "spectrum.fits").
    rewrite replace_from_separator; [reflexivity | reflexivity | discriminate | lia].
  - change (path ++ "_spectrum.fits") with (path ++ String "_" "spectrum.fits").
    rewrite replace_from_separator; [reflexivity | reflexivity | discriminate | lia].
Qed.

Lemma lines_name (path : string) :
  occurs "_spectrum.fits" path = false ->
  str_replace "_spectrum.fits" "_lines.csv" (path ++ "_spectrum.fits")
  = path ++ "_lines.csv".
Proof.
  intros H. unfold str_replace.
  rewrite <- (str_app_nil_r (path ++ "_spectrum.fits")), str_app_assoc.
  rewrite (replace_from_first_match "_" "spectrum.fits" "_lines.csv" path
             eq_refl "" H).
  reflexivity.
Qed.

End Strings.

Local Open Scope string_scope.

(** X1. The name that every output file is derived from, the last
    ['/']-separated component of [file_name] (line 85), holds no ['/'], and
    [file_name] is that component after a prefix that is empty or ends in
    ['/']: the directory of the input file never reaches the output names. *)
Theorem last_component_is_the_slash_free_tail :
  forall file_name,
    free_of slash (last_component file_name) = true /\
    exists p,
      file_name = p ++ last_component file_name /\
      (p = "" \/ ends_with_slash p = true).
Proof.
  intros s. unfold last_component.
  pose proof (after_last_slash_spec s) as H.
  destruct (after_last_slash s) as [r|].
  - destruct H as (Hr & p & Hs & Hp). split; [exact Hr|].
    exists p. auto.
  - split; [exact H|]. exists "". auto.
Qed.

(** X2. For an input file [<dir/><stem>.fits] whose stem holds no ['.'] and
    no ['/'], and when ["spectrum"] occurs neither in the output directory
    nor in the stem, the four output files are [<out>/<stem>] followed by
    [_spectrum.fits], [_spectrogram.fits], [_table.csv] and [_lines.csv]. *)
Theorem output_names_of_a_fits_image :
  forall dir stem out,
    dir = "" \/ ends_with_slash dir = true ->
    free_of "." stem = true ->
    free_of slash stem = true ->
    occurs "spectrum" (path_join out stem) = false ->
    output_filename (dir ++ stem ++ ".fits") out
    = path_join out stem ++ "_spectrum.fits" /\
    output_filename_spectrogram (dir ++ stem ++ ".fits") out
    = path_join out stem ++ "_spectrogram.fits" /\
    output_filename_psf (dir ++ stem ++ ".fits") out
    = path_join out stem ++ "_table.csv" /\
    lines_filename (dir ++ stem ++ ".fits") out
    = path_join out stem ++ "_lines.csv".
Proof.
  intros dir stem out Hdir Hdot Hslash Hfree.
  assert (Hname : output_filename (dir ++ stem ++ ".fits") out
                  = path_join out stem ++ "_spectrum.fits").
  { unfold output_filename.
    rewrite (last_component_app dir (stem ++ ".fits") Hdir)
      by (rewrite free_of_app, Hslash; reflexivity).
    unfold str_replace.
    rewrite (replace_from_free_head "." "fits" _ stem ".fits" Hdot).
    change (replace_from ".fits" "_spectrum.fits" 0 ".fits")
      with "_spectrum.fits".
    rewrite (replace_from_free_head "." "fz" _ stem "_spectrum.fits" Hdot).
    change (replace_from ".fz" "_spectrum.fits" 0 "_spectrum.fits")
      with "_spectrum.fits".
    apply path_join_app; [exact Hslash | reflexivity]. }
  unfold output_filename_spectrogram, output_filename_psf, lines_filename.
  rewrite Hname.
  destruct (derived_names (path_join out stem)) as [Hs Hp].
  split; [reflexivity|]. split; [|split].
  - rewrite Hs. unfold str_replace.
    rewrite (replace_from_absent _ _ _ Hfree). reflexivity.
  - rewrite Hp. unfold str_replace.
    rewrite (replace_from_absent "spectrum.fits" _ (path_join out stem));
      [reflexivity|].
    apply (occurs_part "" "spectrum" ".fits"). exact Hfree.
  - apply lines_name.
    apply (occurs_part "_" "spectrum" ".fits"). exact Hfree.
Qed.

Lemma output_names_of_a_fits_image_witness :
  output_filename ("./tests/data/" ++ "reduc_20170530_134" ++ ".fits") "out"
  = path_join "out" "reduc_20170530_134" ++ "_spectrum.fits" /\
  lines_filename ("./tests/data/" ++ "reduc_20170530_134" ++ ".fits") "out"
  = "out/reduc_20170530_134_lines.csv".
Proof.
  destruct (output_names_of_a_fits_image "./tests/data/" "reduc_20170530_134"
              "out") as (H1 & _ & _ & H4);
    [right; reflexivity | reflexivity | reflexivity | reflexivity |].
  split; [exact H1 | rewrite H4; reflexivity].
Defined.

(** X3. Lines 89-90 rewrite the whole joined path, not only its suffix:
    when the spectrum file is [path ++ "_spectrum.fits"], the spectrogram
    file is [path] with every ["spectrum"] replaced by ["spectrogram"],
    followed by [_spectrogram.fits], and the table file is [path] with every
    ["spectrum.fits"] replaced by ["table.csv"], followed by [_table.csv].
    An output directory or stem that holds ["spectrum"] is therefore
    renamed. *)
Theorem derived_names_rewrite_the_whole_path :
  forall file_name out path,
    output_filename file_name out = path ++ "_spectrum.fits" ->
    output_filename_spectrogram file_name out
    = str_replace "spectrum" "spectrogram" path ++ "_spectrogram.fits" /\
    output_filename_psf file_name out
    = str_replace "spectrum.fits" "table.csv" path ++ "_table.csv".
Proof.
  intros file_name out path H.
  unfold output_filename_spectrogram, output_filename_psf. rewrite H.
  apply derived_names.
Qed.

Lemma derived_names_rewrite_the_whole_path_witness :
  output_filename "img.fits" "spectrum_out"
  = "spectrum_out/img" ++ "_spectrum.fits" /\
  output_filename_spectrogram "img.fits" "spectrum_out"
  = "spectrogram_out/img_spectrogram.fits".
Proof.
  split; [reflexivity|].
  rewrite (proj1 (derived_names_rewrite_the_whole_path
                    "img.fits" "spectrum_out" "spectrum_out/img" eq_refl)).
  reflexivity.
Defined.

(** X4. An input name without any ['.'] (so with neither [.fits] nor [.fz])
    gets no suffix: when ["spectrum"] does not occur in the joined path
    either, the spectrum file, the spectrogram file, the table file and the
    lines file all have the same path, that of the input name in the output
    directory. *)
Theorem output_names_coincide_without_extension :
  forall dir name out,
    dir = "" \/ ends_with_slash dir = true ->
    free_of "." name = true ->
    free_of slash name = true ->
    occurs "spectrum" (path_join out name) = false ->
    output_filename (dir ++ name) out = path_join out name /\
    output_filename_spectrogram (dir ++ name) out = path_join out name /\
    output_filename_psf (dir ++ name) out = path_join out name /\
    lines_filename (dir ++ name) out = path_join out name.
Proof.
  intros dir name out Hdir Hdot Hslash Hfree.
  assert (Hname : output_filename (dir ++ name) out = path_join out name).
  { unfold output_filename.
    rewrite (last_component_app dir name Hdir Hslash). unfold str_replace.
    rewrite <- (str_app_nil_r name) at 1.
    rewrite (replace_from_free_head "." "fits" _ name "" Hdot).
    rewrite (replace_from_free_head "." "fz" _ name _ Hdot).
    cbn [replace_from]. rewrite str_app_nil_r. reflexivity. }
  unfold output_filename_spectrogram, output_filename_psf, lines_filename.
  rewrite Hname. unfold str_replace. split; [reflexivity|].
  split; [|split].
  - apply replace_from_absent. exact Hfree.
  - apply replace_from_absent.
    apply (occurs_part "" "spectrum" ".fits"). exact Hfree.
  - apply replace_from_absent.
    apply (occurs_part "_" "spectrum" ".fits"). exact Hfree.
Qed.

Lemma output_names_coincide_without_extension_witness :
  output_filename ("data/" ++ "image_fit") "out" = "out/image_fit" /\
  output_filename_spectrogram ("data/" ++ "image_fit") "out" = "out/image_fit" /\
  output_filename_psf ("data/" ++ "image_fit") "out" = "out/image_fit".
Proof.
  destruct (output_names_coincide_without_extension "data/" "image_fit" "out")
    as (H1 & H2 & H3 & _);
    [right; reflexivity | reflexivity | reflexivity | reflexivity |].
  rewrite H1, H2, H3. repeat split.
Defined.

(** X5. Compressed inputs. A name [<stem>.fz] gives [<stem>_spectrum.fits],
    like [<stem>.fits]; but for [<stem>.fits.fz] both replacements of lines
    86-87 apply in turn and the spectrum file is
    [<stem>_spectrum.fits_spectrum.fits]. The stem holds no ['.'] and no
    ['/']. *)
Theorem output_name_of_a_compressed_image :
  forall dir stem out,
    dir = "" \/ ends_with_slash dir = true ->
    free_of "." stem = true ->
    free_of slash stem = true ->
    output_filename (dir ++ stem ++ ".fz") out
    = path_join out stem ++ "_spectrum.fits" /\
    output_filename (dir ++ stem ++ ".fits.fz") out
    = path_join out stem ++ "_spectrum.fits_spectrum.fits".
Proof.
  intros dir stem out Hdir Hdot Hslash. unfold output_filename. split.
  - rewrite (last_component_app dir (stem ++ ".fz") Hdir)
      by (rewrite free_of_app, Hslash; reflexivity).
    unfold str_replace.
    rewrite (replace_from_free_head "." "fits" _ stem ".fz" Hdot).
    change (replace_from ".fits" "_spectrum.fits" 0 ".fz") with ".fz".
    rewrite (replace_from_free_head "." "fz" _ stem ".fz" Hdot).
    change (replace_from ".fz" "_spectrum.fits" 0 ".fz") with "_spectrum.fits".
    apply path_join_app; [exact Hslash | reflexivity].
  - rewrite (last_component_app dir (stem ++ ".fits.fz") Hdir)
      by (rewrite free_of_app, Hslash; reflexivity).
    unfold str_replace.
    rewrite (replace_from_free_head "." "fits" _ stem ".fits.fz" Hdot).
    change (replace_from ".fits" "_spectrum.fits" 0 ".fits.fz")
      with "_spectrum.fits.fz".
    rewrite (replace_from_free_head "." "fz" _ stem "_spectrum.fits.fz" Hdot).
    change (replace_from ".fz" "_spectrum.fits" 0 "_spectrum.fits.fz")
      with "_spectrum.fits_spectrum.fits".
    apply path_join_app; [exact Hslash | reflexivity].
Qed.

Lemma output_name_of_a_compressed_image_witness :
  output_filename ("" ++ "img" ++ ".fits.fz") "out"
  = "out/img_spectrum.fits_spectrum.fits".
Proof.
  rewrite (proj2 (output_name_of_a_compressed_image "" "img" "out"
                    (or_introl eq_refl) eq_refl eq_refl)).
  reflexivity.
Defined.

Local Close Scope string_scope.

(** ** Background rows *)

Lemma In_arange a b i : In i (arange a b) <-> a <= i < b.
Proof.
  unfold arange. rewrite in_map_iff. split.
  - intros (k & <- & Hk). apply in_seq in Hk. lia.
  - intros H. exists (Z.to_nat (i - a)). split; [lia|].
    apply in_seq. lia.
Qed.

Lemma NoDup_arange a b : List.NoDup (arange a b).
Proof.
  unfold arange. apply Finite.Injective_map_NoDup; [|apply seq_NoDup].
  intros x y H. lia.
Qed.

Lemma length_arange a b : length (arange a b) = Z.to_nat (b - a).
Proof. unfold arange. rewrite length_map, length_seq. reflexivity. Qed.

(** X6. For a non-negative inner distance [ws[0]], the background rows of
    line 196 are exactly the rows of the crop that lie outside the band of
    half-width [ws[0]] around the middle row [Ny // 2]; each is listed
    once. *)
Theorem bgd_index_is_the_crop_without_the_central_band :
  forall Ny ws,
    0 <= fst ws ->
    (forall i,
       In i (bgd_index Ny ws) <->
       0 <= i < Ny /\ ~ (Ny / 2 - fst ws <= i < Ny / 2 + fst ws)) /\
    List.NoDup (bgd_index Ny ws).
Proof.
  intros Ny ws Hw.
  pose proof (Z.div_mod Ny 2 ltac:(lia)) as Hdiv.
  pose proof (Z.mod_pos_bound Ny 2 ltac:(lia)) as Hmod.
  unfold bgd_index. split.
  - intros i. rewrite in_app_iff, !In_arange. lia.
  - apply List.NoDup_app; [apply NoDup_arange | apply NoDup_arange |].
    intros i H1 H2. apply In_arange in H1. apply In_arange in H2. lia.
Qed.

Lemma bgd_index_is_the_crop_without_the_central_band_witness :
  (In 7 (bgd_index 8 (2, 4)) <->
   0 <= 7 < 8 /\ ~ (8 / 2 - fst (2, 4) <= 7 < 8 / 2 + fst (2, 4))) /\
  List.NoDup (bgd_index 8 (2, 4)).
Proof.
  destruct (bgd_index_is_the_crop_without_the_central_band 8 (2, 4))
    as [Hin Hnd]; [cbn; lia|].
  split; [apply Hin | exact Hnd].
Defined.

Section Background.

Context {C : Collaborators}.

Lemma axis_index_inside n i : 0 <= i < n -> axis_index n i = Some i.
Proof.
  intros H. unfold axis_index.
  destruct (Z.ltb_spec i (- n)); [lia|].
  destruct (Z.leb_spec n i); [lia|].
  destruct (Z.ltb_spec i 0); [lia|]. reflexivity.
Qed.

Lemma pull_rows_inside data bgd err index :
  Forall (fun i => 0 <= i < fst (shape data)) index ->
  pull_rows data bgd err index = Some (map (pull_row data bgd err) index).
Proof.
  induction 1 as [|i index Hi _ IH]; [reflexivity|].
  cbn [pull_rows map]. rewrite (axis_index_inside _ _ Hi), IH. reflexivity.
Qed.

Lemma bgd_index_inside Ny ws :
  0 <= fst ws -> Forall (fun i => 0 <= i < Ny) (bgd_index Ny ws).
Proof.
  intros Hw. apply List.Forall_forall. intros i Hi.
  pose proof (Z.div_mod Ny 2 ltac:(lia)) as Hdiv.
  pose proof (Z.mod_pos_bound Ny 2 ltac:(lia)) as Hmod.
  unfold bgd_index in Hi. apply in_app_iff in Hi.
  rewrite !In_arange in Hi. lia.
Qed.

Lemma refit_pull_total data err ws p :
  0 <= fst ws ->
  exists r,
    refit_pull data err ws (bgd_index (fst (shape data)) ws) p = Some r.
Proof.
  intros Hw. unfold refit_pull.
  rewrite (pull_rows_inside _ _ _ _ (bgd_index_inside _ _ Hw)).
  eexists. reflexivity.
Qed.

(** X7. For a non-negative [ws[0]] the selection of the background rows of
    the pull (lines 198 and 208) cannot fail: it returns, in the world it
    was given, one row per background row, each with one entry per column
    of the crop. *)
Theorem background_pull_has_one_row_per_background_row :
  forall data err model ws w,
    0 <= fst ws ->
    exists res,
      bgd_residuals data err model (bgd_index (fst (shape data)) ws) w
      = Returns res w /\
      length res = length (bgd_index (fst (shape data)) ws) /\
      Forall (fun row => length row = Z.to_nat (snd (shape data))) res.
Proof.
  intros data err model ws w Hw. unfold bgd_residuals.
  rewrite (pull_rows_inside _ _ _ _ (bgd_index_inside _ _ Hw)).
  eexists. split; [reflexivity|]. split; [apply length_map|].
  apply List.Forall_forall. intros row Hrow. apply in_map_iff in Hrow.
  destruct Hrow as (y & <- & _). unfold pull_row.
  rewrite length_map, length_arange. f_equal. lia.
Qed.

Section Floor.

Variables (data err : ndarray) (ws : Z * Z) (index : list Z).
Variable p5 : Settings.

Hypothesis refit_total :
  forall p, exists r, refit_pull data err ws index p = Some r.

Hypothesis floor_accepted :
  forall r, refit_pull data err ws index p5 = Some r -> pull_rejected r = false.

Lemma set_boxsize_twice a b p : set_boxsize a (set_boxsize b p) = set_boxsize a p.
Proof. destruct p; reflexivity. Qed.

Lemma refine_background_ends_by_the_floor n :
  forall model res w,
    set_boxsize 5 (parameters w) = p5 ->
    refit_pull data err ws index (parameters w) = Some res ->
    boxsize w <= 5 * 2 ^ Z.of_nat n ->
    exists m r w',
      refine_background n data err ws index model res w = Returns (m, r) w'.
Proof.
  assert (Hat : forall w res,
             set_boxsize 5 (parameters w) = p5 ->
             refit_pull data err ws index (parameters w) = Some res ->
             boxsize w = 5 -> pull_rejected res = false).
  { intros w res H5 Hres Hb. apply floor_accepted.
    rewrite <- H5. unfold boxsize in Hb. rewrite <- Hb, set_boxsize_same.
    exact Hres. }
  induction n as [|n IH]; intros model res w H5 Hres Hb.
  - change (5 * 2 ^ Z.of_nat 0) with 5 in Hb.
    destruct (Z.eq_dec (boxsize w) 5) as [E|E].
    + rewrite refine_background_accepts by (eapply Hat; eassumption).
      eauto.
    + rewrite refine_background_below_floor by lia. eauto.
  - destruct (pull_rejected res) eqn:Hrej;
      [|rewrite refine_background_accepts by exact Hrej; eauto].
    destruct (Z.lt_ge_cases (boxsize w) 5) as [Hlt|Hge];
      [rewrite refine_background_below_floor by exact Hlt; eauto|].
    rewrite refine_background_unfold, Hrej.
    replace (5 <=? boxsize w) with true by (symmetry; apply Z.leb_le; exact Hge).
    cbn [andb].
    destruct (refit_total (parameters (after_refit w))) as [res' Hres'].
    rewrite Hres'. apply IH.
    + cbn [after_refit parameters]. rewrite set_boxsize_twice. exact H5.
    + exact Hres'.
    + rewrite boxsize_after_refit.
      rewrite Nat2Z.inj_succ, Z.pow_succ_r in Hb by lia.
      assert (0 < 2 ^ Z.of_nat n) by (apply Z.pow_pos_nonneg; lia).
      assert (boxsize w / 2 <= 5 * 2 ^ Z.of_nat n)
        by (apply Z.div_le_upper_bound; lia).
      lia.
Qed.

End Floor.

(** X8. The refinement of lines 196-208 ends when the fit made with the
    smallest box, 5 pixels, earns an accepted pull: for a non-negative
    [ws[0]] and a box size of at most [5 * 2 ^ n] at entry, [n] halvings
    are enough, and the background of the rotated crop is returned. *)
Theorem rotated_background_returns_when_the_floor_fit_is_accepted :
  forall n win ws w,
    0 <= fst ws ->
    boxsize w <= 5 * 2 ^ Z.of_nat n ->
    match refit_pull (w_data win) (w_err win) ws
            (bgd_index (fst (shape (w_data win))) ws)
            (set_boxsize 5 (parameters w)) with
    | Some r => pull_rejected r = false
    | None => True
    end ->
    exists model w', rotated_background n win ws w = Returns model w'.
Proof.
  intros n win ws w Hw Hb Hfloor.
  set (data := w_data win) in *. set (err := w_err win) in *.
  set (index := bgd_index (fst (shape data)) ws) in *.
  destruct (refit_pull_total data err ws (parameters w) Hw) as [res Hres].
  fold index in Hres.
  destruct (refine_background_ends_by_the_floor data err ws index
              (set_boxsize 5 (parameters w))
              (fun p => refit_pull_total data err ws p Hw)
              ltac:(intros r Hr; fold index in Hfloor; rewrite Hr in Hfloor;
                    exact Hfloor)
              n
              (extract_spectrogram_background_sextractor
                 (parameters w) data err ws)
              res
              {| parameters := parameters w;
                 effects := (effects w
                             ++ [BackgroundFit rotated (boxsize w)])
                            ++ [Warning (boxsize w)] |}
              eq_refl Hres Hb)
    as (m & r & w' & Hloop).
  exists m, w'.
  unfold rotated_background, bgd_residuals, background_fit, bind,
    get_parameters, emit, ret, of_option; cbn.
  fold data err index. unfold refit_pull in Hres. rewrite Hres.
  unfold ret; cbn. unfold boxsize in Hloop. rewrite Hloop. reflexivity.
Qed.

End Background.

Lemma background_pull_has_one_row_per_background_row_witness :
  exists res,
    bgd_residuals (Doubles.flat 8 3 100) (Doubles.flat 8 3 1) (fun _ _ => 97%Q)
      (bgd_index 8 (2, 4)) (Doubles.world "PSF_1D" 20 200 500)
    = Returns res (Doubles.world "PSF_1D" 20 200 500) /\
    length res = length (bgd_index 8 (2, 4)) /\
    Forall (fun row => length row = 3%nat) res.
Proof.
  apply (background_pull_has_one_row_per_background_row
           (Doubles.flat 8 3 100) (Doubles.flat 8 3 1) (fun _ _ => 97%Q)
           (2, 4) (Doubles.world "PSF_1D" 20 200 500)).
  cbn. lia.
Defined.

Lemma rotated_background_returns_when_the_floor_fit_is_accepted_witness :
  exists model w',
    rotated_background (C := Doubles.collaborators Doubles.off_when_wide 0)
      2
      {| w_data := Doubles.flat 8 3 100; w_err := Doubles.flat 8 3 1;
         xmin := 2; xmax := 5; ymin := 2; ymax := 10 |}
      (2, 4) (Doubles.world "PSF_1D" 20 200 500)
    = Returns model w'.
Proof.
  apply (rotated_background_returns_when_the_floor_fit_is_accepted
           (C := Doubles.collaborators Doubles.off_when_wide 0) 2).
  - cbn. lia.
  - vm_compute. discriminate.
  - vm_compute. reflexivity.
Defined.

(** ** The crop of the rotated frame *)

Section RotatedCrop.

Context {C : Collaborators}.

Lemma rotated_window_rows image ws right_edge w win w1 :
  rotated_window image ws right_edge w = Returns win w1 ->
  ymin win
  = Z.max 0 (int_of_float (snd (target_pixcoords_rotated image)) - snd ws) /\
  ymax win
  = Z.min (fst (shape (data_rotated image)))
      (int_of_float (snd (target_pixcoords_rotated image)) + snd ws).
Proof.
  unfold rotated_window. intros H.
  inv_bind H as u1 wa E1. inv_prim E1.
  inv_bind H as u2 wb E2. inv_prim E2.
  inv_bind H as p wc E3. inv_prim E3.
  inv_bind H as i_min wd E4. inv_prim E4.
  inv_bind H as i_max we E5. inv_prim E5.
  cbn in H. inversion H; subst; clear H. cbn. split; reflexivity.
Qed.

Lemma crop_rows a ylo yhi xlo xhi :
  0 <= ylo <= yhi -> yhi <= fst (shape a) ->
  fst (shape (crop a ylo yhi xlo xhi)) = yhi - ylo.
Proof.
  intros H1 H2. unfold crop, slice_range, slice_bound. cbn.
  destruct (Z.ltb_spec ylo 0); [lia|].
  destruct (Z.ltb_spec yhi 0); lia.
Qed.

(** X9. When the row of the target lies inside the rotated frame and
    [ws[1]] is positive, the crop of lines 173-187 keeps the rows from
    [ymin] to [ymax], which lie inside the frame and contain the target
    row, at most [2 * ws[1]] of them. When the target is at least [ws[1]]
    rows away from both edges of the frame the crop has exactly
    [2 * ws[1]] rows and its middle row [Ny // 2], around which the
    background rows are taken, is the row of the target. *)
Theorem rotated_crop_rows_surround_the_target :
  forall image ws right_edge w win w1,
    rotated_window image ws right_edge w = Returns win w1 ->
    0 <= int_of_float (snd (target_pixcoords_rotated image))
      < fst (shape (data_rotated image)) ->
    0 < snd ws ->
    let Ny := fst (shape (data_rotated image)) in
    let y0 := int_of_float (snd (target_pixcoords_rotated image)) in
    0 <= ymin win <= y0 /\ y0 < ymax win <= Ny /\
    fst (shape (w_data win)) = ymax win - ymin win /\
    fst (shape (w_data win)) <= 2 * snd ws /\
    (snd ws <= y0 <= Ny - snd ws ->
     fst (shape (w_data win)) = 2 * snd ws /\
     fst (shape (w_data win)) / 2 = y0 - ymin win).
Proof.
  intros image ws right_edge w win w1 Hrun Hy Hws Ny y0.
  destruct (rotated_window_rows _ _ _ _ _ _ Hrun) as [Hmin Hmax].
  destruct (rotated_window_Returns _ _ _ _ _ _ Hrun)
    as (i_max & _ & _ & _ & Hdata & _).
  fold Ny y0 in Hmin, Hmax, Hy.
  assert (Hrows : fst (shape (w_data win)) = ymax win - ymin win).
  { rewrite Hdata. apply crop_rows; cbn; fold Ny; lia. }
  split; [lia|]. split; [lia|]. split; [exact Hrows|]. split; [lia|].
  intros Hin. assert (E : fst (shape (w_data win)) = snd ws * 2) by lia.
  split; [lia|]. rewrite E, Z.div_mul by lia. lia.
Qed.

(** X10. When the rotated frame has no column left of [right_edge] (for
    instance [right_edge = 0]), a call in a supported mode raises
    [ValueError] at the [argmin] of line 182: the two rotated
    arrays have been copied, no background has been fitted and the
    settings are untouched. *)
Theorem empty_rotated_frame_raises_ValueError :
  forall fuel image spectrum signal_width ws right_edge w,
    PSF_EXTRACTION_MODE (parameters w) = "PSF_1D" \/
    PSF_EXTRACTION_MODE (parameters w) = "PSF_2D" ->
    snd (shape (upto_right_edge (data_rotated image) right_edge)) = 0 ->
    extract_spectrum_from_image fuel image spectrum signal_width ws
      right_edge w
    = Raises ValueError
        {| parameters := parameters w;
           effects := (effects w ++ [ReadArray "data_rotated"])
                      ++ [ReadArray "stat_errors_rotated"] |}.
Proof.
  intros fuel image spectrum signal_width ws right_edge w Hmode Hempty.
  unfold extract_spectrum_from_image.
  rewrite (bind_of_Returns _ _ _ _ _ (check_mode_supported w Hmode)).
  cbv zeta. unfold rotated_window, rotated_lambdas. rewrite Hempty.
  reflexivity.
Qed.

End RotatedCrop.

Lemma rotated_crop_rows_surround_the_target_witness :
  match rotated_window (Doubles.image 100 0) (2, 4) 8
          (Doubles.world "PSF_1D" 20 200 500) with
  | Returns win _ =>
      0 <= ymin win <= 6 /\ 6 < ymax win <= 12 /\
      fst (shape (w_data win)) = ymax win - ymin win /\
      fst (shape (w_data win)) <= 2 * 4 /\
      (4 <= 6 <= 12 - 4 ->
       fst (shape (w_data win)) = 2 * 4 /\
       fst (shape (w_data win)) / 2 = 6 - ymin win)
  | _ => False
  end.
Proof.
  destruct (rotated_window (Doubles.image 100 0) (2, 4) 8
              (Doubles.world "PSF_1D" 20 200 500))
    as [win w1| |] eqn:Hrun; [|vm_compute in Hrun; discriminate..].
  apply (rotated_crop_rows_surround_the_target _ _ _ _ _ _ Hrun).
  - vm_compute. split; [discriminate | reflexivity].
  - cbn. lia.
Defined.

Lemma empty_rotated_frame_raises_ValueError_witness :
  extract_spectrum_from_image
    (C := Doubles.collaborators Doubles.unbiased 0)
    3 (Doubles.image 100 0) Doubles.blank 1 (Some (2, 4)) 0
    (Doubles.world "PSF_1D" 20 200 500)
  = Raises ValueError
      {| parameters := Doubles.settings "PSF_1D" 20 200 500;
         effects := [ReadArray "data_rotated";
                     ReadArray "stat_errors_rotated"] |}.
Proof.
  apply (empty_rotated_frame_raises_ValueError
           (C := Doubles.collaborators Doubles.unbiased 0)
           3 (Doubles.image 100 0) Doubles.blank 1 (Some (2, 4)) 0
           (Doubles.world "PSF_1D" 20 200 500)).
  - left. reflexivity.
  - reflexivity.
Defined.

(** ** What any run does to the settings *)

Lemma settings_kept_refl w : settings_kept w w.
Proof.
  split; [|lia]. unfold same_but_boxsize. symmetry. apply set_boxsize_same.
Qed.

Lemma settings_kept_trans w1 w2 w3 :
  settings_kept w1 w2 -> settings_kept w2 w3 -> settings_kept w1 w3.
Proof.
  unfold settings_kept, same_but_boxsize. intros [H1 L1] [H2 L2].
  split; [|lia].
  set (b3 := PIXWIDTH_BOXSIZE (parameters w3)) in *. clearbody b3.
  rewrite H2, H1. apply set_boxsize_twice.
Qed.

Lemma settings_kept_same w w' :
  parameters w' = parameters w -> settings_kept w w'.
Proof.
  intros H. unfold settings_kept, boxsize. rewrite H.
  apply (settings_kept_refl w).
Qed.

Lemma keeps_bind {A B : Type} (m : M A) (k : A -> M B) :
  keeps_settings m -> (forall a, keeps_settings (k a)) ->
  keeps_settings (bind m k).
Proof.
  intros Hm Hk w. unfold bind. specialize (Hm w).
  destruct (m w) as [a w1|e w1|w1]; cbn [final_world] in *; try exact Hm.
  eapply settings_kept_trans; [exact Hm | apply Hk].
Qed.

Lemma keeps_ret {A : Type} (a : A) : keeps_settings (ret a).
Proof. intros w. apply settings_kept_refl. Qed.

Lemma keeps_raise {A : Type} e : keeps_settings (@raise A e).
Proof. intros w. apply settings_kept_refl. Qed.

Lemma keeps_out_of_fuel {A : Type} : keeps_settings (@out_of_fuel A).
Proof. intros w. apply settings_kept_refl. Qed.

Lemma keeps_emit e : keeps_settings (emit e).
Proof. intros w. apply settings_kept_same. reflexivity. Qed.

Lemma keeps_get : keeps_settings get_parameters.
Proof. intros w. apply settings_kept_refl. Qed.

Lemma keeps_of_option {A : Type} e (o : option A) :
  keeps_settings (of_option e o).
Proof. intros w. destruct o; apply settings_kept_refl. Qed.

Lemma keeps_column t v : keeps_settings (column t v).
Proof.
  intros w. unfold column. destruct (_ =? _); apply settings_kept_refl.
Qed.

Ltac keeps_step :=
  cbv zeta;
  lazymatch goal with
  | |- keeps_settings (bind _ _) => apply keeps_bind; [ | intros ? ]
  | |- keeps_settings (ret _) => apply keeps_ret
  | |- keeps_settings (raise _) => apply keeps_raise
  | |- keeps_settings (emit _) => apply keeps_emit
  | |- keeps_settings get_parameters => apply keeps_get
  | |- keeps_settings out_of_fuel => apply keeps_out_of_fuel
  | |- keeps_settings (of_option _ _) => apply keeps_of_option
  | |- keeps_settings (column _ _) => apply keeps_column
  | |- keeps_settings (if ?b then _ else _) => destruct b
  | |- keeps_settings (match ?x with (_, _) => _ end) => destruct x
  end.

Section Outcomes.

Context {C : Collaborators}.

Lemma keeps_background_fit f data err ws :
  keeps_settings (background_fit f data err ws).
Proof. unfold background_fit. repeat keeps_step. Qed.

Lemma keeps_refine fuel data err ws index model res :
  keeps_settings (refine_background fuel data err ws index model res).
Proof.
  intros w. destruct (Z.lt_ge_cases (boxsize w) 5) as [Hlt|Hge].
  - rewrite refine_background_below_floor by exact Hlt.
    apply settings_kept_refl.
  - destruct (refine_background_log data err ws index fuel model res w Hge)
      as (log & _ & _ & Hn & _ & _ & Hl & Hs).
    split; [exact Hs|]. rewrite Hl. apply non_increasing_last. exact Hn.
Qed.

Lemma keeps_extract fuel image spectrum signal_width ws right_edge :
  keeps_settings
    (extract_spectrum_from_image fuel image spectrum signal_width ws
       right_edge).
Proof.
  unfold extract_spectrum_from_image.
  keeps_step; [unfold check_mode; repeat keeps_step|].
  keeps_step; [unfold rotated_window; repeat keeps_step|].
  keeps_step.
  { unfold rotated_background, bgd_residuals. repeat keeps_step;
      try apply keeps_background_fit; apply keeps_refine. }
  keeps_step; [unfold fit_1d; repeat keeps_step|].
  do 2 keeps_step.
  keeps_step;
    [unfold derotate, derotate_table, unrotated_bounds; repeat keeps_step|].
  keeps_step; [apply keeps_background_fit|].
  keeps_step; [unfold deconvolve_2d; repeat keeps_step|].
  unfold finalize; repeat keeps_step.
Qed.

(** X11. However a call ends (with a spectrum, with an exception or cut
    short inside the refinement loop), the only setting it may have written
    is [parameters.PIXWIDTH_BOXSIZE], and it never leaves it larger than it
    found it. *)
Theorem every_outcome_keeps_the_other_settings :
  forall fuel image spectrum signal_width ws right_edge w,
    same_but_boxsize (parameters w)
      (parameters
         (final_world
            (extract_spectrum_from_image fuel image spectrum signal_width
               ws right_edge w))) /\
    boxsize
      (final_world
         (extract_spectrum_from_image fuel image spectrum signal_width ws
            right_edge w))
    <= boxsize w.
Proof.
  intros fuel image spectrum signal_width ws right_edge w.
  apply (keeps_extract fuel image spectrum signal_width ws right_edge w).
Qed.

End Outcomes.

(** ** A failing transverse fit *)



(** ** The fields of the returned spectrum *)

Section Fields.

Context {C : Collaborators}.

Lemma finalize_eq image spectrum d win bgd f w sp w1 :
  finalize image spectrum d win bgd f w = Returns sp w1 ->
  Z.of_nat
    (length (to_lambdas image (get_distance_along_dispersion_axis (f_psf f))))
  = rows (table (f_psf f)) /\
  sp = {| pixels := f_pixels f;
          spec_data := f_data f;
          spec_err := f_err f;
          cov_matrix := f_cov f;
          chromatic_psf :=
            Some (with_table (f_psf f)
                    (set_lambdas (table (f_psf f))
                       (to_lambdas image
                          (get_distance_along_dispersion_axis (f_psf f)))));
          spec_lambdas :=
            to_lambdas image (get_distance_along_dispersion_axis (f_psf f));
          spectrogram := Some (w_data win);
          spectrogram_err := Some (w_err win);
          spectrogram_bgd := Some bgd;
          spectrogram_fit := f_fit f;
          spectrogram_residuals := f_residuals f;
          spectrogram_x0 := fst (d_target d);
          spectrogram_y0 := snd (d_target d);
          spectrogram_xmin := xmin win;
          spectrogram_xmax := xmax win;
          spectrogram_ymin := ymin win;
          spectrogram_ymax := ymax win;
          spectrogram_deg := deg (f_psf f);
          spectrogram_saturation := psf_saturation (f_psf f);
          header := <["PSF_REG" := f_opt_reg f]> (header spectrum) |}.
Proof.
  unfold finalize. intros H.
  inv_bind H as l wa E1. inv_prim E1.
  cbn in H. inversion H; subst; clear H. split; [exact E1 | reflexivity].
Qed.

Lemma unrotated_bounds_rows image s ws right_edge w b w1 :
  unrotated_bounds image s ws right_edge w = Returns b w1 ->
  0 <= ymin b /\ ymax b <= fst (shape (data image)).
Proof.
  unfold unrotated_bounds. intros H.
  inv_bind H as u1 wa E1. inv_prim E1.
  inv_bind H as u2 wb E2. inv_prim E2.
  inv_bind H as dmax wc E3. inv_prim E3.
  inv_bind H as dmin wd E4. inv_prim E4.
  inv_bind H as p we E5. inv_prim E5.
  inv_bind H as i_min wf E6. inv_prim E6.
  inv_bind H as i_max wg E7. inv_prim E7.
  inv_bind H as dx_min wh E8. inv_prim E8.
  inv_bind H as dx_max wi E9. inv_prim E9.
  cbn in H. inversion H; subst; clear H. cbn. lia.
Qed.

Lemma mode_of_a_returning_call
  fuel image spectrum signal_width ws right_edge w sp w' :
  extract_spectrum_from_image fuel image spectrum signal_width ws right_edge w
  = Returns sp w' ->
  PSF_EXTRACTION_MODE (parameters w') = PSF_EXTRACTION_MODE (parameters w) /\
  VERBOSE (parameters w') = VERBOSE (parameters w).
Proof.
  intros Hrun.
  destruct (keeps_extract fuel image spectrum signal_width ws right_edge w)
    as [Hs _].
  rewrite Hrun in Hs. cbn [final_world] in Hs.
  unfold same_but_boxsize in Hs. rewrite Hs. split; reflexivity.
Qed.

(** X13. The arrays stored in a returned spectrum are the raw image and
    its errors, cut at [right_edge] and cropped at the four stored bounds
    (lines 282-283 and 348-356); the stored background has the shape of
    the stored spectrogram; [spectrogram_x0] and [spectrogram_y0] are the
    target position minus [spectrogram_xmin] and [spectrogram_ymin]; and
    the bounds satisfy [0 <= ymin], [ymax <= Ny] and [xmax <= right_edge]. *)
Theorem stored_arrays_are_the_crop_at_the_stored_bounds :
  forall fuel image spectrum signal_width ws right_edge w sp w',
    extract_spectrum_from_image fuel image spectrum signal_width ws
      right_edge w = Returns sp w' ->
    spectrogram sp
    = Some (crop (upto_right_edge (data image) right_edge)
              (spectrogram_ymin sp) (spectrogram_ymax sp)
              (spectrogram_xmin sp) (spectrogram_xmax sp)) /\
    spectrogram_err sp
    = Some (crop (upto_right_edge (stat_errors image) right_edge)
              (spectrogram_ymin sp) (spectrogram_ymax sp)
              (spectrogram_xmin sp) (spectrogram_xmax sp)) /\
    option_map shape (spectrogram_bgd sp)
    = option_map shape (spectrogram sp) /\
    spectrogram_x0 sp
    = (fst (target_pixcoords image) - inject_Z (spectrogram_xmin sp))%Q /\
    spectrogram_y0 sp
    = (snd (target_pixcoords image) - inject_Z (spectrogram_ymin sp))%Q /\
    0 <= spectrogram_ymin sp /\
    spectrogram_ymax sp <= fst (shape (data image)) /\
    spectrogram_xmax sp <= right_edge.
Proof.
  intros fuel image spectrum signal_width ws right_edge w sp w' Hrun.
  destruct (extract_spectrum_from_image_Returns _ _ _ _ _ _ _ _ _ Hrun)
    as (win & w1 & model & w2 & psf0 & s & wk & d & w3 & umodel & w4 & f &
        _ & _ & _ & _ & Hder & _ & _ & Hfin & ->).
  destruct (derotate_Returns _ _ _ _ _ _ _ _ Hder)
    as (s_rot & _ & Hbounds & _ & Htarget & _).
  destruct (unrotated_bounds_Returns _ _ _ _ _ _ _ Hbounds)
    as (i_min & i_max & dx_min & dx_max & _ & _ & _ & _ & _ & Hxmax &
        Hdata & Herr & _).
  destruct (unrotated_bounds_rows _ _ _ _ _ _ _ Hbounds) as [Hymin Hymax].
  destruct (finalize_eq _ _ _ _ _ _ _ _ _ Hfin) as [_ ->].
  cbn. rewrite Htarget, Hdata, Herr. unfold target_in_crop. cbn.
  repeat split; try reflexivity; try assumption. lia.
Qed.

(** X14. In a returned spectrum the wavelengths [lambdas] are the column
    [lambdas] of the table of [chromatic_psf], one per row of that table
    (lines 338-341), and [spectrogram_deg] and [spectrogram_saturation]
    are the degree and the saturation of that PSF object (lines 357-358). *)
Theorem wavelengths_are_the_lambdas_column_of_the_table :
  forall fuel image spectrum signal_width ws right_edge w sp w',
    extract_spectrum_from_image fuel image spectrum signal_width ws
      right_edge w = Returns sp w' ->
    exists s,
      chromatic_psf sp = Some s /\
      lambdas (table s) = spec_lambdas sp /\
      Z.of_nat (length (spec_lambdas sp)) = rows (table s) /\
      spectrogram_deg sp = deg s /\
      spectrogram_saturation sp = psf_saturation s.
Proof.
  intros fuel image spectrum signal_width ws right_edge w sp w' Hrun.
  destruct (extract_spectrum_from_image_Returns _ _ _ _ _ _ _ _ _ Hrun)
    as (win & w1 & model & w2 & psf0 & s & wk & d & w3 & umodel & w4 & f &
        _ & _ & _ & _ & _ & _ & _ & Hfin & ->).
  destruct (finalize_eq _ _ _ _ _ _ _ _ _ Hfin) as [Hlen ->].
  eexists. split; [reflexivity|]. cbn. repeat split; try reflexivity.
  exact Hlen.
Qed.

Lemma fit_1d_fits image win model signal_width ws w psf0 s wk w1 :
  fit_1d image win model signal_width ws w = Returns (psf0, s, wk) w1 ->
  exists s_in,
    fit_chromatic_psf s_in (w_data win) model (w_err win) "noprior" "1D"
      (VERBOSE (parameters w)) = Some (s, wk).
Proof.
  unfold fit_1d. intros H.
  inv_bind H as p wa E1. inv_prim E1.
  inv_bind H as s1 wb E2. inv_prim E2.
  inv_bind H as sw wc E3. inv_prim E3. destruct sw as [s2 wk2].
  cbn in H. inversion H; subst; clear H.
  eexists. exact E3.
Qed.

Lemma deconvolve_2d_skipped psf0 image spectrum d win model w1d pixels1 w :
  PSF_EXTRACTION_MODE (parameters w) <> "PSF_2D" ->
  deconvolve_2d psf0 image spectrum d win model w1d pixels1 w
  = Returns {| f_psf := d_psf d; f_pixels := pixels1;
               f_data := amplitude_params w1d;
               f_err := amplitude_params_err w1d;
               f_cov := amplitude_cov_matrix w1d;
               f_fit := spectrogram_fit spectrum;
               f_residuals := spectrogram_residuals spectrum;
               f_opt_reg := (-1)%Q |} w.
Proof.
  intros Hm. unfold deconvolve_2d, bind, get_parameters.
  destruct (String.eqb_spec (PSF_EXTRACTION_MODE (parameters w)) "PSF_2D");
    [contradiction | reflexivity].
Qed.

Lemma deconvolve_2d_done psf0 image spectrum d win model w1d pixels1 w f w1 :
  PSF_EXTRACTION_MODE (parameters w) = "PSF_2D" ->
  deconvolve_2d psf0 image spectrum d win model w1d pixels1 w = Returns f w1 ->
  exists s_in s_out wk,
    fit_chromatic_psf s_in (w_data win) model (w_err win) "psf1d" "2D"
      (VERBOSE (parameters w)) = Some (s_out, wk) /\
    f = {| f_psf :=
             with_table s_out
               (set_Dy_band (table s_out)
                  (map (fun y => (y - snd (d_target d))%Q)
                       (y_c (table s_out)))
                  (zip_with (fun d w => (d - (1 # 2) * w)%Q)
                     (map (fun y => (y - snd (d_target d))%Q)
                          (y_c (table s_out)))
                     (fwhm (table s_out)))
                  (zip_with (fun d w => (d + (1 # 2) * w)%Q)
                     (map (fun y => (y - snd (d_target d))%Q)
                          (y_c (table s_out)))
                     (fwhm (table s_out))));
           f_pixels := FloatPixels (Dx (table s_out));
           f_data := amplitude_params wk;
           f_err := amplitude_params_err wk;
           f_cov := amplitude_cov_matrix wk;
           f_fit := Some (evaluate s_out (poly_params s_out) "2D");
           f_residuals :=
             Some (map (pull_row
                          (array_sub (w_data win)
                             (evaluate s_out (poly_params s_out) "2D"))
                          (on_grid model (snd (shape (w_data win)))
                             (fst (shape (w_data win))))
                          (w_err win))
                     (arange 0 (fst (shape (w_data win)))));
           f_opt_reg := opt_reg s_out |}.
Proof.
  unfold deconvolve_2d. intros Hm H.
  inv_bind H as p wa E1. inv_prim E1.
  rewrite Hm in H. change ("PSF_2D" =? "PSF_2D")%string with true in H.
  cbv iota in H.
  inv_bind H as dx wb E2. inv_prim E2.
  inv_bind H as amp wc E3. inv_prim E3.
  inv_bind H as ferr wd E4. inv_prim E4.
  inv_bind H as ddisp we E5. inv_prim E5.
  inv_bind H as sw wf E6. inv_prim E6. destruct sw as [s_out wk].
  cbn in H. inversion H; subst; clear H.
  eexists _, s_out, wk. split; [exact E6 | reflexivity].
Qed.

(** X15. In ["PSF_1D"] mode the PSF object of a returned spectrum is the
    one that was recentred on the unrotated crop: its origin is
    ([spectrogram_x0], [spectrogram_y0]) and on every row of its table
    [x_c = Dx + spectrogram_x0] and [y_c = Dy + spectrogram_y0]. The
    fields [spectrogram_fit] and [spectrogram_residuals] are not written:
    they are those of the spectrum that was passed in. *)
Theorem one_dimensional_mode_keeps_the_recentred_table :
  forall fuel image spectrum signal_width ws right_edge w sp w',
    PSF_EXTRACTION_MODE (parameters w) = "PSF_1D" ->
    extract_spectrum_from_image fuel image spectrum signal_width ws
      right_edge w = Returns sp w' ->
    (exists s,
       chromatic_psf sp = Some s /\
       x0 s = spectrogram_x0 sp /\ y0 s = spectrogram_y0 sp /\
       centred_on (spectrogram_x0 sp, spectrogram_y0 sp) (table s)) /\
    spectrogram_fit sp = spectrogram_fit spectrum /\
    spectrogram_residuals sp = spectrogram_residuals spectrum.
Proof.
  intros fuel image spectrum signal_width ws right_edge w sp w' Hmode Hrun.
  destruct (mode_of_a_returning_call _ _ _ _ _ _ _ _ _ Hrun) as [Hm _].
  destruct (extract_spectrum_from_image_Returns _ _ _ _ _ _ _ _ _ Hrun)
    as (win & w1 & model & w2 & psf0 & s & wk & d & w3 & umodel & w4 & f &
        _ & _ & _ & _ & Hder & _ & Hdec & Hfin & ->).
  destruct (derotate_Returns _ _ _ _ _ _ _ _ Hder)
    as (s_rot & _ & _ & Hpsf & Htarget & _).
  rewrite deconvolve_2d_skipped in Hdec
    by (rewrite Hm, Hmode; discriminate).
  inversion Hdec; subst f; clear Hdec.
  destruct (finalize_eq _ _ _ _ _ _ _ _ _ Hfin) as [_ ->]. cbn.
  split; [|split; reflexivity].
  eexists. split; [reflexivity|]. cbn.
  rewrite Hpsf, Htarget.
  split; [reflexivity|]. split; [reflexivity|].
  rewrite <- surjective_pairing.
  exact (recenter_centred image (d_window d) s_rot).
Qed.

(** X16. In ["PSF_2D"] mode the table of the PSF object of a returned
    spectrum has [Dy = y_c - spectrogram_y0], [Dy_fwhm_inf = Dy - fwhm / 2]
    and [Dy_fwhm_sup = Dy + fwhm / 2] (lines 330-332), and the fields
    [spectrogram_fit] and [spectrogram_residuals] are set, the residuals
    with one row per row of the stored spectrogram and one entry per column
    (lines 323-325). *)
Theorem two_dimensional_mode_fills_the_offset_band :
  forall fuel image spectrum signal_width ws right_edge w sp w',
    PSF_EXTRACTION_MODE (parameters w) = "PSF_2D" ->
    extract_spectrum_from_image fuel image spectrum signal_width ws
      right_edge w = Returns sp w' ->
    exists s data fit residuals,
      chromatic_psf sp = Some s /\
      Dy (table s)
      = map (fun y => (y - spectrogram_y0 sp)%Q) (y_c (table s)) /\
      Dy_fwhm_inf (table s)
      = zip_with (fun d w => (d - (1 # 2) * w)%Q) (Dy (table s))
          (fwhm (table s)) /\
      Dy_fwhm_sup (table s)
      = zip_with (fun d w => (d + (1 # 2) * w)%Q) (Dy (table s))
          (fwhm (table s)) /\
      spectrogram sp = Some data /\
      spectrogram_fit sp = Some fit /\
      spectrogram_residuals sp = Some residuals /\
      length residuals = Z.to_nat (fst (shape data)) /\
      Forall (fun row => length row = Z.to_nat (snd (shape data))) residuals.
Proof.
  intros fuel image spectrum signal_width ws right_edge w sp w' Hmode Hrun.
  destruct (mode_of_a_returning_call _ _ _ _ _ _ _ _ _ Hrun) as [Hm _].
  destruct (extract_spectrum_from_image_Returns _ _ _ _ _ _ _ _ _ Hrun)
    as (win & w1 & model & w2 & psf0 & s & wk & d & w3 & umodel & w4 & f &
        _ & _ & _ & _ & _ & _ & Hdec & Hfin & ->).
  destruct (deconvolve_2d_done _ _ _ _ _ _ _ _ _ _ _
              ltac:(rewrite Hm; exact Hmode) Hdec)
    as (s_in & s_out & wk2 & _ & ->).
  destruct (finalize_eq _ _ _ _ _ _ _ _ _ Hfin) as [_ ->]. cbn.
  eexists _, _, _, _. split; [reflexivity|]. cbn.
  repeat (split; [reflexivity|]).
  split.
  - rewrite length_map, length_arange, Z.sub_0_r. reflexivity.
  - apply List.Forall_forall. intros row Hrow. apply in_map_iff in Hrow.
    destruct Hrow as (y & <- & _). unfold pull_row.
    rewrite length_map, length_arange, Z.sub_0_r. reflexivity.
Qed.

(** X17. The flux, its error and its covariance in a returned spectrum are
    those of the last global fit of the mode in force: in ["PSF_1D"] mode
    the fit with method ["noprior"] and mode ["1D"] on the crop of the
    rotated frame (lines 234-238), in ["PSF_2D"] mode the fit with method
    ["psf1d"] and mode ["2D"] on the stored spectrogram, its errors and the
    surface of its background (lines 320-328). *)
Theorem fluxes_come_from_the_fit_of_the_mode :
  forall fuel image spectrum signal_width ws right_edge w sp w',
    extract_spectrum_from_image fuel image spectrum signal_width ws
      right_edge w = Returns sp w' ->
    (PSF_EXTRACTION_MODE (parameters w) = "PSF_1D" ->
     exists win w1 s_in model s_out wk,
       rotated_window image (default_ws signal_width ws) right_edge w
       = Returns win w1 /\
       fit_chromatic_psf s_in (w_data win) model (w_err win) "noprior" "1D"
         (VERBOSE (parameters w)) = Some (s_out, wk) /\
       spec_data sp = amplitude_params wk /\
       spec_err sp = amplitude_params_err wk /\
       cov_matrix sp = amplitude_cov_matrix wk) /\
    (PSF_EXTRACTION_MODE (parameters w) = "PSF_2D" ->
     exists data err s_in s_out wk,
       spectrogram sp = Some data /\
       spectrogram_err sp = Some err /\
       fit_chromatic_psf s_in data
         (extract_spectrogram_background_sextractor (parameters w') data err
            (default_ws signal_width ws))
         err "psf1d" "2D" (VERBOSE (parameters w)) = Some (s_out, wk) /\
       spec_data sp = amplitude_params wk /\
       spec_err sp = amplitude_params_err wk /\
       cov_matrix sp = amplitude_cov_matrix wk).
Proof.
  intros fuel image spectrum signal_width ws right_edge w sp w' Hrun.
  destruct (mode_of_a_returning_call _ _ _ _ _ _ _ _ _ Hrun) as [Hm Hv].
  destruct (extract_spectrum_from_image_Returns _ _ _ _ _ _ _ _ _ Hrun)
    as (win & w1 & model & w2 & psf0 & s & wk & d & w3 & umodel & w4 & f &
        _ & Hwin & Hbg & Hfit & Hder & Hubg & Hdec & Hfin & ->).
  destruct (unrotated_background_Returns _ _ _ _ _ Hubg) as (Hum & Hp4 & _).
  split; intros Hmode.
  - rewrite deconvolve_2d_skipped in Hdec
      by (rewrite Hm, Hmode; discriminate).
    inversion Hdec; subst f; clear Hdec.
    destruct (finalize_eq _ _ _ _ _ _ _ _ _ Hfin) as [_ ->]. cbn.
    destruct (fit_1d_fits _ _ _ _ _ _ _ _ _ _ Hfit) as [s_in Hs].
    exists win, w1, s_in, model, s, wk.
    split; [exact Hwin|]. split; [|auto].
    destruct (rotated_window_Returns _ _ _ _ _ _ Hwin)
      as (i_max & _ & _ & _ & _ & _ & Hp1 & _).
    destruct (rotated_background_Returns _ _ _ _ _ _ Hbg)
      as (res0 & log & _ & _ & _ & Hs2 & _).
    assert (Hv2 : VERBOSE (parameters w2) = VERBOSE (parameters w)).
    { unfold same_but_boxsize in Hs2. rewrite Hs2, Hp1. reflexivity. }
    rewrite <- Hv2. exact Hs.
  - destruct (deconvolve_2d_done _ _ _ _ _ _ _ _ _ _ _
                ltac:(rewrite Hm; exact Hmode) Hdec)
      as (s_in & s_out & wk2 & Hs & ->).
    destruct (finalize_eq _ _ _ _ _ _ _ _ _ Hfin) as [_ ->]. cbn.
    exists (w_data (unrotated_window d)), (w_err (unrotated_window d)),
      s_in, s_out, wk2.
    split; [reflexivity|]. split; [reflexivity|].
    split; [|auto]. rewrite Hv, Hum in Hs. rewrite Hp4. exact Hs.
Qed.

End Fields.

(** ** Header and array reads *)

Lemma array_reads_app l1 l2 :
  array_reads (l1 ++ l2) = array_reads l1 ++ array_reads l2.
Proof. unfold array_reads. apply flat_map_app. Qed.

Section Reads.

Context {C : Collaborators}.

Lemma refine_background_reads data err ws index fuel :
  forall model res w,
    array_reads
      (effects
         (final_world (refine_background fuel data err ws index model res w)))
    = array_reads (effects w).
Proof.
  induction fuel as [|fuel IH]; intros model res w.
  - cbn [refine_background]; unfold bind; cbn.
    destruct (_ && _); reflexivity.
  - rewrite refine_background_unfold.
    destruct (pull_rejected res && (5 <=? boxsize w)); [|reflexivity].
    assert (Hafter : array_reads (effects (after_refit w))
                     = array_reads (effects w)).
    { cbn [after_refit effects]. rewrite !array_reads_app. cbn.
      rewrite !app_nil_r. reflexivity. }
    destruct (refit_pull data err ws index (parameters (after_refit w)));
      [rewrite IH|]; exact Hafter.
Qed.

Lemma rotated_background_reads fuel win ws w model w1 :
  rotated_background fuel win ws w = Returns model w1 ->
  array_reads (effects w1) = array_reads (effects w).
Proof.
  unfold rotated_background. intros H.
  inv_bind H as m0 wa E1. rewrite background_fit_eq in E1.
  inversion E1; subst; clear E1.
  inv_bind H as res wb E2. unfold bgd_residuals in E2. inv_prim E2.
  inv_bind H as p wc E3. inv_prim E3.
  inv_bind H as u wd E4. inv_prim E4.
  inv_bind H as mr we E5. destruct mr as [m1 r1].
  cbn in H. inversion H; subst; clear H.
  pose proof (f_equal (fun o => array_reads (effects (final_world o))) E5)
    as Hr.
  cbv beta in Hr. rewrite refine_background_reads in Hr.
  cbn [final_world] in Hr. rewrite <- Hr. cbn [effects].
  rewrite !array_reads_app. cbn. rewrite !app_nil_r. reflexivity.
Qed.

(** X18. A call that returns adds the key [PSF_REG] to the header of the
    spectrum and changes nothing else in it: every other key has the value
    it had in the spectrum that was passed in, or is absent as it was. *)
Theorem header_gains_only_PSF_REG :
  forall fuel image spectrum signal_width ws right_edge w sp w',
    extract_spectrum_from_image fuel image spectrum signal_width ws
      right_edge w = Returns sp w' ->
    is_Some (header sp !! "PSF_REG") /\
    forall key, key <> "PSF_REG" -> header sp !! key = header spectrum !! key.
Proof.
  intros fuel image spectrum signal_width ws right_edge w sp w' Hrun.
  destruct (extract_spectrum_from_image_Returns _ _ _ _ _ _ _ _ _ Hrun)
    as (win & w1 & model & w2 & psf0 & s & wk & d & w3 & umodel & w4 & f &
        _ & _ & _ & _ & _ & _ & _ & Hfin & ->).
  destruct (finalize_Returns _ _ _ _ _ _ _ _ _ Hfin) as (_ & Hh & _).
  rewrite Hh. split.
  - rewrite lookup_insert_eq. eexists. reflexivity.
  - intros key Hkey. apply lookup_insert_ne. congruence.
Qed.

(** X19. A call that returns has copied each of the four arrays of the
    image exactly once, and its log has this shape: first the copies of the
    rotated data and of its errors (lines 169-170); then a stretch without
    any copy and without any fit on the unrotated frame, which holds every
    fit on the rotated frame, the first of them at the box size found at
    entry (lines 196-208); then the copies of the raw data and of its
    errors (lines 256-257); and last the one fit on the unrotated frame
    (line 287). So the raw arrays are copied only after the last fit of the
    refinement on the rotated frame. *)
Theorem each_image_array_is_copied_once :
  forall fuel image spectrum signal_width ws right_edge w sp w',
    extract_spectrum_from_image fuel image spectrum signal_width ws
      right_edge w = Returns sp w' ->
    array_reads (effects w')
    = array_reads (effects w)
      ++ ["data_rotated"; "stat_errors_rotated"; "data"; "stat_errors"] /\
    exists fits rest,
      effects w'
      = effects w
        ++ [ReadArray "data_rotated"; ReadArray "stat_errors_rotated"]
        ++ fits
        ++ [ReadArray "data"; ReadArray "stat_errors";
            BackgroundFit unrotated (boxsize w')] /\
      array_reads fits = [] /\
      fit_boxes unrotated fits = [] /\
      fit_boxes rotated fits = boxsize w :: rest /\
      List.last (boxsize w :: rest) 0 = boxsize w'.
Proof.
  intros fuel image spectrum signal_width ws right_edge w sp w' Hrun.
  destruct (extract_spectrum_from_image_Returns _ _ _ _ _ _ _ _ _ Hrun)
    as (win & w1 & model & w2 & psf0 & s & wk & d & w3 & umodel & w4 & f &
        _ & Hwin & Hbg & _ & Hder & Hubg & _ & _ & ->).
  destruct (rotated_window_Returns _ _ _ _ _ _ Hwin)
    as (i_max & _ & _ & _ & _ & _ & Hp1 & He1).
  pose proof (rotated_background_reads _ _ _ _ _ _ Hbg) as Hr2.
  destruct (rotated_background_fits _ _ _ _ _ _ Hbg)
    as (log & He2 & Hu2 & Hl2).
  destruct (derotate_Returns _ _ _ _ _ _ _ _ Hder)
    as (s_rot & _ & Hbounds & _).
  destruct (unrotated_bounds_Returns _ _ _ _ _ _ _ Hbounds)
    as (i_min & i_max' & dx_min & dx_max & _ & _ & _ & _ & _ & _ & _ & _ &
        Hp3 & He3).
  destruct (unrotated_background_Returns _ _ _ _ _ Hubg) as (_ & Hp4 & He4).
  assert (Hb1 : boxsize w1 = boxsize w) by (unfold boxsize; rewrite Hp1; auto).
  assert (Hb3 : boxsize w3 = boxsize w2) by (unfold boxsize; rewrite Hp3; auto).
  assert (Hb4 : boxsize w4 = boxsize w2)
    by (unfold boxsize; rewrite Hp4, Hp3; auto).
  assert (Hnone : array_reads log = []).
  { rewrite He2, !array_reads_app in Hr2. cbn in Hr2.
    rewrite <- (app_nil_r (array_reads (effects w1))) in Hr2 at 2.
    apply app_inv_head in Hr2. exact Hr2. }
  split.
  - rewrite He4, array_reads_app, He3, array_reads_app, Hr2, He1,
      array_reads_app. cbn. rewrite app_nil_r, <- app_assoc. reflexivity.
  - exists ([BackgroundFit rotated (boxsize w); Warning (boxsize w)] ++ log),
      (fit_boxes rotated log).
    split; [|split; [|split; [|split]]].
    + rewrite He4, He3, He2, He1, Hb1, Hb3, Hb4. rewrite <- !app_assoc.
      reflexivity.
    + rewrite array_reads_app. exact Hnone.
    + rewrite fit_boxes_app, Hu2. reflexivity.
    + rewrite fit_boxes_app. reflexivity.
    + rewrite Hb4, Hl2, Hb1. symmetry. apply last_after_head.
Qed.

End Reads.

(** ** The properties of a whole run, on a concrete image *)

Lemma stored_arrays_are_the_crop_at_the_stored_bounds_witness :
  match extract_spectrum_from_image
          (C := Doubles.collaborators Doubles.unbiased 7)
          5 (Doubles.image 100 0) Doubles.blank 1 (Some (2, 4)) 8
          (Doubles.world "PSF_1D" 20 200 500) with
  | Returns sp _ =>
      option_map shape (spectrogram_bgd sp)
      = option_map shape (spectrogram sp) /\
      spectrogram_x0 sp = (0 - inject_Z (spectrogram_xmin sp))%Q /\
      spectrogram_y0 sp = (6 - inject_Z (spectrogram_ymin sp))%Q /\
      0 <= spectrogram_ymin sp /\
      spectrogram_ymax sp <= 12 /\
      spectrogram_xmax sp <= 8
  | _ => False
  end.
Proof.
  destruct (extract_spectrum_from_image
              (C := Doubles.collaborators Doubles.unbiased 7)
              5 (Doubles.image 100 0) Doubles.blank 1 (Some (2, 4)) 8
              (Doubles.world "PSF_1D" 20 200 500))
    as [sp w'| |] eqn:Hrun; [|vm_compute in Hrun; discriminate..].
  destruct (stored_arrays_are_the_crop_at_the_stored_bounds
              _ _ _ _ _ _ _ _ _ Hrun)
    as (_ & _ & Hshape & Hx & Hy & Hymin & Hymax & Hxmax).
  repeat split; assumption.
Defined.

Lemma wavelengths_are_the_lambdas_column_of_the_table_witness :
  match extract_spectrum_from_image
          (C := Doubles.collaborators Doubles.unbiased 7)
          5 (Doubles.image 100 0) Doubles.blank 1 (Some (2, 4)) 8
          (Doubles.world "PSF_2D" 20 200 500) with
  | Returns sp _ =>
      exists s,
        chromatic_psf sp = Some s /\
        lambdas (table s) = spec_lambdas sp /\
        Z.of_nat (length (spec_lambdas sp)) = rows (table s) /\
        spectrogram_deg sp = deg s /\
        spectrogram_saturation sp = psf_saturation s
  | _ => False
  end.
Proof.
  destruct (extract_spectrum_from_image
              (C := Doubles.collaborators Doubles.unbiased 7)
              5 (Doubles.image 100 0) Doubles.blank 1 (Some (2, 4)) 8
              (Doubles.world "PSF_2D" 20 200 500))
    as [sp w'| |] eqn:Hrun; [|vm_compute in Hrun; discriminate..].
  exact (wavelengths_are_the_lambdas_column_of_the_table
           _ _ _ _ _ _ _ _ _ Hrun).
Defined.

Lemma one_dimensional_mode_keeps_the_recentred_table_witness :
  match extract_spectrum_from_image
          (C := Doubles.collaborators Doubles.unbiased 7)
          5 (Doubles.image 100 0) Doubles.blank 1 (Some (2, 4)) 8
          (Doubles.world "PSF_1D" 20 200 500) with
  | Returns sp _ =>
      (exists s,
         chromatic_psf sp = Some s /\
         x0 s = spectrogram_x0 sp /\ y0 s = spectrogram_y0 sp /\
         centred_on (spectrogram_x0 sp, spectrogram_y0 sp) (table s)) /\
      spectrogram_fit sp = None /\
      spectrogram_residuals sp = None
  | _ => False
  end.
Proof.
  destruct (extract_spectrum_from_image
              (C := Doubles.collaborators Doubles.unbiased 7)
              5 (Doubles.image 100 0) Doubles.blank 1 (Some (2, 4)) 8
              (Doubles.world "PSF_1D" 20 200 500))
    as [sp w'| |] eqn:Hrun; [|vm_compute in Hrun; discriminate..].
  exact (one_dimensional_mode_keeps_the_recentred_table
           (C := Doubles.collaborators Doubles.unbiased 7)
           5 (Doubles.image 100 0) Doubles.blank 1 (Some (2, 4)) 8
           (Doubles.world "PSF_1D" 20 200 500) sp w' eq_refl Hrun).
Defined.

Lemma two_dimensional_mode_fills_the_offset_band_witness :
  match extract_spectrum_from_image
          (C := Doubles.collaborators Doubles.unbiased 7)
          5 (Doubles.image 100 0) Doubles.blank 1 (Some (2, 4)) 8
          (Doubles.world "PSF_2D" 20 200 500) with
  | Returns sp _ =>
      exists s data fit residuals,
        chromatic_psf sp = Some s /\
        Dy (table s)
        = map (fun y => (y - spectrogram_y0 sp)%Q) (y_c (table s)) /\
        Dy_fwhm_inf (table s)
        = zip_with (fun d w => (d - (1 # 2) * w)%Q) (Dy (table s))
            (fwhm (table s)) /\
        Dy_fwhm_sup (table s)
        = zip_with (fun d w => (d + (1 # 2) * w)%Q) (Dy (table s))
            (fwhm (table s)) /\
        spectrogram sp = Some data /\
        spectrogram_fit sp = Some fit /\
        spectrogram_residuals sp = Some residuals /\
        length residuals = Z.to_nat (fst (shape data)) /\
        Forall (fun row => length row = Z.to_nat (snd (shape data)))
          residuals
  | _ => False
  end.
Proof.
  destruct (extract_spectrum_from_image
              (C := Doubles.collaborators Doubles.unbiased 7)
              5 (Doubles.image 100 0) Doubles.blank 1 (Some (2, 4)) 8
              (Doubles.world "PSF_2D" 20 200 500))
    as [sp w'| |] eqn:Hrun; [|vm_compute in Hrun; discriminate..].
  exact (two_dimensional_mode_fills_the_offset_band
           (C := Doubles.collaborators Doubles.unbiased 7)
           5 (Doubles.image 100 0) Doubles.blank 1 (Some (2, 4)) 8
           (Doubles.world "PSF_2D" 20 200 500) sp w' eq_refl Hrun).
Defined.

Lemma fluxes_come_from_the_fit_of_the_mode_witness :
  match extract_spectrum_from_image
          (C := Doubles.collaborators Doubles.unbiased 7)
          5 (Doubles.image 100 0) Doubles.blank 1 (Some (2, 4)) 8
          (Doubles.world "PSF_1D" 20 200 500) with
  | Returns sp _ =>
      exists win w1 s_in model s_out wk,
        rotated_window (Doubles.image 100 0) (2, 4) 8
          (Doubles.world "PSF_1D" 20 200 500) = Returns win w1 /\
        fit_chromatic_psf (Collaborators := Doubles.collaborators Doubles.unbiased 7)
          s_in (w_data win) model (w_err win) "noprior" "1D" false
        = Some (s_out, wk) /\
        spec_data sp = amplitude_params wk /\
        spec_err sp = amplitude_params_err wk /\
        cov_matrix sp = amplitude_cov_matrix wk
  | _ => False
  end.
Proof.
  destruct (extract_spectrum_from_image
              (C := Doubles.collaborators Doubles.unbiased 7)
              5 (Doubles.image 100 0) Doubles.blank 1 (Some (2, 4)) 8
              (Doubles.world "PSF_1D" 20 200 500))
    as [sp w'| |] eqn:Hrun; [|vm_compute in Hrun; discriminate..].
  exact (proj1 (fluxes_come_from_the_fit_of_the_mode
                  _ _ _ _ _ _ _ _ _ Hrun) eq_refl).
Defined.

Lemma header_gains_only_PSF_REG_witness :
  match extract_spectrum_from_image
          (C := Doubles.collaborators Doubles.unbiased 7)
          5 (Doubles.image 100 0) Doubles.blank 1 (Some (2, 4)) 8
          (Doubles.world "PSF_2D" 20 200 500) with
  | Returns sp _ =>
      is_Some (header sp !! "PSF_REG") /\
      header sp !! "EXPTIME" = header Doubles.blank !! "EXPTIME"
  | _ => False
  end.
Proof.
  destruct (extract_spectrum_from_image
              (C := Doubles.collaborators Doubles.unbiased 7)
              5 (Doubles.image 100 0) Doubles.blank 1 (Some (2, 4)) 8
              (Doubles.world "PSF_2D" 20 200 500))
    as [sp w'| |] eqn:Hrun; [|vm_compute in Hrun; discriminate..].
  destruct (header_gains_only_PSF_REG _ _ _ _ _ _ _ _ _ Hrun)
    as [Hreg Hother].
  split; [exact Hreg | apply Hother; discriminate].
Defined.

Lemma each_image_array_is_copied_once_witness :
  match extract_spectrum_from_image
          (C := Doubles.collaborators Doubles.off_when_wide 7)
          5 (Doubles.image 100 0) Doubles.blank 1 (Some (2, 4)) 8
          (Doubles.world "PSF_1D" 20 200 500) with
  | Returns _ w' =>
      array_reads (effects w')
      = ["data_rotated"; "stat_errors_rotated"; "data"; "stat_errors"] /\
      exists fits rest,
        effects w'
        = [ReadArray "data_rotated"; ReadArray "stat_errors_rotated"]
          ++ fits
          ++ [ReadArray "data"; ReadArray "stat_errors";
              BackgroundFit unrotated (boxsize w')] /\
        array_reads fits = [] /\
        fit_boxes unrotated fits = [] /\
        fit_boxes rotated fits = 20 :: rest /\
        List.last (20 :: rest) 0 = boxsize w'
  | _ => False
  end.
Proof.
  destruct (extract_spectrum_from_image
              (C := Doubles.collaborators Doubles.off_when_wide 7)
              5 (Doubles.image 100 0) Doubles.blank 1 (Some (2, 4)) 8
              (Doubles.world "PSF_1D" 20 200 500))
    as [sp w'| |] eqn:Hrun; [|vm_compute in Hrun; discriminate..].
  exact (each_image_array_is_copied_once _ _ _ _ _ _ _ _ _ Hrun).
Defined.
